(** * Note-header synchronisation service (sync-cabecalho-nota-service.ts)

    A shallow embedding of the retrieval loop, the reconciliation
    (stale-mark, upsert) and the orchestration of the Sankhya note-header
    mirror, with the properties stated about them. *)

From Stdlib Require Import ZArith String Ascii List Bool Lia.
From stdpp Require Import base option list gmap strings pretty.
From Equations Require Import Equations.

Local Open Scope string_scope.
Local Open Scope Z_scope.

(** ** JavaScript values as the service sees them

    Numbers are the integers among JavaScript's numbers: the service only
    tests them for zero and passes them on to the store. *)

Inductive JsVal : Type :=
  | JUndefined
  | JNull
  | JNum (n : Z)
  | JStr (s : string)
  | JBool (b : bool).

(** ToBoolean: [undefined], [null], [0], the empty string and [false] are falsy. *)
Definition truthy (v : JsVal) : bool :=
  match v with
  | JUndefined | JNull => false
  | JNum n => negb (n =? 0)
  | JStr s => negb (String.eqb s "")
  | JBool b => b
  end.

(** [v || null] *)
Definition orNull (v : JsVal) : JsVal := if truthy v then v else JNull.

(** [String(v)] *)
Definition jsString (v : JsVal) : string :=
  match v with
  | JUndefined => "undefined"
  | JNull => "null"
  | JNum n => pretty n
  | JStr s => s
  | JBool true => "true"
  | JBool false => "false"
  end.

(** ** String primitives: [trim], [includes], [split], [Number] *)

Module Str.

(** White space of [String.prototype.trim] within ASCII: TAB, LF, VT, FF,
    CR and SPACE. *)
Definition isSpace (c : ascii) : bool :=
  let n := nat_of_ascii c in
  ((9 <=? n) && (n <=? 13))%nat || (n =? 32)%nat.

Fixpoint trimStart (s : string) : string :=
  match s with
  | String c r => if isSpace c then trimStart r else s
  | EmptyString => EmptyString
  end.

(** Drops trailing white space: a character is kept when something that is
    not white space follows or it is itself not white space. *)
Fixpoint trimEnd (s : string) : string :=
  match s with
  | EmptyString => EmptyString
  | String c r =>
      match trimEnd r with
      | EmptyString => if isSpace c then EmptyString else String c EmptyString
      | r' => String c r'
      end
  end.

Definition trim (s : string) : string := trimEnd (trimStart s).

(** [s.includes(sub)] *)
Fixpoint includes (sub s : string) : bool :=
  String.prefix sub s ||
  match s with
  | EmptyString => false
  | String _ r => includes sub r
  end.

(** [s.split(c)] for a one-character separator: never empty, one more
    piece than there are separators. *)
Fixpoint split (c : ascii) (s : string) : list string :=
  match s with
  | EmptyString => [EmptyString]
  | String d r =>
      if Ascii.eqb c d then EmptyString :: split c r
      else match split c r with
           | p :: ps => String d p :: ps
           | [] => [String d EmptyString]
           end
  end.

Definition digitOf (c : ascii) : option Z :=
  let n := nat_of_ascii c in
  if ((48 <=? n) && (n <=? 57))%nat then Some (Z.of_nat n - 48) else None.

Fixpoint digits (acc : Z) (s : string) : option Z :=
  match s with
  | EmptyString => Some acc
  | String c r =>
      match digitOf c with
      | Some d => digits (10 * acc + d) r
      | None => None
      end
  end.

(** [Number(s)] on integer literals: surrounding white space is dropped,
    the empty string is 0, an optional sign is followed by decimal digits;
    [None] stands for NaN.  Literals with a fraction, an exponent or a
    radix prefix are outside this embedding and read as NaN. *)
Definition Number (s : string) : option Z :=
  match trim s with
  | EmptyString => Some 0
  | String "+" (String c r) => digits 0 (String c r)
  | String "-" (String c r) => Z.opp <$> digits 0 (String c r)
  | t => digits 0 t
  end.

End Str.

(** ** Dates: [new Date(year, monthIndex, day)]

    A date is kept as the civil (year, month 1..12, day) it denotes in
    local time.  [new Date] accepts any day and month index and carries the
    overflow; a year from 0 to 99 means 1900 + year.  The end of the range
    of [Date] (years past 275760) is not modelled. *)

Record JsDate : Type := mkDate { dYear : Z; dMonth : Z; dDay : Z }.

Module Civil.

(** Days since 1970-01-01 of a civil date of the proleptic Gregorian
    calendar (month 1..12). *)
Definition daysFromCivil (y m d : Z) : Z :=
  let y' := if m <=? 2 then y - 1 else y in
  let era := y' / 400 in
  let yoe := y' - era * 400 in
  let mp := (m + 9) mod 12 in
  let doy := (153 * mp + 2) / 5 + d - 1 in
  let doe := yoe * 365 + yoe / 4 - yoe / 100 + doy in
  era * 146097 + doe - 719468.

Definition civilFromDays (z : Z) : JsDate :=
  let z' := z + 719468 in
  let era := z' / 146097 in
  let doe := z' - era * 146097 in
  let yoe := (doe - doe / 1460 + doe / 36524 - doe / 146096) / 365 in
  let y := yoe + era * 400 in
  let doy := doe - (365 * yoe + yoe / 4 - yoe / 100) in
  let mp := (5 * doy + 2) / 153 in
  let d := doy - (153 * mp + 2) / 5 + 1 in
  let m := if mp <? 10 then mp + 3 else mp - 9 in
  mkDate (if m <=? 2 then y + 1 else y) m d.

End Civil.

(** [new Date(year, monthIndex, day)] *)
Definition newDate (year monthIndex day : Z) : JsDate :=
  let yr := if (0 <=? year) && (year <=? 99) then 1900 + year else year in
  let ym := yr + monthIndex / 12 in
  let mn := monthIndex mod 12 + 1 in
  Civil.civilFromDays (Civil.daysFromCivil ym mn 1 + day - 1).

(** [!n] for the result of [Number]: NaN and 0 are falsy. *)
Definition numFalsy (n : option Z) : bool :=
  match n with
  | None => true
  | Some z => z =? 0
  end.

(** [n < k] and [n > k] on a number that may be NaN (comparisons with NaN
    are false). *)
Definition numLt (n : option Z) (k : Z) : bool :=
  match n with Some z => z <? k | None => false end.
Definition numGt (n : option Z) (k : Z) : bool :=
  match n with Some z => z >? k | None => false end.

(** The validation shared by both branches of the conversion:
    [!year || !month || !day || month < 1 || month > 12 || day < 1 || day > 31]. *)
Definition invalidParts (year month day : option Z) : bool :=
  numFalsy year || numFalsy month || numFalsy day
  || numLt month 1 || numGt month 12 || numLt day 1 || numGt day 31.

(** [const [a, b, c] = parts.map(Number)]: a missing element is
    [undefined], which the validation treats like NaN. *)
Definition nthNumber (parts : list string) (i : nat) : option Z :=
  match nth_error parts i with
  | Some p => Str.Number p
  | None => None
  end.

Definition dateOfParts (year month day : option Z) : option JsDate :=
  if invalidParts year month day then None
  else match year, month, day with
       | Some y, Some m, Some d => Some (newDate y (m - 1) d)
       | _, _, _ => None
       end.

(** [converterDataParaOracle] (both copies in [upsertCabecalhoNota] compute
    the same value; the second only logs more). *)
Definition converterDataParaOracle (dataStr : JsVal) : option JsDate :=
  if negb (truthy dataStr) then None
  else
    let dtnegStr := Str.trim (jsString dataStr) in
    if Str.includes "-" dtnegStr then
      let datePart := hd EmptyString (Str.split " " dtnegStr) in
      let parts := Str.split "-" datePart in
      dateOfParts (nthNumber parts 0) (nthNumber parts 1) (nthNumber parts 2)
    else if Str.includes "/" dtnegStr then
      let datePart := hd EmptyString (Str.split " " dtnegStr) in
      let parts := Str.split "/" datePart in
      dateOfParts (nthNumber parts 2) (nthNumber parts 1) (nthNumber parts 0)
    else None.


(** ** Records, errors and the outside world *)

(** [interface CabecalhoNota]: the object built from a remote entity; a
    field that the remote left out is [undefined]. *)
Record CabecalhoNota : Type := mkCabecalho {
  NUNOTA : JsVal;
  CODTIPOPER : JsVal;
  CODTIPVENDA : JsVal;
  CODPARC : JsVal;
  CODVEND : JsVal;
  VLRNOTA : JsVal;
  DTNEG : JsVal;
  TIPMOV : JsVal
}.

Definition emptyCabecalho : CabecalhoNota :=
  mkCabecalho JUndefined JUndefined JUndefined JUndefined
              JUndefined JUndefined JUndefined JUndefined.

(** [cleanObject[fieldName] = value]; only the eight properties of the
    interface are ever read back, the others are not kept. *)
Definition setField (fieldName : string) (v : JsVal) (o : CabecalhoNota) : CabecalhoNota :=
  if String.eqb fieldName "NUNOTA" then
    mkCabecalho v (CODTIPOPER o) (CODTIPVENDA o) (CODPARC o) (CODVEND o) (VLRNOTA o) (DTNEG o) (TIPMOV o)
  else if String.eqb fieldName "CODTIPOPER" then
    mkCabecalho (NUNOTA o) v (CODTIPVENDA o) (CODPARC o) (CODVEND o) (VLRNOTA o) (DTNEG o) (TIPMOV o)
  else if String.eqb fieldName "CODTIPVENDA" then
    mkCabecalho (NUNOTA o) (CODTIPOPER o) v (CODPARC o) (CODVEND o) (VLRNOTA o) (DTNEG o) (TIPMOV o)
  else if String.eqb fieldName "CODPARC" then
    mkCabecalho (NUNOTA o) (CODTIPOPER o) (CODTIPVENDA o) v (CODVEND o) (VLRNOTA o) (DTNEG o) (TIPMOV o)
  else if String.eqb fieldName "CODVEND" then
    mkCabecalho (NUNOTA o) (CODTIPOPER o) (CODTIPVENDA o) (CODPARC o) v (VLRNOTA o) (DTNEG o) (TIPMOV o)
  else if String.eqb fieldName "VLRNOTA" then
    mkCabecalho (NUNOTA o) (CODTIPOPER o) (CODTIPVENDA o) (CODPARC o) (CODVEND o) v (DTNEG o) (TIPMOV o)
  else if String.eqb fieldName "DTNEG" then
    mkCabecalho (NUNOTA o) (CODTIPOPER o) (CODTIPVENDA o) (CODPARC o) (CODVEND o) (VLRNOTA o) v (TIPMOV o)
  else if String.eqb fieldName "TIPMOV" then
    mkCabecalho (NUNOTA o) (CODTIPOPER o) (CODTIPVENDA o) (CODPARC o) (CODVEND o) (VLRNOTA o) (DTNEG o) v
  else o.

(** A remote entity: position [i] holds the value [rawEntity.f<i>.$], or
    nothing when the entity has no key [f<i>]. *)
Definition RawEntity : Type := list (option JsVal).

(** The loop [for (i = 0; i < fieldNames.length; i++)] of the page mapping,
    from index [i] on. *)
Fixpoint mapFields (fieldNames : list string) (i : nat) (rawEntity : RawEntity)
    (cleanObject : CabecalhoNota) : CabecalhoNota :=
  match fieldNames with
  | [] => cleanObject
  | fieldName :: rest =>
      mapFields rest (S i) rawEntity
        match nth_error rawEntity i with
        | Some (Some v) => setField fieldName v cleanObject
        | _ => cleanObject
        end
  end.

Definition mapEntity (fieldNames : list string) (rawEntity : RawEntity) : CabecalhoNota :=
  mapFields fieldNames 0 rawEntity emptyCabecalho.

(** [responseBody.entities.entity]: absent, one object, or an array. *)
Inductive EntityField : Type :=
  | NoEntity
  | OneEntity (e : RawEntity)
  | ManyEntities (es : list RawEntity).

(** [responseBody.entities]; [metadata] is the list of
    [metadata.fields.field[i].name], absent when the path does not lead to
    an array. *)
Record Entities : Type := mkEntities {
  entity : EntityField;
  metadata : option (list string);
  hasMoreResult : JsVal
}.

(** [response.data?.responseBody?.entities]: [None] when the path breaks. *)
Definition Response : Type := option Entities.

(** What the service reads of a thrown value: [error.code],
    [error.message], [error.response?.status]. *)
Record JsError : Type := mkError {
  code : option string;
  message : option string;
  status : option Z
}.

(** [new Error(msg)] *)
Definition newError (msg : string) : JsError := mkError None (Some msg) None.

(** A [TypeError] raised by the runtime on a broken property path. *)
Definition typeError : JsError :=
  newError "Cannot read properties of undefined".

(** [`${error.message}`] *)
Definition messageText (e : JsError) : string :=
  match message e with Some m => m | None => "undefined" end.

Definition statusIs (e : JsError) (k : Z) : bool :=
  match status e with Some s => s =? k | None => false end.

Definition codeIs (e : JsError) (c : string) : bool :=
  match code e with Some c' => String.eqb c' c | None => false end.

(** [status === 401 || status === 403] *)
Definition isAuthError (e : JsError) : bool := statusIs e 401 || statusIs e 403.

(** The condition of the outer [catch] under which a retry is made. *)
Definition isTransient (error : JsError) : bool :=
  codeIs error "ECONNABORTED"
  || codeIs error "ETIMEDOUT"
  || codeIs error "ENOTFOUND"
  || match message error with Some m => Str.includes "timeout" m | None => false end
  || match status error with Some s => s >=? 500 | None => false end.

(** The local mirror table AS_CABECALHO_NOTA. *)
Inductive Flag : Type := FlagS | FlagN.

Record MirrorRow : Type := mkRow {
  rCODTIPOPER : JsVal;
  rCODTIPVENDA : JsVal;
  rCODPARC : JsVal;
  rCODVEND : JsVal;
  rVLRNOTA : JsVal;
  rDTNEG : option JsDate;
  rTIPMOV : JsVal;
  SANKHYA_ATUAL : Flag;
  DT_ULT_CARGA : Z;
  DT_CRIACAO : Z
}.

(** Modelled from the spec: the table's declaration is not part of the
    sources; the mirror table is keyed by (tenant id, record id), the
    record identifier being numeric. *)
Abbreviation Store := (gmap (Z * Z) MirrorRow).

(** Calls that leave the process, the console line that opens an attempt
    and the line that reports a skipped record. *)
Inductive Event : Type :=
  | EvAttempt (retryCount : nat)
  | EvPost (url : string) (token : string) (page : nat)
  | EvToken (idSistema : Z)
  | EvSleep (ms : Z)
  | EvRecordError (nunota : JsVal).

Inductive Op : Type :=
  | OpConnect | OpExecute | OpCommit | OpRollback | OpClose | OpLog.

(** The collaborators, each answering by the number of the call (the
    world's [tick]). *)
Record Env : Type := mkEnv {
  (** [buscarContratoAtivo()]: no active contract, or its [IS_SANDBOX === true] *)
  contratoAtivo : nat -> option bool;
  (** [axios.post(url, payload, {Authorization: Bearer token})] for a page *)
  axiosPost : nat -> string -> string -> nat -> JsError + Response;
  (** the token supplier behind [obterToken(idSistema, true)] *)
  tokenSupplier : nat -> Z -> JsError + string;
  (** a store or logging call that throws *)
  fault : Op -> nat -> option JsError;
  (** the active rows of AD_CONTRATOS, ordered by EMPRESA *)
  empresasAtivas : nat -> list (Z * string);
  (** the clock *)
  now : nat -> Z
}.

Record World : Type := mkWorld {
  tick : nat;
  trace : list Event;
  committed : Store;
  working : Store
}.

Definition step (ev : list Event) (w : World) : World :=
  mkWorld (S (tick w)) (trace w ++ ev) (committed w) (working w).

Definition emit (ev : Event) (w : World) : World :=
  mkWorld (tick w) (trace w ++ [ev]) (committed w) (working w).

Definition setWorking (s : Store) (w : World) : World :=
  mkWorld (tick w) (trace w) (committed w) s.

Definition setCommitted (s : Store) (w : World) : World :=
  mkWorld (tick w) (trace w) s (working w).

(** ** Computations: state, exceptions, and a loop that may not end *)

Inductive Outcome (A : Type) : Type :=
  | Ret (a : A) (w : World)
  | Throw (e : JsError) (w : World)
  | Diverge.
Arguments Ret {A} a w.
Arguments Throw {A} e w.
Arguments Diverge {A}.

Definition M (A : Type) : Type := World -> Outcome A.

Definition ret {A} (a : A) : M A := fun w => Ret a w.
Definition throw {A} (e : JsError) : M A := fun w => Throw e w.
Definition diverge {A} : M A := fun _ => Diverge.

Definition bind {A B} (m : M A) (k : A -> M B) : M B :=
  fun w =>
    match m w with
    | Ret a w' => k a w'
    | Throw e w' => Throw e w'
    | Diverge => Diverge
    end.

(** [try { m } catch (e) { h e }] *)
Definition tryCatch {A} (m : M A) (h : JsError -> M A) : M A :=
  fun w =>
    match m w with
    | Ret a w' => Ret a w'
    | Throw e w' => h e w'
    | Diverge => Diverge
    end.

(** [try { m } finally { f }], for an [f] that does not throw. *)
Definition tryFinally {A} (m : M A) (f : M unit) : M A :=
  fun w =>
    match m w with
    | Ret a w' => match f w' with Ret _ w'' => Ret a w'' | Throw e w'' => Throw e w'' | Diverge => Diverge end
    | Throw e w' => match f w' with Ret _ w'' => Throw e w'' | Throw e' w'' => Throw e' w'' | Diverge => Diverge end
    | Diverge => Diverge
    end.

Notation "'let*' x ':=' m 'in' k" := (bind m (fun x => k))
  (at level 10, x name, m at level 100, k at level 200).
Notation "m ';;' k" := (bind m (fun _ => k))
  (at level 100, k at level 200, right associativity).

(** [await new Promise(resolve => setTimeout(resolve, ms))] *)
Definition sleep (ms : Z) : M unit := fun w => Ret tt (emit (EvSleep ms) w).

Definition log (ev : Event) : M unit := fun w => Ret tt (emit ev w).

(** [interface SyncResult]; the dates are clock readings, [erro] is
    [error.message]. *)
Record SyncResult : Type := mkSyncResult {
  success : bool;
  idSistema : Z;
  empresa : string;
  totalRegistros : nat;
  registrosInseridos : nat;
  registrosAtualizados : nat;
  registrosDeletados : nat;
  dataInicio : Z;
  dataFim : Z;
  duracao : Z;
  erro : option string
}.

(** ** The retrieval: [buscarCabecalhoNotaSankhya] *)

Definition MAX_RETRIES : nat := 3.
Definition RETRY_DELAY : Z := 2000.

(** The variables of the page loop. *)
Record LoopState : Type := mkLoop {
  allCabecalhos : list CabecalhoNota;
  currentPage : nat;
  hasMoreData : bool;
  currentToken : string
}.

(** [hasMoreResult === 'true' || hasMoreResult === true] *)
Definition isTrue (v : JsVal) : bool :=
  match v with
  | JStr s => String.eqb s "true"
  | JBool b => b
  | _ => false
  end.

Definition servicePath : string :=
  "/gateway/v1/mge/service.sbr?serviceName=CRUDServiceProvider.loadRecords&outputType=json".

Definition baseUrl (isSandbox : bool) : string :=
  if isSandbox then "https://api.sandbox.sankhya.com.br" else "https://api.sankhya.com.br".

(** [Array.isArray(entities.entity) ? entities.entity : [entities.entity]] *)
Definition entityArray (e : EntityField) : list RawEntity :=
  match e with
  | NoEntity => []
  | OneEntity x => [x]
  | ManyEntities xs => xs
  end.

(** [response.data?.responseBody?.entities?.entity] is truthy: the
    entities, when they hold an entity. *)
Definition entityOf (response : Response) : option Entities :=
  match response with
  | None => None
  | Some entities =>
      match entity entities with
      | NoEntity => None
      | _ => Some entities
      end
  end.

Section Service.

Variable env : Env.

Definition buscarContratoAtivo : M (option bool) :=
  fun w => Ret (contratoAtivo env (tick w)) (step [] w).

Definition post (url token : string) (page : nat) : M Response :=
  fun w =>
    let w' := step [EvPost url token page] w in
    match axiosPost env (tick w) url token page with
    | inl e => Throw e w'
    | inr r => Ret r w'
    end.

(** [obterToken(idSistema, true)]: the renewal is always forced here. *)
Definition obterToken (idSistema : Z) : M string :=
  fun w =>
    let w' := step [EvToken idSistema] w in
    match tokenSupplier env (tick w) idSistema with
    | inl e => Throw e w'
    | inr t => Ret t w'
    end.

(** The [try] block of one turn of the page loop. *)
Definition tryPage (st : LoopState) : M LoopState :=
  let* contrato := buscarContratoAtivo in
  match contrato with
  | None => throw (newError "Nenhum contrato ativo encontrado")
  | Some isSandbox =>
      let* response := post (baseUrl isSandbox ++ servicePath)%string (currentToken st) (currentPage st) in
      match entityOf response with
      | None =>
          ret (mkLoop (allCabecalhos st) (currentPage st) false (currentToken st))
      | Some entities =>
          match metadata entities with
          | None => throw typeError
          | Some fieldNames =>
              let cabecalhosPagina := map (mapEntity fieldNames) (entityArray (entity entities)) in
              let all' := (allCabecalhos st ++ cabecalhosPagina)%list in
              if (length cabecalhosPagina =? 0)%nat || negb (isTrue (hasMoreResult entities)) then
                ret (mkLoop all' (currentPage st) false (currentToken st))
              else
                sleep 500 ;;
                ret (mkLoop all' (S (currentPage st)) true (currentToken st))
          end
      end
  end.

(** The [catch (pageError)] of the page loop. *)
Definition onPageError (idSistema : Z) (st : LoopState) (pageError : JsError) : M LoopState :=
  if isAuthError pageError then
    let* novo := obterToken idSistema in
    sleep 1000 ;;
    ret (mkLoop (allCabecalhos st) (currentPage st) (hasMoreData st) novo)
  else throw pageError.

(** [while (hasMoreData) { try { ... } catch (pageError) { ... } }]; the
    loop has no bound of its own, [fuel] counts its turns. *)
Fixpoint pageLoop (fuel : nat) (idSistema : Z) (st : LoopState) : M LoopState :=
  if hasMoreData st then
    match fuel with
    | O => diverge
    | S fuel' =>
        let* st' := tryCatch (tryPage st) (onPageError idSistema st) in
        pageLoop fuel' idSistema st'
    end
  else ret st.

(** The error thrown when the retrieval gives up. *)
Definition giveUp (retryCount : nat) (error : JsError) : JsError :=
  newError ("Erro ao buscar cabeçalhos de nota após " ++ pretty (retryCount + 1)%nat
            ++ " tentativas: " ++ messageText error)%string.

Equations? buscarCabecalhoNotaSankhya (fuel : nat) (idSistema : Z) (bearerToken : string)
    (retryCount : nat) (w : World) : Outcome (list CabecalhoNota)
    by wf (MAX_RETRIES - retryCount)%nat lt :=
  buscarCabecalhoNotaSankhya fuel idSistema bearerToken retryCount w
    with pageLoop fuel idSistema (mkLoop [] 0 true bearerToken) (emit (EvAttempt retryCount) w) => {
    | Ret st w' => Ret (allCabecalhos st) w'
    | Diverge => Diverge
    | Throw error w' with lt_dec retryCount (MAX_RETRIES - 1) => {
        | right _ => Throw (giveUp retryCount error) w'
        | left _ =>
            if isTransient error then
              match sleep (RETRY_DELAY * (Z.of_nat retryCount + 1)) w' with
              | Ret _ w'' =>
                  if isAuthError error then
                    match obterToken idSistema w'' with
                    | Ret novoToken w3 =>
                        buscarCabecalhoNotaSankhya fuel idSistema novoToken (retryCount + 1) w3
                    | Throw e w3 => Throw e w3
                    | Diverge => Diverge
                    end
                  else buscarCabecalhoNotaSankhya fuel idSistema bearerToken (retryCount + 1) w''
              | Throw e w'' => Throw e w''
              | Diverge => Diverge
              end
            else Throw (giveUp retryCount error) w' } }.
Proof.
  all: unfold MAX_RETRIES in *; lia.
Qed.

(** *** The store connection *)

(** A call to the store or to the log sink: it throws when the
    environment says so, and otherwise acts on the world. *)
Definition dbCall {A} (op : Op) (f : World -> A * World) : M A :=
  fun w =>
    match fault env op (tick w) with
    | Some e => Throw e (step [] w)
    | None => let (a, w') := f (step [] w) in Ret a w'
    end.

(** [getOracleConnection()]: the new session sees the committed rows. *)
Definition getOracleConnection : M unit :=
  dbCall OpConnect (fun w => (tt, setWorking (committed w) w)).

Definition commit : M unit :=
  dbCall OpCommit (fun w => (tt, setCommitted (working w) w)).

Definition rollback : M unit :=
  dbCall OpRollback (fun w => (tt, setWorking (committed w) w)).

Definition close : M unit :=
  dbCall OpClose (fun w => (tt, setWorking (committed w) w)).

(** [salvarLogSincronizacao(...)], import included. *)
Definition salvarLogSincronizacao : M unit :=
  dbCall OpLog (fun w => (tt, w)).

(** [try { m } catch (e) { console.error(...) }] *)
Definition quietly (m : M unit) : M unit := tryCatch m (fun _ => ret tt).

(** ** The reconciliation *)

Definition isS (f : Flag) : bool := match f with FlagS => true | FlagN => false end.

(** The rows an [UPDATE ... WHERE ID_SISTEMA = :idSistema AND SANKHYA_ATUAL = 'S'] hits. *)
Definition stale (idSistema : Z) (k : Z * Z) (r : MirrorRow) : bool :=
  (k.1 =? idSistema) && isS (SANKHYA_ATUAL r).

Definition markStale (ts : Z) (r : MirrorRow) : MirrorRow :=
  mkRow (rCODTIPOPER r) (rCODTIPVENDA r) (rCODPARC r) (rCODVEND r) (rVLRNOTA r)
        (rDTNEG r) (rTIPMOV r) FlagN ts (DT_CRIACAO r).

(** [marcarTodosComoNaoAtuais]: one bulk statement; the result is
    [result.rowsAffected || 0]. *)
Definition marcarTodosComoNaoAtuais (idSistema : Z) : M nat :=
  dbCall OpExecute (fun w =>
    let ts := now env (tick w) in
    (size (filter (fun kr => stale idSistema kr.1 kr.2 = true) (working w)),
     setWorking
       (map_imap (fun k r => Some (if stale idSistema k r then markStale ts r else r))
                 (working w)) w)).

(** Modelled from the spec: the record identifier is numeric and, with
    the tenant, the key of the mirror table; a bound value that is not a
    number matches no row and cannot be stored. *)
Definition keyOf (nunota : JsVal) : option Z :=
  match nunota with
  | JNum n => Some n
  | _ => None
  end.

(** [null] and [undefined] are both bound as NULL. *)
Definition toDb (v : JsVal) : JsVal :=
  match v with
  | JUndefined => JNull
  | _ => v
  end.

(** The bind values of the two statements. *)
Record Binds : Type := mkBinds {
  codtipoper : JsVal;
  codtipvenda : JsVal;
  codparc : JsVal;
  codvend : JsVal;
  vlrnota : JsVal;
  dtneg : option JsDate;
  tipmov : JsVal
}.

Definition updateBinds (cabecalho : CabecalhoNota) : Binds :=
  {| codtipoper := CODTIPOPER cabecalho;
     codtipvenda := orNull (CODTIPVENDA cabecalho);
     codparc := CODPARC cabecalho;
     codvend := orNull (CODVEND cabecalho);
     vlrnota := orNull (VLRNOTA cabecalho);
     dtneg := converterDataParaOracle (DTNEG cabecalho);
     tipmov := TIPMOV cabecalho |}.

Definition insertBinds (cabecalho : CabecalhoNota) : Binds :=
  {| codtipoper := orNull (CODTIPOPER cabecalho);
     codtipvenda := orNull (CODTIPVENDA cabecalho);
     codparc := orNull (CODPARC cabecalho);
     codvend := orNull (CODVEND cabecalho);
     vlrnota := orNull (VLRNOTA cabecalho);
     dtneg := converterDataParaOracle (DTNEG cabecalho);
     tipmov := orNull (TIPMOV cabecalho) |}.

(** The row an [UPDATE ... SET ..., SANKHYA_ATUAL = 'S', DT_ULT_CARGA =
    CURRENT_TIMESTAMP] leaves: the creation time is kept. *)
Definition updatedRow (b : Binds) (ts : Z) (old : MirrorRow) : MirrorRow :=
  mkRow (toDb (codtipoper b)) (toDb (codtipvenda b)) (toDb (codparc b)) (toDb (codvend b))
        (toDb (vlrnota b)) (dtneg b) (toDb (tipmov b)) FlagS ts (DT_CRIACAO old).

Definition insertedRow (b : Binds) (ts : Z) : MirrorRow :=
  mkRow (toDb (codtipoper b)) (toDb (codtipvenda b)) (toDb (codparc b)) (toDb (codvend b))
        (toDb (vlrnota b)) (dtneg b) (toDb (tipmov b)) FlagS ts ts.

(** The count selected [WHERE ID_SISTEMA = :idSistema AND NUNOTA = :nunota]. *)
Definition selectCount (idSistema : Z) (nunota : JsVal) : M nat :=
  dbCall OpExecute (fun w =>
    (match keyOf nunota with
     | Some n => match working w !! (idSistema, n) with Some _ => 1%nat | None => 0%nat end
     | None => 0%nat
     end, w)).

(** [UPDATE AS_CABECALHO_NOTA SET ... WHERE ID_SISTEMA = :idSistema AND NUNOTA = :nunota] *)
Definition updateRow (idSistema : Z) (nunota : JsVal) (b : Binds) : M unit :=
  dbCall OpExecute (fun w =>
    (tt, match keyOf nunota with
         | Some n => setWorking (alter (updatedRow b (now env (tick w))) (idSistema, n) (working w)) w
         | None => w
         end)).

(** The error of the store for a key that is not a number. *)
Definition refusedKey (nunota : JsVal) : JsError :=
  match nunota with
  | JUndefined | JNull => newError "ORA-01400: cannot insert NULL into NUNOTA"
  | _ => newError "ORA-01722: invalid number"
  end.

(** [INSERT INTO AS_CABECALHO_NOTA ...]: the key must be a number and new. *)
Definition insertRow (idSistema : Z) (nunota : JsVal) (b : Binds) : M unit :=
  fun w =>
    match fault env OpExecute (tick w) with
    | Some e => Throw e (step [] w)
    | None =>
        match keyOf nunota with
        | None => Throw (refusedKey nunota) (step [] w)
        | Some n =>
            match working w !! (idSistema, n) with
            | Some _ => Throw (newError "ORA-00001: unique constraint violated") (step [] w)
            | None =>
                Ret tt (setWorking (<[(idSistema, n) := insertedRow b (now env (tick w))]> (working w))
                                   (step [] w))
            end
        end
    end.

Record Contagem : Type := mkContagem { inseridos : nat; atualizados : nat }.

Definition BATCH_SIZE : nat := 100.

(** The body of [for (const cabecalho of batch)]: the [try] and its
    [catch], which reports the record and goes on. *)
Definition processRecord (idSistema : Z) (cabecalho : CabecalhoNota) (c : Contagem) : M Contagem :=
  tryCatch
    (let* count := selectCount idSistema (NUNOTA cabecalho) in
     let exists_ := (0 <? count)%nat in
     if exists_ then
       updateRow idSistema (NUNOTA cabecalho) (updateBinds cabecalho) ;;
       ret (mkContagem (inseridos c) (S (atualizados c)))
     else
       insertRow idSistema (NUNOTA cabecalho) (insertBinds cabecalho) ;;
       ret (mkContagem (S (inseridos c)) (atualizados c)))
    (fun error => log (EvRecordError (NUNOTA cabecalho)) ;; ret c).

Fixpoint processBatch (idSistema : Z) (batch : list CabecalhoNota) (c : Contagem) : M Contagem :=
  match batch with
  | [] => ret c
  | cabecalho :: rest =>
      let* c' := processRecord idSistema cabecalho c in
      processBatch idSistema rest c'
  end.

(** [cabecalhos.slice(i, j)] *)
Definition slice {A} (i j : nat) (l : list A) : list A := take (j - i) (drop i l).

(** [for (let i = 0; i < cabecalhos.length; i += BATCH_SIZE)], from [i] on. *)
Equations? upsertFrom (idSistema : Z) (cabecalhos : list CabecalhoNota) (i : nat)
    (c : Contagem) (w : World) : Outcome Contagem
    by wf (length cabecalhos - i)%nat lt :=
  upsertFrom idSistema cabecalhos i c w with lt_dec i (length cabecalhos) => {
    | right _ => Ret c w
    | left _ =>
        match (let* c' := processBatch idSistema (slice i (i + BATCH_SIZE) cabecalhos) c in
               commit ;; ret c') w with
        | Ret c' w' => upsertFrom idSistema cabecalhos (i + BATCH_SIZE) c' w'
        | Throw e w' => Throw e w'
        | Diverge => Diverge
        end }.
Proof.
  unfold BATCH_SIZE. lia.
Qed.

Definition upsertCabecalhoNota (idSistema : Z) (cabecalhos : list CabecalhoNota) : M Contagem :=
  upsertFrom idSistema cabecalhos 0 (mkContagem 0 0).

(** ** The orchestration *)

Definition getNow : M Z := fun w => Ret (now env (tick w)) w.

(** The [try] block up to the assignment of [connection]. *)
Definition fetchAndConnect (fuel : nat) (idSistema : Z) : M (list CabecalhoNota) :=
  let* bearerToken := obterToken idSistema in
  let* cabecalhos := buscarCabecalhoNotaSankhya fuel idSistema bearerToken 0 in
  getOracleConnection ;;
  ret cabecalhos.

(** The rest of the [try] block. *)
Definition reconcile (idSistema : Z) (empresaNome : string) (dataInicio : Z)
    (cabecalhos : list CabecalhoNota) : M SyncResult :=
  let* registrosDeletados := marcarTodosComoNaoAtuais idSistema in
  let* c := upsertCabecalhoNota idSistema cabecalhos in
  commit ;;
  let* dataFim := getNow in
  quietly salvarLogSincronizacao ;;
  ret {| success := true;
         idSistema := idSistema;
         empresa := empresaNome;
         totalRegistros := length cabecalhos;
         registrosInseridos := inseridos c;
         registrosAtualizados := atualizados c;
         registrosDeletados := registrosDeletados;
         dataInicio := dataInicio;
         dataFim := dataFim;
         duracao := dataFim - dataInicio;
         erro := None |}.

(** The [catch (error)] block; [connection] tells whether the variable
    was assigned when the error was thrown. *)
Definition onFailure (connection : bool) (idSistema : Z) (empresaNome : string)
    (dataInicio : Z) (error : JsError) : M SyncResult :=
  (if connection then quietly rollback else ret tt) ;;
  let* dataFim := getNow in
  quietly salvarLogSincronizacao ;;
  ret {| success := false;
         idSistema := idSistema;
         empresa := empresaNome;
         totalRegistros := 0;
         registrosInseridos := 0;
         registrosAtualizados := 0;
         registrosDeletados := 0;
         dataInicio := dataInicio;
         dataFim := dataFim;
         duracao := dataFim - dataInicio;
         erro := message error |}.

Definition attempt {A} (m : M A) : M (JsError + A) :=
  fun w =>
    match m w with
    | Ret a w' => Ret (inr a) w'
    | Throw e w' => Ret (inl e) w'
    | Diverge => Diverge
    end.

Definition sincronizarCabecalhoNotaPorEmpresa (fuel : nat) (idSistema : Z)
    (empresaNome : string) : M SyncResult :=
  let* dataInicio := getNow in
  let* got := attempt (fetchAndConnect fuel idSistema) in
  match got with
  | inl error => onFailure false idSistema empresaNome dataInicio error
  | inr cabecalhos =>
      tryFinally
        (tryCatch (reconcile idSistema empresaNome dataInicio cabecalhos)
                  (onFailure true idSistema empresaNome dataInicio))
        (quietly close)
  end.

(** [SELECT ID_EMPRESA, EMPRESA FROM AD_CONTRATOS WHERE ATIVO = 'S' ORDER BY EMPRESA] *)
Definition consultarEmpresas : M (list (Z * string)) :=
  dbCall OpExecute (fun w => (empresasAtivas env (tick w), w)).

(** [for (const empresa of empresas)] *)
Fixpoint forEmpresas (fuel : nat) (empresas : list (Z * string)) (resultados : list SyncResult)
    : M (list SyncResult) :=
  match empresas with
  | [] => ret resultados
  | empresa :: rest =>
      let* resultado := sincronizarCabecalhoNotaPorEmpresa fuel empresa.1 empresa.2 in
      sleep 2000 ;;
      forEmpresas fuel rest (resultados ++ [resultado])%list
  end.

(** The [catch] rethrows; the [finally] closes the connection when the
    variable still holds it. *)
Definition sincronizarTodasEmpresas (fuel : nat) : M (list SyncResult) :=
  let* conn := attempt getOracleConnection in
  match conn with
  | inl error => throw error
  | inr _ =>
      let* rows := attempt (let* result := consultarEmpresas in close ;; ret result) in
      match rows with
      | inl error => quietly close ;; throw error
      | inr empresas => forEmpresas fuel empresas []
      end
  end.

End Service.

(** * Vocabulary of the properties

    What the statements below speak of: readings of a response and of a
    trace, assumptions on the collaborators, the rows of a tenant, and the
    scenarios on which the properties are exercised. *)

Definition urlOf (isSandbox : bool) : string := (baseUrl isSandbox ++ servicePath)%string.

(** The world after the contract lookup and the page request of one turn. *)
Definition afterPost (isSandbox : bool) (st : LoopState) (w : World) : World :=
  step [EvPost (urlOf isSandbox) (currentToken st) (currentPage st)] (step [] w).

(** The records of a page, and its indicator, as the loop reads them. *)
Definition pageRecords (response : Response) : list CabecalhoNota :=
  match entityOf response with
  | Some entities =>
      match metadata entities with
      | Some fieldNames => map (mapEntity fieldNames) (entityArray (entity entities))
      | None => []
      end
  | None => []
  end.

Definition moreFlag (response : Response) : bool :=
  match entityOf response with
  | Some entities => isTrue (hasMoreResult entities)
  | None => false
  end.

(** A payload whose entities come with their field list. *)
Definition wellFormed (response : Response) : Prop :=
  forall entities, entityOf response = Some entities -> metadata entities <> None.

Definition isToken (ev : Event) : bool :=
  match ev with EvToken _ => true | _ => false end.

(** Forced renewals recorded in a trace. *)
Definition renewals (t : list Event) : nat := length (List.filter isToken t).

(** The request numbered [k] is refused with a 401 or a 403, whatever it
    asks for. *)
Definition authFailsAt (env : Env) (k : nat) : Prop :=
  forall url tok p, exists e, axiosPost env k url tok p = inl e /\ isAuthError e = true.

Definition renewalsSucceed (env : Env) : Prop :=
  forall k idS, exists t, tokenSupplier env k idS = inr t.

Definition contractsActive (env : Env) : Prop :=
  forall k, exists isSandbox, contratoAtivo env k = Some isSandbox.

(** [Turns env idS n st w st' w']: [n] turns of the page loop lead from
    state [st] in world [w] to state [st'] in world [w']. *)
Inductive Turns (env : Env) (idS : Z) : nat -> LoopState -> World -> LoopState -> World -> Prop :=
  | Turns_O st w : Turns env idS 0 st w st w
  | Turns_S n st w st1 w1 st' w' :
      hasMoreData st = true ->
      tryCatch (tryPage env st) (onPageError env idS st) w = Ret st1 w1 ->
      Turns env idS n st1 w1 st' w' ->
      Turns env idS (S n) st w st' w'.

(** The answer of a remote that holds [pages]: page [p] with the field
    list, and the indicator set while a page follows. *)
Definition pageOf (pages : list (list RawEntity)) (fieldNames : list string) (p : nat) : Response :=
  Some (mkEntities (ManyEntities (default [] (pages !! p))) (Some fieldNames)
                   (JBool (S p <? length pages)%nat)).

(** A remote that holds [pages], may refuse a request with a 401/403, and
    refuses none from call [T] on. *)
Definition servesPages (env : Env) (pages : list (list RawEntity)) (fieldNames : list string)
    (T : nat) : Prop :=
  (forall k url tok p,
     axiosPost env k url tok p = inr (pageOf pages fieldNames p)
     \/ exists e, axiosPost env k url tok p = inl e /\ isAuthError e = true)
  /\ (forall k url tok p, (T <= k)%nat -> axiosPost env k url tok p = inr (pageOf pages fieldNames p)).

Definition isAttempt (ev : Event) : bool :=
  match ev with EvAttempt _ => true | _ => false end.

(** Attempts opened in a trace, and the pauses taken. *)
Definition attempts (t : list Event) : nat := length (List.filter isAttempt t).

Definition sleeps (t : list Event) : list Z :=
  omap (fun ev => match ev with EvSleep ms => Some ms | _ => None end) t.

Definition worldOf {A} (o : Outcome A) : option World :=
  match o with
  | Ret _ w | Throw _ w => Some w
  | Diverge => None
  end.

(** Every request fails with an error of the retried class that is not a
    401/403. *)
Definition transientAlways (env : Env) : Prop :=
  forall k url tok p, exists e,
    axiosPost env k url tok p = inl e /\ isTransient e = true /\ isAuthError e = false.

(** Events that a turn of the page loop records: none opens an attempt. *)
Definition quietTrace (w w' : World) : Prop :=
  (exists evs, trace w' = (trace w ++ evs)%list /\ attempts evs = 0%nat)
  /\ committed w' = committed w /\ working w' = working w.

(** A computation that opens no attempt. *)
Definition quietM {A} (m : M A) : Prop :=
  forall w, match m w with
            | Ret _ w' | Throw _ w' => quietTrace w w'
            | Diverge => True
            end.

(** The year, month and day of a date text as the specification words
    them: the separator decides the format, what follows the first space
    is dropped, and the pieces are read in the order of the format. *)
Definition dateComponents (s : string) : option (option Z * option Z * option Z) :=
  let t := Str.trim s in
  let datePart := hd EmptyString (Str.split " " t) in
  if Str.includes "-" t then
    let p := Str.split "-" datePart in Some (nthNumber p 0, nthNumber p 1, nthNumber p 2)
  else if Str.includes "/" t then
    let p := Str.split "/" datePart in Some (nthNumber p 2, nthNumber p 1, nthNumber p 0)
  else None.

(** No white space in a text. *)
Fixpoint blankFree (s : string) : bool :=
  match s with
  | EmptyString => true
  | String c r => negb (Str.isSpace c) && blankFree r
  end.

Fixpoint occurs (c : ascii) (s : string) : bool :=
  match s with
  | EmptyString => false
  | String d r => Ascii.eqb c d || occurs c r
  end.

(** Two values that the expression [v || null] does not tell apart. *)
Definition sameOrFalsy (a b : JsVal) : Prop :=
  a = b \/ (truthy a = false /\ truthy b = false).

Definition isRecordError (ev : Event) : bool :=
  match ev with EvRecordError _ => true | _ => false end.

(** Records that the upsert reported and skipped. *)
Definition skipped (t : list Event) : nat := length (List.filter isRecordError t).

(** The row of tenant [idS] with identifier [k] is flagged 'S' / 'N'. *)
Definition activeAt (s : Store) (idS k : Z) : Prop :=
  exists r, s !! (idS, k) = Some r /\ SANKHYA_ATUAL r = FlagS.

Definition inactiveAt (s : Store) (idS k : Z) : Prop :=
  exists r, s !! (idS, k) = Some r /\ SANKHYA_ATUAL r = FlagN.

(** The record identifiers of a snapshot. *)
Definition keysOf (cabecalhos : list CabecalhoNota) : list Z :=
  omap (fun c => keyOf (NUNOTA c)) cabecalhos.

(** What one record did. *)
Inductive RecordEffect (idS : Z) (c : CabecalhoNota) (n : Contagem) (w : World)
    : Contagem -> World -> Prop :=
  | RecInserted k ts w' :
      keyOf (NUNOTA c) = Some k ->
      working w !! (idS, k) = None ->
      working w' = <[(idS, k) := insertedRow (insertBinds c) ts]> (working w) ->
      committed w' = committed w ->
      skipped (trace w') = skipped (trace w) ->
      RecordEffect idS c n w (mkContagem (S (inseridos n)) (atualizados n)) w'
  | RecUpdated k ts old w' :
      keyOf (NUNOTA c) = Some k ->
      working w !! (idS, k) = Some old ->
      working w' = <[(idS, k) := updatedRow (updateBinds c) ts old]> (working w) ->
      committed w' = committed w ->
      skipped (trace w') = skipped (trace w) ->
      RecordEffect idS c n w (mkContagem (inseridos n) (S (atualizados n))) w'
  | RecSkipped w' :
      working w' = working w ->
      committed w' = committed w ->
      skipped (trace w') = S (skipped (trace w)) ->
      RecordEffect idS c n w n w'.

(** The rows after the stale-marking of tenant [idS] at time [ts]. *)
Definition staleMarked (idS ts : Z) (s : Store) : Store :=
  map_imap (fun k r => Some (if stale idS k r then markStale ts r else r)) s.

(** The world after [marcarTodosComoNaoAtuais]. *)
Definition afterMark (env : Env) (idS : Z) (w : World) : World :=
  setWorking (staleMarked idS (now env (S (tick w))) (working w)) (step [] w).

(** The invariant of the upsert after a stale-marking of the rows [s0]:
    active rows belong to records already processed; if no record was
    skipped, all of them are active; no row disappears. *)
Definition reconciled (idS : Z) (cs : list CabecalhoNota) (s0 : Store) (k : nat)
    (n : Contagem) (w : World) : Prop :=
  (forall j, activeAt (working w) idS j -> j ∈ keysOf (take k cs))
  /\ (inseridos n + atualizados n <= k)%nat
  /\ ((inseridos n + atualizados n = k)%nat ->
      Forall (fun c => exists j, keyOf (NUNOTA c) = Some j /\ activeAt (working w) idS j)
             (take k cs))
  /\ (forall key, is_Some (s0 !! key) -> is_Some (working w !! key)).

#[global] Instance Flag_eq_dec : EqDecision Flag.
Proof. solve_decision. Defined.

(** The number of rows of tenant [idS] flagged 'S'. *)
Definition activeCount (s : Store) (idS : Z) : nat :=
  size (filter (fun kr : Z * Z * MirrorRow => kr.1.1 = idS /\ SANKHYA_ATUAL kr.2 = FlagS) s).

(** No connection, statement or commit fails. *)
Definition storeSound (env : Env) : Prop :=
  forall j, fault env OpConnect j = None
            /\ fault env OpExecute j = None
            /\ fault env OpCommit j = None.

(** From any state the credential is supplied and the retrieval returns
    the snapshot [snap]. *)
Definition retrieves (env : Env) (fuel : nat) (idS : Z) (snap : list CabecalhoNota) : Prop :=
  forall w, exists tok w1 w2,
    obterToken env idS w = Ret tok w1
    /\ buscarCabecalhoNotaSankhya env fuel idS tok 0 w1 = Ret snap w2.

Definition keyed (c : CabecalhoNota) : Prop := is_Some (keyOf (NUNOTA c)).

(** The invariant of an upsert in which nothing fails: every record is
    counted, and none is inserted when the rows were all there. *)
Definition keyedRun (idS : Z) (snap : list CabecalhoNota) (s0 : Store) (k : nat)
    (n : Contagem) (w : World) : Prop :=
  reconciled idS snap s0 k n w
  /\ (inseridos n + atualizados n = k)%nat
  /\ ((forall j, j ∈ keysOf snap -> is_Some (s0 !! (idS, j))) -> inseridos n = 0%nat).

(** * The statistics: [obterEstatisticasSincronizacao]

    One row per tenant that has rows in the mirror.  The aggregates
    [SUM(CASE WHEN SANKHYA_ATUAL = f THEN 1 ELSE 0 END)] are the numbers
    of rows of the group with flag [f].  The query has no ORDER BY: the
    order of the groups is not fixed by the source, the embedding lists
    them in the order of [elements]. *)

Record Estatistica : Type := mkEstatistica {
  ID_SISTEMA : Z;
  TOTAL_REGISTROS : nat;
  REGISTROS_ATIVOS : nat;
  REGISTROS_DELETADOS : nat;
  ULTIMA_SINCRONIZACAO : Z
}.

(** The group of tenant [idS], and its rows with flag [f]. *)
Definition doSistema (idS : Z) (s : Store) : Store :=
  filter (fun kr : Z * Z * MirrorRow => kr.1.1 = idS) s.

Definition comFlag (f : Flag) (s : Store) : Store :=
  filter (fun kr : Z * Z * MirrorRow => SANKHYA_ATUAL kr.2 = f) s.

(** [MAX] over a group, which is never empty. *)
Definition maxOf (l : list Z) : Z :=
  match l with
  | [] => 0
  | x :: r => foldr Z.max x r
  end.

Definition agregar (s : Store) (idS : Z) : Estatistica :=
  let grupo := doSistema idS s in
  mkEstatistica idS (size grupo) (size (comFlag FlagS grupo)) (size (comFlag FlagN grupo))
                (maxOf ((fun kr : Z * Z * MirrorRow => DT_ULT_CARGA kr.2) <$> map_to_list grupo)).

(** [GROUP BY ID_SISTEMA]: the tenants that have rows. *)
Definition sistemas (s : Store) : list Z :=
  elements (set_map (D := gset Z) fst (dom s)).

(** The two queries: with [WHERE ID_SISTEMA = :idSistema], and without. *)
Definition consultarEstatisticas (filtro : option Z) (s : Store) : list Estatistica :=
  agregar s <$> match filtro with
                | Some idS => filter (fun t => t = idS) (sistemas s)
                | None => sistemas s
                end.

(** [idSistema ? ... : ...]: the filter is applied for a truthy number;
    [undefined], NaN (both [None]) and 0 select the query over all
    tenants. *)
Definition filtroDe (idSistema : option Z) : option Z :=
  if numFalsy idSistema then None else idSistema.

Section Statistics.

Variable env : Env.

(** The [catch] rethrows; the [finally] closes the connection. *)
Definition obterEstatisticasSincronizacao (idSistema : option Z) : M (list Estatistica) :=
  let* conn := attempt (getOracleConnection env) in
  match conn with
  | inl error => throw error
  | inr _ =>
      tryFinally
        (dbCall env OpExecute
           (fun w => (consultarEstatisticas (filtroDe idSistema) (working w), w)))
        (quietly (close env))
  end.

End Statistics.

(** * The route of the statistics: [GET] *)

Module Num.

Definition hexDigitOf (c : ascii) : option Z :=
  let n := nat_of_ascii c in
  if ((48 <=? n) && (n <=? 57))%nat then Some (Z.of_nat n - 48)
  else if ((65 <=? n) && (n <=? 70))%nat then Some (Z.of_nat n - 55)
  else if ((97 <=? n) && (n <=? 102))%nat then Some (Z.of_nat n - 87)
  else None.

(** The value of the longest prefix of digits; [acc] is [None] until a
    digit has been read. *)
Fixpoint leadingDigits (digit : ascii -> option Z) (radix : Z) (acc : option Z) (s : string)
    : option Z :=
  match s with
  | EmptyString => acc
  | String c r =>
      match digit c with
      | Some d => leadingDigits digit radix (Some (radix * default 0 acc + d)) r
      | None => acc
      end
  end.

(** [parseInt(s)]: leading white space is dropped, a sign is read, a
    prefix 0x or 0X selects radix 16, and the longest prefix of digits is
    the value; [None] stands for NaN.  The value is exact, as it is in
    JavaScript up to 2^53. *)
Definition parseInt (s : string) : option Z :=
  let t := Str.trimStart s in
  let '(negative, u) :=
    match t with
    | String "-" r => (true, r)
    | String "+" r => (false, r)
    | _ => (false, t)
    end in
  let value :=
    match u with
    | String "0" (String x r) =>
        if Ascii.eqb x "x" || Ascii.eqb x "X" then leadingDigits hexDigitOf 16 None r
        else leadingDigits Str.digitOf 10 None u
    | _ => leadingDigits Str.digitOf 10 None u
    end in
  (if negative then Z.opp else id) <$> value.

End Num.

(** The body and the status of a [NextResponse.json]. *)
Inductive Corpo : Type :=
  | CorpoEstatisticas (estatisticas : list Estatistica)
  | CorpoErro (error : string).

Record Resposta : Type := mkResposta { statusCode : Z; corpo : Corpo }.

(** [error.message || fallback] *)
Definition messageOr (fallback : string) (error : JsError) : string :=
  match message error with
  | Some m => if String.eqb m "" then fallback else m
  | None => fallback
  end.

(** [idSistemaParam ? parseInt(idSistemaParam) : undefined], for the
    result of [searchParams.get]. *)
Definition idSistemaOf (idSistemaParam : option string) : option Z :=
  match idSistemaParam with
  | Some s => if truthy (JStr s) then Num.parseInt s else None
  | None => None
  end.

Definition GET (env : Env) (idSistemaParam : option string) : M Resposta :=
  tryCatch
    (let idSistema := idSistemaOf idSistemaParam in
     let* estatisticas := obterEstatisticasSincronizacao env idSistema in
     ret (mkResposta 200 (CorpoEstatisticas estatisticas)))
    (fun error =>
       ret (mkResposta 500 (CorpoErro (messageOr "Erro ao obter estatísticas" error)))).

(** * Further vocabulary *)

(** The values that both statements bind the same way, as a row holds
    them for record [c]. *)
Definition carries (c : CabecalhoNota) (row : MirrorRow) : Prop :=
  rCODTIPVENDA row = orNull (CODTIPVENDA c)
  /\ rCODVEND row = orNull (CODVEND c)
  /\ rVLRNOTA row = orNull (VLRNOTA c)
  /\ rDTNEG row = converterDataParaOracle (DTNEG c).

(** From call [T] on the remote answers every request with the page asked
    for; what it did before is left open. *)
Definition servesFrom (env : Env) (pages : list (list RawEntity)) (fieldNames : list string)
    (T : nat) : Prop :=
  forall k url tok p, (T <= k)%nat -> axiosPost env k url tok p = inr (pageOf pages fieldNames p).

(** Every answer of the remote lacks [entities.entity]: no record, or a
    body of another shape. *)
Definition answersWithoutEntity (env : Env) : Prop :=
  forall k url tok p, exists response,
    axiosPost env k url tok p = inr response /\ entityOf response = None.

(** The requests for the pages from [p] up to [n], each but the last
    followed by the pause of 500 ms. *)
Definition pageRequests (url tok : string) (p n : nat) : list Event :=
  flat_map (fun q => EvPost url tok q :: (if (S q <? n)%nat then [EvSleep 500] else []))
           (seq p (n - p)).

(** The environment [env] with the failures of the log sink replaced by
    [logFault]. *)
Definition withLogFaults (env : Env) (logFault : nat -> option JsError) : Env :=
  mkEnv (contratoAtivo env) (axiosPost env) (tokenSupplier env)
        (fun op k => match op with OpLog => logFault k | _ => fault env op k end)
        (empresasAtivas env) (now env).

(** The names of the properties of [interface CabecalhoNota]. *)
Definition interfaceFields : list string :=
  ["NUNOTA"; "CODTIPOPER"; "CODTIPVENDA"; "CODPARC"; "CODVEND"; "VLRNOTA"; "DTNEG"; "TIPMOV"].

(** [cabecalho[name]] for a property of the interface. *)
Definition getField (name : string) (o : CabecalhoNota) : JsVal :=
  if String.eqb name "NUNOTA" then NUNOTA o
  else if String.eqb name "CODTIPOPER" then CODTIPOPER o
  else if String.eqb name "CODTIPVENDA" then CODTIPVENDA o
  else if String.eqb name "CODPARC" then CODPARC o
  else if String.eqb name "CODVEND" then CODVEND o
  else if String.eqb name "VLRNOTA" then VLRNOTA o
  else if String.eqb name "DTNEG" then DTNEG o
  else if String.eqb name "TIPMOV" then TIPMOV o
  else JUndefined.

(** The cell [rawEntity.f<i>.$], [undefined] when the entity lacks it. *)
Definition cellOf (rawEntity : RawEntity) (i : nat) : option JsVal :=
  match nth_error rawEntity i with
  | Some (Some v) => Some v
  | _ => None
  end.

(** ** The calendar *)

Definition isLeap (y : Z) : bool :=
  ((y mod 4 =? 0) && negb (y mod 100 =? 0)) || (y mod 400 =? 0).

Definition daysIn (y m : Z) : Z :=
  if m =? 2 then (if isLeap y then 29 else 28)
  else if (m =? 4) || (m =? 6) || (m =? 9) || (m =? 11) then 30
  else 31.

(** The date that day [d] of month [m] names; a day past the end of the
    month is counted on into the next month. *)
Definition calendarDate (y m d : Z) : JsDate :=
  if d <=? daysIn y m then mkDate y m d else mkDate y (m + 1) (d - daysIn y m).

(** The last day of a year counted from March exists in leap years only:
    [yoe] is the year of the era, [doy] the day of that year. *)
Definition leapDay (yoe doy : Z) : Prop :=
  doy = 365 -> yoe mod 4 = 3 /\ (yoe mod 100 <> 99 \/ yoe = 399).

(** ** Scenarios *)

Module Demo.

Definition fields : list string := ["NUNOTA"; "CODTIPOPER"; "VLRNOTA"; "DTNEG"; "TIPMOV"].

(** The remote entity of note [n]. *)
Definition nota (n : Z) : RawEntity :=
  [Some (JNum n); Some (JNum 1100); Some (JNum (100 * n)); Some (JStr "15/03/2024"); Some (JStr "V")].

(** Four pages of two notes each. *)
Definition pages : list (list RawEntity) :=
  [[nota 1; nota 2]; [nota 3; nota 4]; [nota 5; nota 6]; [nota 7; nota 8]].

Definition snapshot : list CabecalhoNota := map (mapEntity fields) (concat pages).

Definition unauthorized : JsError :=
  mkError (Some "ERR_BAD_REQUEST") (Some "Request failed with status code 401") (Some 401).

Definition connectionReset : JsError :=
  mkError (Some "ECONNRESET") (Some "read ECONNRESET") None.

Definition timedOut : JsError :=
  mkError (Some "ECONNABORTED") (Some "timeout of 60000ms exceeded") None.

Definition storeDown : JsError := newError "ORA-12541: TNS:no listener".

Definition rowRefused : JsError := newError "ORA-01438: value larger than specified precision".

Definition noFault : Op -> nat -> option JsError := fun _ _ => None.

Definition tenants : list (Z * string) := [(7, "ACME"); (8, "BETA")].

Definition remote (posts : nat -> string -> string -> nat -> JsError + Response)
    (faults : Op -> nat -> option JsError) : Env :=
  mkEnv (fun _ => Some true) posts (fun _ _ => inr "token") faults
        (fun _ => tenants) (fun k => Z.of_nat k).

(** The remote answers every request. *)
Definition steady : Env := remote (fun _ _ _ p => inr (pageOf pages fields p)) noFault.

(** The credential expires once, at the first request for page 2. *)
Definition expiry : Env :=
  remote (fun k _ _ p => if (k =? 6)%nat then inl unauthorized else inr (pageOf pages fields p))
         noFault.

(** Every request is refused with a 401. *)
Definition refused : Env := remote (fun _ _ _ _ => inl unauthorized) noFault.

(** Every request ends in a connection reset / in a timeout. *)
Definition resetting : Env := remote (fun _ _ _ _ => inl connectionReset) noFault.
Definition timingOut : Env := remote (fun _ _ _ _ => inl timedOut) noFault.

(** A first page without records whose indicator says that more follow. *)
Definition emptyButMore : Response :=
  Some (mkEntities (ManyEntities []) (Some fields) (JStr "true")).
Definition hollow : Env := remote (fun _ _ _ _ => inr emptyButMore) noFault.

(** The remote holds the single note 1; the store refuses the statement
    numbered 6, the UPDATE of that note. *)
Definition oneNote : Response :=
  Some (mkEntities (OneEntity (nota 1)) (Some fields) (JStr "false")).
Definition refusing : Env :=
  remote (fun _ _ _ _ => inr oneNote)
         (fun op k => match op with
                      | OpExecute => if (k =? 6)%nat then Some rowRefused else None
                      | _ => None
                      end).

(** The store cannot be reached. *)
Definition unreachable : Env :=
  remote (fun _ _ _ p => inr (pageOf pages fields p))
         (fun op _ => match op with OpConnect => Some storeDown | _ => None end).

Definition start : World := mkWorld 0 [] ∅ ∅.

(** The world once the first credential has been obtained. *)
Definition tokenObtained : World := step [EvToken 7] start.

(** A mirror that already holds note 1 of tenant 7, active. *)
Definition row1 : MirrorRow :=
  mkRow (JNum 1100) JNull JNull JNull (JNum 100) (Some (mkDate 2024 3 15)) (JStr "V") FlagS 0 0.
Definition mirrored : World := mkWorld 0 [] {[ (7, 1) := row1 ]} ∅.

(** A batch of 100 records, the last without a numeric identifier. *)
Definition plain (n : nat) : CabecalhoNota :=
  mkCabecalho (JNum (Z.of_nat n)) (JNum 1100) JUndefined (JNum 5) JUndefined (JNum 10)
              (JStr "2024-03-15") (JStr "V").
Definition malformed : CabecalhoNota :=
  mkCabecalho (JStr "n/a") (JNum 1100) JUndefined (JNum 5) JUndefined (JNum 10)
              (JStr "2024-03-15") (JStr "V").
Definition batch100 : list CabecalhoNota := (map plain (seq 1 99) ++ [malformed])%list.

Definition outcomeOf (o : Outcome SyncResult) : SyncResult :=
  match o with
  | Ret r _ => r
  | _ => mkSyncResult false 0 "" 0 0 0 0 0 0 0 None
  end.

Definition finalOf {A} (o : Outcome A) : World :=
  match o with
  | Ret _ w | Throw _ w => w
  | Diverge => start
  end.

End Demo.

(** The outcome and the final world of a sync of tenant 7 on the steady
    scenario. *)
Definition steadyRun : Outcome SyncResult :=
  sincronizarCabecalhoNotaPorEmpresa Demo.steady 9 7 "ACME" Demo.start.

(** ** Further scenarios *)

Module Cases.

(** The store refuses every commit. *)
Definition commitless : Env :=
  Demo.remote (fun _ _ _ p => inr (pageOf Demo.pages Demo.fields p))
              (fun op _ => match op with OpCommit => Some Demo.storeDown | _ => None end).

(** A mirror that holds note 1 of tenant 7 and note 1 of tenant 8. *)
Definition shared : World :=
  mkWorld 0 [] {[ (7, 1) := Demo.row1; (8, 1) := Demo.row1 ]} ∅.

(** A note whose operation type is 0. *)
Definition zeroOper : CabecalhoNota :=
  mkCabecalho (JNum 1) (JNum 0) JUndefined (JNum 5) JUndefined (JNum 10)
              (JStr "2024-03-15") (JStr "V").

(** Tenant 7 synced on the steady scenario against these mirrors. *)
Definition mirroredRun : Outcome SyncResult :=
  sincronizarCabecalhoNotaPorEmpresa Demo.steady 9 7 "ACME" Demo.mirrored.
Definition sharedRun : Outcome SyncResult :=
  sincronizarCabecalhoNotaPorEmpresa Demo.steady 9 7 "ACME" shared.
Definition commitlessRun : Outcome SyncResult :=
  sincronizarCabecalhoNotaPorEmpresa commitless 9 7 "ACME" Demo.mirrored.

(** The request numbered 6, the first for page 2, times out. *)
Definition flaky : Env :=
  Demo.remote (fun k _ _ p => if (k =? 6)%nat then inl Demo.timedOut
                              else inr (pageOf Demo.pages Demo.fields p))
              Demo.noFault.

(** No contract is active. *)
Definition contractless : Env :=
  mkEnv (fun _ => None) (fun _ _ _ p => inr (pageOf Demo.pages Demo.fields p))
        (fun _ _ => inr "token") Demo.noFault (fun _ => Demo.tenants) (fun k => Z.of_nat k).

(** The remote answers with a body that has no entities. *)
Definition blank : Env := Demo.remote (fun _ _ _ _ => inr None) Demo.noFault.

(** The connection of the tenant lookup cannot be closed. *)
Definition unclosable : Env :=
  Demo.remote (fun _ _ _ p => inr (pageOf Demo.pages Demo.fields p))
              (fun op _ => match op with OpClose => Some Demo.storeDown | _ => None end).

(** One page of 101 notes. *)
Definition notas101 : list RawEntity := map (fun n => Demo.nota (Z.of_nat n)) (seq 1 101).

Definition page101 : Response :=
  Some (mkEntities (ManyEntities notas101) (Some Demo.fields) (JStr "false")).

(** The store accepts the commit numbered 205, that of the first batch,
    and refuses every later call of a commit. *)
Definition secondCommitFails : Env :=
  Demo.remote (fun _ _ _ _ => inr page101)
              (fun op k => match op with
                           | OpCommit => if (k <=? 205)%nat then None else Some Demo.storeDown
                           | _ => None
                           end).

Definition snapshot101 : list CabecalhoNota := map (mapEntity Demo.fields) notas101.

(** The session in which the reconciliation starts, and the first batch. *)
Definition connected : World :=
  Demo.finalOf (fetchAndConnect secondCommitFails 5 7 Demo.mirrored).

Definition firstBatch : Outcome Contagem :=
  processBatch secondCommitFails 7 (take BATCH_SIZE snapshot101) (mkContagem 0 0)
               (afterMark secondCommitFails 7 connected).

Definition countsOf (o : Outcome Contagem) : Contagem :=
  match o with
  | Ret n _ => n
  | _ => mkContagem 0 0
  end.

End Cases.

(** * Properties *)

(** ** Unfolding the retrieval *)

Section Retrieval.

Variable env : Env.

Lemma buscar_unfold fuel idS tok rc w :
  buscarCabecalhoNotaSankhya env fuel idS tok rc w =
  match pageLoop env fuel idS (mkLoop [] 0 true tok) (emit (EvAttempt rc) w) with
  | Ret st w' => Ret (allCabecalhos st) w'
  | Diverge => Diverge
  | Throw error w' =>
      if (rc <? MAX_RETRIES - 1)%nat && isTransient error then
        if isAuthError error then
          match obterToken env idS (emit (EvSleep (RETRY_DELAY * (Z.of_nat rc + 1))) w') with
          | Ret novoToken w3 => buscarCabecalhoNotaSankhya env fuel idS novoToken (rc + 1) w3
          | Throw e w3 => Throw e w3
          | Diverge => Diverge
          end
        else buscarCabecalhoNotaSankhya env fuel idS tok (rc + 1)
               (emit (EvSleep (RETRY_DELAY * (Z.of_nat rc + 1))) w')
      else Throw (giveUp rc error) w'
  end.
Proof.
  simp buscarCabecalhoNotaSankhya.
  destruct (pageLoop env fuel idS _ _) as [st w'|error w'|]; simpl; try reflexivity.
  change (MAX_RETRIES - 1)%nat with 2%nat.
  destruct (lt_dec rc 2) as [Hlt|Hge];
    destruct (Nat.ltb_spec rc 2) as [Hlt'|Hge']; try lia; simpl; try reflexivity.
Qed.

Lemma tryPage_response st w isSandbox response :
  contratoAtivo env (tick w) = Some isSandbox ->
  axiosPost env (S (tick w)) (urlOf isSandbox) (currentToken st) (currentPage st) = inr response ->
  wellFormed response ->
  tryPage env st w =
  let all' := (allCabecalhos st ++ pageRecords response)%list in
  if (length (pageRecords response) =? 0)%nat || negb (moreFlag response) then
    Ret (mkLoop all' (currentPage st) false (currentToken st)) (afterPost isSandbox st w)
  else
    Ret (mkLoop all' (S (currentPage st)) true (currentToken st))
        (emit (EvSleep 500) (afterPost isSandbox st w)).
Proof.
  intros Hc Hp Hwf.
  unfold tryPage, bind, buscarContratoAtivo, post. rewrite Hc. simpl.
  unfold urlOf in Hp. rewrite Hp. simpl.
  unfold pageRecords, moreFlag.
  destruct (entityOf response) as [entities|] eqn:He.
  - specialize (Hwf entities He).
    destruct (metadata entities) as [fieldNames|]; [|congruence].
    destruct (_ || _); reflexivity.
  - simpl. rewrite app_nil_r. reflexivity.
Qed.

Lemma tryPage_error st w isSandbox e :
  contratoAtivo env (tick w) = Some isSandbox ->
  axiosPost env (S (tick w)) (urlOf isSandbox) (currentToken st) (currentPage st) = inl e ->
  tryPage env st w = Throw e (afterPost isSandbox st w).
Proof.
  intros Hc Hp.
  unfold tryPage, bind, buscarContratoAtivo, post. rewrite Hc. simpl.
  unfold urlOf in Hp. rewrite Hp. reflexivity.
Qed.

(** One turn of the loop that meets a 401/403: the token is renewed and
    nothing else of the loop's state changes. *)
Lemma turn_auth idS st w isSandbox e novo :
  contratoAtivo env (tick w) = Some isSandbox ->
  axiosPost env (S (tick w)) (urlOf isSandbox) (currentToken st) (currentPage st) = inl e ->
  isAuthError e = true ->
  tokenSupplier env (S (S (tick w))) idS = inr novo ->
  tryCatch (tryPage env st) (onPageError env idS st) w =
  Ret (mkLoop (allCabecalhos st) (currentPage st) (hasMoreData st) novo)
      (emit (EvSleep 1000) (step [EvToken idS] (afterPost isSandbox st w))).
Proof.
  intros Hc Hp Ha Ht.
  unfold tryCatch. rewrite (tryPage_error _ _ _ _ Hc Hp).
  unfold onPageError. rewrite Ha. unfold bind, obterToken. simpl.
  rewrite Ht. reflexivity.
Qed.

Lemma pageLoop_S fuel idS st w :
  hasMoreData st = true ->
  pageLoop env (S fuel) idS st w =
  match tryCatch (tryPage env st) (onPageError env idS st) w with
  | Ret st' w' => pageLoop env fuel idS st' w'
  | Throw e w' => Throw e w'
  | Diverge => Diverge
  end.
Proof. intros H. simpl. rewrite H. reflexivity. Qed.

Lemma pageLoop_done fuel idS st w :
  hasMoreData st = false -> pageLoop env fuel idS st w = Ret st w.
Proof. intros H. destruct fuel; simpl; rewrite H; reflexivity. Qed.

End Retrieval.

(** ** C4: when the page loop stops *)

Section Pagination.

Variable env : Env.

(** C4.  A turn of the page loop that receives a page stops the loop
    exactly when the page holds no record or the remote indicator is not
    true; an empty page stops it whatever the indicator says, and the page
    index plays no part in the decision.  Otherwise the loop goes on with
    the next page after a pause of 500 ms. *)
Theorem pagination_stops_exactly (idS : Z) (st : LoopState) (w : World)
    (isSandbox : bool) (response : Response)
    (Hmore : hasMoreData st = true)
    (Hcontract : contratoAtivo env (tick w) = Some isSandbox)
    (Hpost : axiosPost env (S (tick w)) (urlOf isSandbox) (currentToken st) (currentPage st)
             = inr response)
    (Hwf : wellFormed response) :
  exists st' w',
    tryCatch (tryPage env st) (onPageError env idS st) w = Ret st' w'
    /\ allCabecalhos st' = (allCabecalhos st ++ pageRecords response)%list
    /\ (hasMoreData st' = false <-> (pageRecords response = [] \/ moreFlag response = false))
    /\ (pageRecords response = [] -> hasMoreData st' = false)
    /\ (hasMoreData st' = true -> currentPage st' = S (currentPage st))
    /\ (forall fuel,
          pageLoop env (S fuel) idS st w =
          if hasMoreData st' then pageLoop env fuel idS st' w' else Ret st' w').
Proof.
  pose proof (tryPage_response env st w isSandbox response Hcontract Hpost Hwf) as Hturn.
  cbv zeta in Hturn.
  assert (Hlen : (length (pageRecords response) =? 0)%nat = true <-> pageRecords response = []).
  { rewrite Nat.eqb_eq. destruct (pageRecords response); simpl; split; congruence. }
  destruct ((length (pageRecords response) =? 0)%nat || negb (moreFlag response)) eqn:Hstop.
  - eexists _, _. unfold tryCatch. rewrite Hturn. split; [reflexivity|]. cbn [allCabecalhos hasMoreData currentPage].
    split; [reflexivity|]. split.
    + split; [intros _|reflexivity].
      apply orb_true_iff in Hstop as [H|H]; [left; apply Hlen, H|right].
      now apply negb_true_iff in H.
    + split; [reflexivity|]. split; [discriminate|].
      intros fuel. rewrite pageLoop_S by exact Hmore.
      unfold tryCatch. rewrite Hturn. apply pageLoop_done. reflexivity.
  - eexists _, _. unfold tryCatch. rewrite Hturn. split; [reflexivity|]. cbn [allCabecalhos hasMoreData currentPage].
    apply orb_false_iff in Hstop as [Hne Hflag]. apply negb_false_iff in Hflag.
    split; [reflexivity|]. split.
    + split; [discriminate|]. intros [H|H]; [|congruence].
      apply Hlen in H. congruence.
    + split; [intros H; apply Hlen in H; congruence|].
      split; [reflexivity|].
      intros fuel. rewrite pageLoop_S by exact Hmore.
      unfold tryCatch. rewrite Hturn. reflexivity.
Qed.

End Pagination.

(** ** C6 and C3: authentication failures inside the page loop *)

Section AuthRetry.

Variable env : Env.
Hypothesis Hcontracts : contractsActive env.
Hypothesis Hrenew : renewalsSucceed env.

Lemma renewals_app t u : renewals (t ++ u) = (renewals t + renewals u)%nat.
Proof. unfold renewals. rewrite List.filter_app, length_app. reflexivity. Qed.

(** A turn that meets a 401/403 keeps the page and the records, takes
    three calls and records one renewal. *)
Lemma auth_turn idS st w :
  authFailsAt env (S (tick w)) ->
  exists novo w',
    tryCatch (tryPage env st) (onPageError env idS st) w
    = Ret (mkLoop (allCabecalhos st) (currentPage st) (hasMoreData st) novo) w'
    /\ tick w' = (tick w + 3)%nat
    /\ renewals (trace w') = S (renewals (trace w)).
Proof.
  intros Hfail.
  destruct (Hcontracts (tick w)) as [sb Hsb].
  destruct (Hfail (urlOf sb) (currentToken st) (currentPage st)) as (e & He & Ha).
  destruct (Hrenew (S (S (tick w))) idS) as [novo Hnovo].
  exists novo. eexists. split.
  - apply (turn_auth env idS st w sb e novo Hsb He Ha Hnovo).
  - split; [simpl; lia|].
    simpl. rewrite !renewals_app. change (renewals []) with 0%nat.
    change (renewals [EvPost _ _ _]) with 0%nat. change (renewals [EvToken idS]) with 1%nat.
    change (renewals [EvSleep 1000]) with 0%nat. lia.
Qed.

Lemma Turns_pageLoop idS n st w st' w' :
  Turns env idS n st w st' w' ->
  forall fuel, pageLoop env (n + fuel) idS st w = pageLoop env fuel idS st' w'.
Proof.
  induction 1 as [|n st w st1 w1 st' w' Hmore Hturn _ IH]; intros fuel; [reflexivity|].
  change (S n + fuel)%nat with (S (n + fuel)).
  rewrite pageLoop_S by exact Hmore. rewrite Hturn. apply IH.
Qed.

(** [n] refusals in a row are [n] retries of the same page. *)
Lemma auth_retries idS n : forall st w,
  hasMoreData st = true ->
  (forall j, (j < n)%nat -> authFailsAt env (tick w + 3 * j + 1)) ->
  exists novo w',
    Turns env idS n st w (mkLoop (allCabecalhos st) (currentPage st) true novo) w'
    /\ tick w' = (tick w + 3 * n)%nat
    /\ renewals (trace w') = (renewals (trace w) + n)%nat.
Proof.
  induction n as [|n IH]; intros st w Hmore Hfail.
  - exists (currentToken st), w. split; [|split; lia].
    destruct st; simpl in *. subst. constructor.
  - destruct (auth_turn idS st w) as (novo & w1 & Hturn & Htick & Hren).
    { specialize (Hfail 0%nat ltac:(lia)).
      replace (tick w + 3 * 0 + 1)%nat with (S (tick w)) in Hfail by lia. exact Hfail. }
    destruct (IH (mkLoop (allCabecalhos st) (currentPage st) (hasMoreData st) novo) w1)
      as (novo' & w' & Hloop & Htick' & Hren').
    { simpl. exact Hmore. }
    { intros j Hj. specialize (Hfail (S j) ltac:(lia)).
      replace (tick w1 + 3 * j + 1)%nat with (tick w + 3 * S j + 1)%nat by lia. exact Hfail. }
    exists novo', w'. split; [|split; lia].
    econstructor; [exact Hmore|exact Hturn|exact Hloop].
Qed.

(** When every request is refused the loop never ends. *)
Lemma auth_forever idS :
  (forall k, authFailsAt env k) ->
  forall fuel st w, hasMoreData st = true -> pageLoop env fuel idS st w = Diverge.
Proof.
  intros Hfail. induction fuel as [|fuel IH]; intros st w Hmore.
  - simpl. rewrite Hmore. reflexivity.
  - rewrite pageLoop_S by exact Hmore.
    destruct (auth_turn idS st w (Hfail _)) as (novo & w1 & Hturn & _).
    rewrite Hturn. apply IH. exact Hmore.
Qed.

End AuthRetry.

(** C6 (amended).  A 401/403 inside the page loop forces a renewal of the
    credential and a retry of the same page with the records kept, and
    nothing bounds these retries: [n] refusals in a row are answered by
    [n] turns of the loop on the same page and [n] renewals, for every
    [n], and when every request is refused the loop, and the retrieval
    with it, never returns. *)
Theorem auth_retry_is_unbounded (env : Env) (idS : Z)
    (Hcontracts : contractsActive env) (Hrenew : renewalsSucceed env) :
  (forall n st w,
     hasMoreData st = true ->
     (forall j, (j < n)%nat -> authFailsAt env (tick w + 3 * j + 1)) ->
     exists novo w',
       Turns env idS n st w (mkLoop (allCabecalhos st) (currentPage st) true novo) w'
       /\ renewals (trace w') = (renewals (trace w) + n)%nat
       /\ (forall fuel,
             pageLoop env (n + fuel) idS st w
             = pageLoop env fuel idS (mkLoop (allCabecalhos st) (currentPage st) true novo) w'))
  /\ ((forall k, authFailsAt env k) ->
      forall fuel tok w, buscarCabecalhoNotaSankhya env fuel idS tok 0 w = Diverge).
Proof.
  split.
  - intros n st w Hmore Hfail.
    destruct (auth_retries env Hcontracts Hrenew idS n st w Hmore Hfail)
      as (novo & w' & Hturns & _ & Hren).
    exists novo, w'. split; [exact Hturns|]. split; [exact Hren|].
    apply Turns_pageLoop, Hturns.
  - intros Hfail fuel tok w. rewrite buscar_unfold.
    rewrite (auth_forever env Hcontracts Hrenew idS Hfail); reflexivity.
Qed.

Section Resumable.

Variable env : Env.
Variable pages : list (list RawEntity).
Variable fieldNames : list string.
Variable T : nat.
Hypothesis Hcontracts : contractsActive env.
Hypothesis Hrenew : renewalsSucceed env.
Hypothesis Hserves : servesPages env pages fieldNames T.
Hypothesis Hfull : Forall (fun pg => pg <> []) pages.

Lemma pageOf_wellFormed p : wellFormed (pageOf pages fieldNames p).
Proof. intros entities H. inversion H. simpl. discriminate. Qed.

Lemma pageOf_records p :
  pageRecords (pageOf pages fieldNames p) = map (mapEntity fieldNames) (default [] (pages !! p)).
Proof. reflexivity. Qed.

Lemma pageOf_more p : moreFlag (pageOf pages fieldNames p) = (S p <? length pages)%nat.
Proof. reflexivity. Qed.

Lemma pageLoop_serves idS : forall fuel p acc tok w,
  (p < length pages)%nat ->
  ((T - tick w) + (length pages - p) <= fuel)%nat ->
  exists tok' w',
    pageLoop env fuel idS (mkLoop acc p true tok) w
    = Ret (mkLoop (acc ++ map (mapEntity fieldNames) (concat (drop p pages)))
                  (length pages - 1) false tok') w'.
Proof.
  induction fuel as [|fuel IH]; intros p acc tok w Hp Hfuel; [lia|].
  rewrite pageLoop_S by reflexivity.
  destruct (Hcontracts (tick w)) as [sb Hsb].
  destruct (lookup_lt_is_Some_2 pages p Hp) as [pg Hpg].
  assert (Hne : pg <> []).
  { eapply (proj1 (Forall_lookup _ _) Hfull); eauto. }
  set (st := mkLoop acc p true tok).
  destruct (proj1 Hserves (S (tick w)) (urlOf sb) tok p) as [Hok|(e & He & Ha)].
  - pose proof (tryPage_response env st w sb _ Hsb Hok (pageOf_wellFormed p)) as Hturn.
    cbv zeta in Hturn. rewrite pageOf_records, pageOf_more, Hpg in Hturn. simpl default in Hturn.
    rewrite length_map in Hturn.
    assert (Hlen : (length pg =? 0)%nat = false).
    { apply Nat.eqb_neq. destruct pg; simpl; [congruence|lia]. }
    rewrite Hlen in Hturn. simpl orb in Hturn.
    unfold tryCatch. rewrite (drop_S _ _ _ Hpg). simpl concat. rewrite map_app, app_assoc.
    destruct (Nat.ltb_spec (S p) (length pages)) as [Hlt|Hge]; simpl negb in Hturn;
      cbv iota in Hturn; rewrite Hturn.
    + destruct (IH (S p) (acc ++ map (mapEntity fieldNames) pg)%list tok
                   (emit (EvSleep 500) (afterPost sb st w))) as (tok' & w' & Hloop).
      * exact Hlt.
      * simpl. lia.
      * exists tok', w'. exact Hloop.
    + exists tok. eexists. rewrite pageLoop_done by reflexivity.
      rewrite drop_ge by lia. simpl. rewrite app_nil_r.
      replace (length pages - 1)%nat with p by lia. reflexivity.
  - assert (Hlate : (S (tick w) < T)%nat).
    { destruct (Nat.lt_ge_cases (S (tick w)) T) as [H|H]; [exact H|].
      rewrite (proj2 Hserves _ (urlOf sb) tok p H) in He. discriminate. }
    destruct (Hrenew (S (S (tick w))) idS) as [novo Hnovo].
    rewrite (turn_auth env idS st w sb e novo Hsb He Ha Hnovo).
    apply IH; [exact Hp|]. simpl. lia.
Qed.

(** Against such a remote the retrieval returns the records of all the
    pages, in order. *)
Lemma retrieval_serves idS fuel tok w :
  pages <> [] ->
  (T + length pages <= fuel)%nat ->
  exists w',
    buscarCabecalhoNotaSankhya env fuel idS tok 0 w
    = Ret (map (mapEntity fieldNames) (concat pages)) w'.
Proof.
  intros Hsome Hfuel. rewrite buscar_unfold.
  destruct (pageLoop_serves idS fuel 0%nat [] tok (emit (EvAttempt 0) w)) as (tok' & w' & Hloop).
  - destruct pages; [congruence|simpl; lia].
  - simpl. lia.
  - rewrite Hloop. exists w'. reflexivity.
Qed.

End Resumable.

(** C3.  A page request refused with a 401/403 makes the retriever renew
    the credential, wait 1000 ms and ask for the same page again with
    every record gathered so far kept; against a remote that holds
    [pages] and refuses requests only before call [T], the retrieval
    returns the records of all pages, in order, each exactly once. *)
Theorem resumable_pagination (env : Env) (pages : list (list RawEntity))
    (fieldNames : list string) (T : nat) (idS : Z)
    (Hcontracts : contractsActive env) (Hrenew : renewalsSucceed env)
    (Hserves : servesPages env pages fieldNames T)
    (Hsome : pages <> []) (Hfull : Forall (fun pg => pg <> []) pages) :
  (forall st w isSandbox e novo,
     contratoAtivo env (tick w) = Some isSandbox ->
     axiosPost env (S (tick w)) (urlOf isSandbox) (currentToken st) (currentPage st) = inl e ->
     isAuthError e = true ->
     tokenSupplier env (S (S (tick w))) idS = inr novo ->
     tryCatch (tryPage env st) (onPageError env idS st) w
     = Ret (mkLoop (allCabecalhos st) (currentPage st) (hasMoreData st) novo)
           (emit (EvSleep 1000) (step [EvToken idS] (afterPost isSandbox st w))))
  /\ (forall fuel tok w,
        (T + length pages <= fuel)%nat ->
        exists w',
          buscarCabecalhoNotaSankhya env fuel idS tok 0 w
          = Ret (map (mapEntity fieldNames) (concat pages)) w').
Proof.
  split.
  - intros st w sb e novo Hsb He Ha Hnovo. apply (turn_auth env idS st w sb e novo Hsb He Ha Hnovo).
  - intros fuel tok w Hfuel.
    apply (retrieval_serves env pages fieldNames T Hcontracts Hrenew Hserves Hfull
             idS fuel tok w Hsome Hfuel).
Qed.

(** ** C2: the outer retry layer *)

Section OuterRetry.

Variable env : Env.

Lemma attempts_app t u : attempts (t ++ u) = (attempts t + attempts u)%nat.
Proof. unfold attempts. rewrite List.filter_app, length_app. reflexivity. Qed.

Lemma sleeps_app t u : sleeps (t ++ u) = (sleeps t ++ sleeps u)%list.
Proof. unfold sleeps. apply omap_app. Qed.

Lemma quiet_refl w : quietTrace w w.
Proof. split; [|split; reflexivity]. exists []. rewrite app_nil_r. split; reflexivity. Qed.

Lemma quiet_trans w1 w2 w3 : quietTrace w1 w2 -> quietTrace w2 w3 -> quietTrace w1 w3.
Proof.
  intros ((e1 & H1 & A1) & C1 & W1) ((e2 & H2 & A2) & C2 & W2).
  split; [|split; congruence]. exists (e1 ++ e2)%list.
  rewrite H2, H1, app_assoc, attempts_app, A1, A2. split; reflexivity.
Qed.

Lemma quiet_step ev w : attempts ev = 0%nat -> quietTrace w (step ev w).
Proof. intros H. split; [|split; reflexivity]. exists ev. split; [reflexivity|exact H]. Qed.

Lemma quiet_emit ev w : isAttempt ev = false -> quietTrace w (emit ev w).
Proof.
  intros H. split; [|split; reflexivity]. exists [ev]. split; [reflexivity|].
  unfold attempts. simpl. rewrite H. reflexivity.
Qed.

Lemma quiet_attempts w w' : quietTrace w w' -> attempts (trace w') = attempts (trace w).
Proof. intros ((e & H & A) & _). rewrite H, attempts_app, A. lia. Qed.

Lemma quiet_stores w w' :
  quietTrace w w' -> committed w' = committed w /\ working w' = working w.
Proof. intros (_ & H). exact H. Qed.

Lemma quiet_ret {A} (a : A) : quietM (ret a).
Proof. intros w. apply quiet_refl. Qed.

Lemma quiet_throw {A} e : quietM (@throw A e).
Proof. intros w. apply quiet_refl. Qed.

Lemma quiet_bind {A B} (m : M A) (k : A -> M B) :
  quietM m -> (forall a, quietM (k a)) -> quietM (bind m k).
Proof.
  intros Hm Hk w. unfold bind. specialize (Hm w).
  destruct (m w) as [a w1|e w1|]; try assumption.
  specialize (Hk a w1). destruct (k a w1); try exact I; eapply quiet_trans; eassumption.
Qed.

Lemma quiet_tryCatch {A} (m : M A) (h : JsError -> M A) :
  quietM m -> (forall e, quietM (h e)) -> quietM (tryCatch m h).
Proof.
  intros Hm Hh w. unfold tryCatch. specialize (Hm w).
  destruct (m w) as [a w1|e w1|]; try assumption.
  specialize (Hh e w1). destruct (h e w1); try exact I; eapply quiet_trans; eassumption.
Qed.

Lemma quiet_sleep ms : quietM (sleep ms).
Proof. intros w. apply quiet_emit. reflexivity. Qed.

Lemma quiet_contrato : quietM (buscarContratoAtivo env).
Proof. intros w. apply quiet_step. reflexivity. Qed.

Lemma quiet_post url tok p : quietM (post env url tok p).
Proof. intros w. unfold post. destruct (axiosPost env _ _ _ _); apply quiet_step; reflexivity. Qed.

Lemma quiet_obterToken idS : quietM (obterToken env idS).
Proof. intros w. unfold obterToken. destruct (tokenSupplier env _ _); apply quiet_step; reflexivity. Qed.

Lemma turn_quiet idS st : quietM (tryCatch (tryPage env st) (onPageError env idS st)).
Proof.
  apply quiet_tryCatch.
  - unfold tryPage. apply quiet_bind; [apply quiet_contrato|]. intros [sb|]; [|apply quiet_throw].
    apply quiet_bind; [apply quiet_post|]. intros response.
    destruct (entityOf response) as [entities|]; [|apply quiet_ret].
    destruct (metadata entities); [|apply quiet_throw].
    destruct (_ || _); [apply quiet_ret|].
    apply quiet_bind; [apply quiet_sleep|]. intros _. apply quiet_ret.
  - intros e. unfold onPageError. destruct (isAuthError e); [|apply quiet_throw].
    apply quiet_bind; [apply quiet_obterToken|]. intros novo.
    apply quiet_bind; [apply quiet_sleep|]. intros _. apply quiet_ret.
Qed.

Lemma pageLoop_quiet idS : forall fuel st w,
  match pageLoop env fuel idS st w with
  | Ret _ w' | Throw _ w' => quietTrace w w'
  | Diverge => True
  end.
Proof.
  induction fuel as [|fuel IH]; intros st w; simpl.
  - destruct (hasMoreData st); simpl; [exact I|apply quiet_refl].
  - destruct (hasMoreData st); [|apply quiet_refl].
    unfold bind. pose proof (turn_quiet idS st w) as Hturn.
    destruct (tryCatch _ _ w) as [st' w1|e w1|]; try assumption.
    specialize (IH st' w1).
    destruct (pageLoop env fuel idS st' w1); try exact I; eapply quiet_trans; eassumption.
Qed.

(** The attempts of a retrieval entered with [retryCount]: one at least,
    and no more than the attempts left; the stores are not touched. *)
Lemma buscar_attempts fuel idS : forall n retryCount tok w w',
  (MAX_RETRIES - retryCount = n)%nat ->
  worldOf (buscarCabecalhoNotaSankhya env fuel idS tok retryCount w) = Some w' ->
  (attempts (trace w) + 1 <= attempts (trace w')
   /\ attempts (trace w') <= attempts (trace w) + Nat.max 1 n)%nat
  /\ committed w' = committed w /\ working w' = working w.
Proof.
  induction n as [|n IH]; intros retryCount tok w w' Hn Hw; rewrite buscar_unfold in Hw;
    pose proof (pageLoop_quiet idS fuel (mkLoop [] 0 true tok) (emit (EvAttempt retryCount) w)) as Hq;
    destruct (pageLoop env fuel idS _ _) as [st w1|error w1|]; try discriminate;
    pose proof (quiet_stores _ _ Hq) as [Hc Hwk];
    apply quiet_attempts in Hq; simpl in Hq, Hc, Hwk; rewrite attempts_app in Hq;
    change (attempts [EvAttempt retryCount]) with 1%nat in Hq.
  - simpl in Hw. inversion Hw; subst. repeat split; try lia; assumption.
  - unfold MAX_RETRIES in Hn.
    destruct (Nat.ltb_spec retryCount (MAX_RETRIES - 1)) as [Hlt|Hge]; unfold MAX_RETRIES in *;
      simpl in Hw; [lia|]. inversion Hw; subst. repeat split; try lia; assumption.
  - simpl in Hw. inversion Hw; subst. repeat split; try lia; assumption.
  - unfold MAX_RETRIES in Hn.
    destruct (Nat.ltb_spec retryCount (MAX_RETRIES - 1)) as [Hlt|Hge]; unfold MAX_RETRIES in *;
      simpl in Hw.
    + destruct (isTransient error); simpl in Hw;
        [|inversion Hw; subst; repeat split; try lia; assumption].
      destruct (isAuthError error).
      * unfold obterToken in Hw. simpl in Hw.
        destruct (tokenSupplier env _ idS) as [e|novo]; simpl in Hw.
        -- inversion Hw; subst. simpl. rewrite !attempts_app.
           change (attempts [EvSleep _]) with 0%nat. change (attempts [EvToken _]) with 0%nat.
           repeat split; try lia; assumption.
        -- apply IH in Hw; [|lia]. simpl in Hw. rewrite !attempts_app in Hw.
           change (attempts [EvSleep _]) with 0%nat in Hw.
           change (attempts [EvToken _]) with 0%nat in Hw.
           destruct Hw as (Ha & -> & ->). repeat split; try lia; assumption.
      * apply IH in Hw; [|lia]. simpl in Hw. rewrite !attempts_app in Hw.
        change (attempts [EvSleep _]) with 0%nat in Hw.
        destruct Hw as (Ha & -> & ->). repeat split; try lia; assumption.
    + inversion Hw; subst. repeat split; try lia; assumption.
Qed.

End OuterRetry.

Section Exhaustion.

Variable env : Env.
Hypothesis Hcontracts : contractsActive env.
Hypothesis Hfail : transientAlways env.

Lemma transient_attempt fuel idS tok w :
  exists isSandbox e,
    pageLoop env (S fuel) idS (mkLoop [] 0 true tok) w
    = Throw e (afterPost isSandbox (mkLoop [] 0 true tok) w)
    /\ isTransient e = true /\ isAuthError e = false.
Proof.
  destruct (Hcontracts (tick w)) as [sb Hsb].
  destruct (Hfail (S (tick w)) (urlOf sb) tok 0%nat) as (e & He & Ht & Ha).
  exists sb, e. split; [|split; assumption].
  rewrite pageLoop_S by reflexivity. unfold tryCatch.
  rewrite (tryPage_error env (mkLoop [] 0 true tok) w sb e Hsb He). unfold onPageError. rewrite Ha. reflexivity.
Qed.

(** Three failures of the retried class in a row: three attempts, pauses
    of 2000 ms and 4000 ms between them, and the error that names the
    three attempts. *)
Lemma three_transient_failures fuel idS tok w :
  exists e w',
    buscarCabecalhoNotaSankhya env (S fuel) idS tok 0 w = Throw (giveUp 2 e) w'
    /\ isTransient e = true
    /\ attempts (trace w') = (attempts (trace w) + 3)%nat
    /\ sleeps (trace w') = (sleeps (trace w) ++ [2000; 4000])%list.
Proof.
  rewrite buscar_unfold.
  destruct (transient_attempt fuel idS tok (emit (EvAttempt 0) w)) as (sb0 & e0 & H0 & T0 & A0).
  rewrite H0, T0, A0. simpl andb. cbv iota.
  rewrite buscar_unfold.
  destruct (transient_attempt fuel idS tok
              (emit (EvAttempt (0 + 1)) (emit (EvSleep (RETRY_DELAY * (Z.of_nat 0 + 1)))
                 (afterPost sb0 (mkLoop [] 0 true tok) (emit (EvAttempt 0) w)))))
    as (sb1 & e1 & H1 & T1 & A1).
  rewrite H1, T1, A1. simpl andb. cbv iota.
  rewrite buscar_unfold.
  match goal with
  | |- context [pageLoop env (S fuel) idS _ ?w2] =>
      destruct (transient_attempt fuel idS tok w2) as (sb2 & e2 & H2 & T2 & A2)
  end.
  rewrite H2. simpl andb. cbv iota.
  exists e2. eexists. split; [reflexivity|]. split; [exact T2|].
  simpl trace. rewrite !attempts_app, !sleeps_app. split.
  - change (attempts []) with 0%nat.
    repeat match goal with
           | |- context [attempts [?ev]] =>
               let n := eval compute in (attempts [ev]) in change (attempts [ev]) with n
           end. lia.
  - simpl. rewrite !app_nil_r, <- !app_assoc. reflexivity.
Qed.

End Exhaustion.


(** ** C5: the conversion of the negotiation date *)

Section DateText.

Lemma append_cons c r x : (String c r ++ x)%string = String c (r ++ x).
Proof. reflexivity. Qed.

Lemma append_empty (s : string) : (s ++ "")%string = s.
Proof. induction s as [|a s IH]; [reflexivity|]. rewrite append_cons, IH. reflexivity. Qed.

Lemma includes_char c s : Str.includes (String c EmptyString) s = occurs c s.
Proof.
  induction s as [|d r IH]; [reflexivity|].
  simpl. rewrite IH. destruct (Ascii.eqb_spec c d) as [->|Hne].
  - destruct (ascii_dec d d); [|congruence]. destruct r; reflexivity.
  - destruct (ascii_dec c d); [congruence|]. reflexivity.
Qed.

Lemma occurs_app c a b : occurs c (a ++ b) = occurs c a || occurs c b.
Proof.
  induction a as [|d r IH]; [reflexivity|].
  rewrite append_cons. simpl. rewrite IH, orb_assoc. reflexivity.
Qed.

Lemma trimEnd_keep c r : Str.isSpace c = false -> Str.trimEnd (String c r) = String c (Str.trimEnd r).
Proof. intros H. simpl. rewrite H. destruct (Str.trimEnd r); reflexivity. Qed.

Lemma trimEnd_app d x : blankFree d = true -> Str.trimEnd (d ++ x) = (d ++ Str.trimEnd x)%string.
Proof.
  induction d as [|c r IH]; intros H; [reflexivity|].
  simpl in H. apply andb_true_iff in H as [Hc Hr]. apply negb_true_iff in Hc.
  change (String c r ++ x)%string with (String c (r ++ x)).
  rewrite trimEnd_keep by exact Hc. rewrite IH by exact Hr. reflexivity.
Qed.

Lemma trimStart_keep d x : blankFree d = true -> d <> EmptyString -> Str.trimStart (d ++ x) = (d ++ x)%string.
Proof.
  destruct d as [|c r]; intros H Hne; [congruence|].
  simpl in *. apply andb_true_iff in H as [Hc _]. apply negb_true_iff in Hc. rewrite Hc. reflexivity.
Qed.

Lemma occurs_trimEnd c s : occurs c s = false -> occurs c (Str.trimEnd s) = false.
Proof.
  induction s as [|d r IH]; intros H; [reflexivity|].
  simpl in H. apply orb_false_iff in H as [Hd Hr]. specialize (IH Hr).
  simpl. destruct (Str.trimEnd r) eqn:E.
  - destruct (Str.isSpace d); simpl; [reflexivity|]. rewrite Hd. reflexivity.
  - simpl in *. rewrite Hd. exact IH.
Qed.

(** What is left of [" " ++ t] once trailing white space is dropped
    starts with the space, or is empty. *)
Lemma trimEnd_space t :
  Str.trimEnd (String " " t) = EmptyString
  \/ exists r, Str.trimEnd (String " " t) = String " " r.
Proof. simpl. destruct (Str.trimEnd t); [left|right; eexists]; reflexivity. Qed.

Lemma split_cons c d s : Ascii.eqb c d = false ->
  hd EmptyString (Str.split c (String d s)) = String d (hd EmptyString (Str.split c s)).
Proof. intros H. simpl. rewrite H. destruct (Str.split c s); reflexivity. Qed.

Lemma isSpace_space c : Str.isSpace c = false -> Ascii.eqb " " c = false.
Proof. intros H. destruct (Ascii.eqb_spec " " c) as [<-|]; [discriminate H|reflexivity]. Qed.

Lemma hd_split_space d x : blankFree d = true ->
  (x = EmptyString \/ exists r, x = String " " r) ->
  hd EmptyString (Str.split " " (d ++ x)) = d.
Proof.
  intros Hd Hx. induction d as [|c r IH].
  - destruct Hx as [->|[r ->]]; reflexivity.
  - simpl in Hd. apply andb_true_iff in Hd as [Hc Hr]. apply negb_true_iff in Hc.
    change (String c r ++ x)%string with (String c (r ++ x)).
    rewrite split_cons by (apply isSpace_space; exact Hc). rewrite IH by exact Hr. reflexivity.
Qed.

Lemma trim_blankFree d : blankFree d = true -> Str.trim d = d.
Proof.
  intros H. unfold Str.trim.
  destruct d as [|c r]; [reflexivity|].
  pose proof (trimStart_keep (String c r) EmptyString H ltac:(discriminate)) as Hs.
  pose proof (trimEnd_app (String c r) EmptyString H) as He.
  rewrite !append_empty in Hs. rewrite !append_empty in He.
  rewrite Hs, He. reflexivity.
Qed.

(** The text of a date followed by a space and anything else is read as
    the date alone. *)
Lemma time_discarded d t :
  blankFree d = true -> d <> EmptyString ->
  exists x, Str.trim (d ++ String " " t) = (d ++ x)%string
            /\ hd EmptyString (Str.split " " (Str.trim (d ++ String " " t))) = d
            /\ (forall c, occurs c t = false -> c <> " "%char -> occurs c x = false).
Proof.
  intros Hd Hne. exists (Str.trimEnd (String " " t)). unfold Str.trim.
  rewrite trimStart_keep, trimEnd_app by assumption.
  split; [reflexivity|]. split.
  - apply hd_split_space; [exact Hd|apply trimEnd_space].
  - intros c Hc Hsp. apply occurs_trimEnd. simpl. rewrite Hc.
    destruct (Ascii.eqb_spec c " "); [congruence|reflexivity].
Qed.

End DateText.

Lemma converter_components v :
  converterDataParaOracle v =
  if truthy v then
    match dateComponents (jsString v) with
    | Some (year, month, day) => dateOfParts year month day
    | None => None
    end
  else None.
Proof.
  unfold converterDataParaOracle, dateComponents.
  destruct (truthy v); simpl; [|reflexivity].
  destruct (Str.includes "-" _); [reflexivity|].
  destruct (Str.includes "/" _); reflexivity.
Qed.

Lemma dateOfParts_Some year month day date :
  dateOfParts year month day = Some date <->
  exists y m d, year = Some y /\ month = Some m /\ day = Some d
                /\ y <> 0 /\ 1 <= m <= 12 /\ 1 <= d <= 31 /\ date = newDate y (m - 1) d.
Proof.
  unfold dateOfParts, invalidParts. split.
  - destruct year as [y|], month as [m|], day as [d|]; simpl;
      rewrite ?orb_true_r; try discriminate.
    destruct (y =? 0) eqn:Ey; simpl; [discriminate|].
    destruct (m =? 0) eqn:Em; simpl; [discriminate|].
    destruct (d =? 0) eqn:Ed; simpl; [discriminate|].
    destruct (m <? 1) eqn:E1; simpl; [discriminate|].
    destruct (m >? 12) eqn:E2; simpl; [discriminate|].
    destruct (d <? 1) eqn:E3; simpl; [discriminate|].
    destruct (d >? 31) eqn:E4; simpl; [discriminate|].
    intros H. inversion H. exists y, m, d. repeat split; lia.
  - intros (y & m & d & -> & -> & -> & Hy & Hm & Hd & ->). simpl.
    replace (y =? 0) with false by lia. replace (m =? 0) with false by lia.
    replace (d =? 0) with false by lia. replace (m <? 1) with false by lia.
    replace (m >? 12) with false by lia. replace (d <? 1) with false by lia.
    replace (d >? 31) with false by lia. reflexivity.
Qed.


(** ** C10: falsy fields are stored as NULL *)

Lemma orNull_falsy v : truthy v = false -> orNull v = JNull.
Proof. unfold orNull. intros ->. reflexivity. Qed.

Lemma orNull_same a b : sameOrFalsy a b -> orNull a = orNull b.
Proof. intros [->|[Ha Hb]]; [reflexivity|]. rewrite !orNull_falsy by assumption. reflexivity. Qed.

(** C10.  In both statements a falsy CODTIPVENDA, CODVEND or VLRNOTA (the
    number 0 included) is bound, and so stored, as NULL; the INSERT does
    the same to CODTIPOPER, CODPARC and TIPMOV (the empty string
    included).  A record with such a value is therefore persisted exactly
    like the record without the field. *)
Theorem falsy_fields_stored_as_null (env : Env) (idS : Z) :
  (orNull (JNum 0) = JNull /\ orNull (JStr "") = JNull /\ orNull JUndefined = JNull)
  /\ (forall c,
        (truthy (CODTIPVENDA c) = false -> codtipvenda (updateBinds c) = JNull)
        /\ (truthy (CODVEND c) = false -> codvend (updateBinds c) = JNull)
        /\ (truthy (VLRNOTA c) = false -> vlrnota (updateBinds c) = JNull))
  /\ (forall c,
        (truthy (CODTIPOPER c) = false -> codtipoper (insertBinds c) = JNull)
        /\ (truthy (CODTIPVENDA c) = false -> codtipvenda (insertBinds c) = JNull)
        /\ (truthy (CODPARC c) = false -> codparc (insertBinds c) = JNull)
        /\ (truthy (CODVEND c) = false -> codvend (insertBinds c) = JNull)
        /\ (truthy (VLRNOTA c) = false -> vlrnota (insertBinds c) = JNull)
        /\ (truthy (TIPMOV c) = false -> tipmov (insertBinds c) = JNull))
  /\ (forall b ts old,
        (codtipvenda b = JNull -> rCODTIPVENDA (updatedRow b ts old) = JNull)
        /\ (codvend b = JNull -> rCODVEND (updatedRow b ts old) = JNull)
        /\ (vlrnota b = JNull -> rVLRNOTA (updatedRow b ts old) = JNull)
        /\ (codtipoper b = JNull -> rCODTIPOPER (insertedRow b ts) = JNull)
        /\ (codtipvenda b = JNull -> rCODTIPVENDA (insertedRow b ts) = JNull)
        /\ (codparc b = JNull -> rCODPARC (insertedRow b ts) = JNull)
        /\ (codvend b = JNull -> rCODVEND (insertedRow b ts) = JNull)
        /\ (vlrnota b = JNull -> rVLRNOTA (insertedRow b ts) = JNull)
        /\ (tipmov b = JNull -> rTIPMOV (insertedRow b ts) = JNull))
  /\ (forall c c' n w,
        NUNOTA c = NUNOTA c' -> DTNEG c = DTNEG c' ->
        CODTIPOPER c = CODTIPOPER c' -> CODPARC c = CODPARC c' -> TIPMOV c = TIPMOV c' ->
        sameOrFalsy (CODTIPVENDA c) (CODTIPVENDA c') ->
        sameOrFalsy (CODVEND c) (CODVEND c') ->
        sameOrFalsy (VLRNOTA c) (VLRNOTA c') ->
        processRecord env idS c n w = processRecord env idS c' n w)
  /\ (forall c c' n w,
        NUNOTA c = NUNOTA c' -> DTNEG c = DTNEG c' ->
        sameOrFalsy (CODTIPOPER c) (CODTIPOPER c') ->
        sameOrFalsy (CODTIPVENDA c) (CODTIPVENDA c') ->
        sameOrFalsy (CODPARC c) (CODPARC c') ->
        sameOrFalsy (CODVEND c) (CODVEND c') ->
        sameOrFalsy (VLRNOTA c) (VLRNOTA c') ->
        sameOrFalsy (TIPMOV c) (TIPMOV c') ->
        (forall k, keyOf (NUNOTA c) = Some k -> working w !! (idS, k) = None) ->
        processRecord env idS c n w = processRecord env idS c' n w).
Proof.
  split; [repeat split|]. split; [|split; [|split; [|split]]].
  - intros c. repeat split; intros H; simpl; apply orNull_falsy, H.
  - intros c. repeat split; intros H; simpl; apply orNull_falsy, H.
  - intros b ts old. repeat split; intros H; simpl; rewrite H; reflexivity.
  - intros c c' n w Hn Hd H1 H2 H3 S1 S2 S3.
    assert (Hu : updateBinds c = updateBinds c').
    { unfold updateBinds. rewrite Hd, H1, H2, H3.
      rewrite (orNull_same _ _ S1), (orNull_same _ _ S2), (orNull_same _ _ S3). reflexivity. }
    assert (Hi : insertBinds c = insertBinds c').
    { unfold insertBinds. rewrite Hd, H1, H2, H3.
      rewrite (orNull_same _ _ S1), (orNull_same _ _ S2), (orNull_same _ _ S3). reflexivity. }
    unfold processRecord. rewrite Hn, Hu, Hi. reflexivity.
  - intros c c' n w Hn Hd S1 S2 S3 S4 S5 S6 Hnew.
    assert (Hi : insertBinds c = insertBinds c').
    { unfold insertBinds. rewrite Hd.
      rewrite (orNull_same _ _ S1), (orNull_same _ _ S2), (orNull_same _ _ S3),
        (orNull_same _ _ S4), (orNull_same _ _ S5), (orNull_same _ _ S6). reflexivity. }
    unfold processRecord, tryCatch, bind, selectCount, dbCall. rewrite <- Hn, Hi.
    destruct (fault env OpExecute (tick w)); [reflexivity|].
    cbn [tick trace committed working step setWorking].
    destruct (keyOf (NUNOTA c)) as [k|] eqn:Hk; [|reflexivity].
    rewrite (Hnew k eq_refl). reflexivity.
Qed.

(** ** The reconciliation, record by record *)

Ltac red_world :=
  cbn [Nat.ltb Nat.leb tick trace committed working step setWorking setCommitted emit
       inseridos atualizados].

Section Reconciliation.

Variable env : Env.

Lemma skipped_app t u : skipped (t ++ u) = (skipped t + skipped u)%nat.
Proof. unfold skipped. rewrite List.filter_app, length_app. reflexivity. Qed.

Lemma skipped_step w : skipped (trace (step [] w)) = skipped (trace w).
Proof. simpl. rewrite app_nil_r. reflexivity. Qed.

(** A record never throws past its [catch]: it is inserted, updated or
    skipped. *)
Lemma processRecord_effect idS c n w :
  exists n' w', processRecord env idS c n w = Ret n' w' /\ RecordEffect idS c n w n' w'.
Proof.
  unfold processRecord, tryCatch, bind, selectCount, updateRow, insertRow, dbCall, log, ret.
  destruct (fault env OpExecute (tick w)) as [e|] eqn:F1.
  { eexists _, _. split; [reflexivity|]. apply RecSkipped; try reflexivity.
    simpl. rewrite app_nil_r, skipped_app. unfold skipped at 2. simpl. lia. }
  red_world.
  destruct (keyOf (NUNOTA c)) as [k|] eqn:Hk.
  - destruct (working w !! (idS, k)) as [old|] eqn:Hrow; red_world.
    + destruct (fault env OpExecute (S (tick w))) as [e|] eqn:F2.
      { eexists _, _. split; [reflexivity|]. apply RecSkipped; try reflexivity.
        simpl. rewrite !app_nil_r, skipped_app. unfold skipped at 2. simpl. lia. }
      red_world. rewrite ?Hk.
      eexists _, _. split; [reflexivity|].
      eapply (RecUpdated idS c n w k _ old); try eassumption; try reflexivity.
      * red_world. apply map_eq. intros key.
        rewrite lookup_alter, lookup_insert.
        destruct (decide ((idS, k) = key)) as [<-|]; [rewrite Hrow|]; reflexivity.
      * simpl. rewrite !app_nil_r. reflexivity.
    + destruct (fault env OpExecute (S (tick w))) as [e|] eqn:F2.
      { eexists _, _. split; [reflexivity|]. apply RecSkipped; try reflexivity.
        simpl. rewrite !app_nil_r, skipped_app. unfold skipped at 2. simpl. lia. }
      red_world. rewrite ?Hk, ?Hrow.
      eexists _, _. split; [reflexivity|].
      eapply (RecInserted idS c n w k); try eassumption; try reflexivity.
      simpl. rewrite !app_nil_r. reflexivity.
  - red_world.
    destruct (fault env OpExecute (S (tick w))) as [e|] eqn:F2.
    { eexists _, _. split; [reflexivity|]. apply RecSkipped; try reflexivity.
      simpl. rewrite !app_nil_r, skipped_app. unfold skipped at 2. simpl. lia. }
    red_world. rewrite ?Hk.
    eexists _, _. split; [reflexivity|]. apply RecSkipped; try reflexivity.
    simpl. rewrite !app_nil_r, skipped_app. unfold skipped at 2. simpl. lia.
Qed.

(** Without a failing statement a record is skipped only for want of a
    numeric identifier. *)
Lemma processRecord_keyed idS c n w k :
  (forall j, fault env OpExecute j = None) ->
  keyOf (NUNOTA c) = Some k ->
  exists n' w', processRecord env idS c n w = Ret n' w'
    /\ (inseridos n' + atualizados n' = S (inseridos n + atualizados n))%nat
    /\ (is_Some (working w !! (idS, k)) -> inseridos n' = inseridos n)
    /\ activeAt (working w') idS k
    /\ (forall key, key <> (idS, k) -> working w' !! key = working w !! key)
    /\ committed w' = committed w.
Proof.
  intros Hnf Hk.
  unfold processRecord, tryCatch, bind, selectCount, updateRow, insertRow, dbCall, log, ret.
  rewrite !Hnf. red_world. rewrite Hk.
  destruct (working w !! (idS, k)) as [old|] eqn:Hrow; red_world; rewrite !Hnf;
    red_world; rewrite ?Hk, ?Hrow;
    eexists _, _; (split; [reflexivity|]); red_world.
  - split; [lia|]. split; [reflexivity|]. split; [|split; [|reflexivity]].
    + eexists. rewrite lookup_alter_eq, Hrow. split; reflexivity.
    + intros key Hne. rewrite lookup_alter_ne by congruence. reflexivity.
  - split; [lia|]. split; [intros [? ?]; discriminate|]. split; [|split; [|reflexivity]].
    + eexists. rewrite lookup_insert_eq. split; reflexivity.
    + intros key Hne. rewrite lookup_insert_ne by congruence. reflexivity.
Qed.

End Reconciliation.

Section UpsertLoop.

Variable env : Env.

Lemma commit_cases w :
  (exists e, fault env OpCommit (tick w) = Some e /\ commit env w = Throw e (step [] w))
  \/ (fault env OpCommit (tick w) = None
      /\ commit env w = Ret tt (setCommitted (working w) (step [] w))).
Proof.
  unfold commit, dbCall. destruct (fault env OpCommit (tick w)) as [e|]; [left|right]; eauto.
Qed.

Lemma upsertFrom_loop idS cs i n w :
  upsertFrom env idS cs i n w =
  if (i <? length cs)%nat then
    match processBatch env idS (slice i (i + BATCH_SIZE) cs) n w with
    | Ret n1 w1 =>
        match commit env w1 with
        | Ret _ w2 => upsertFrom env idS cs (i + BATCH_SIZE) n1 w2
        | Throw e w2 => Throw e w2
        | Diverge => Diverge
        end
    | Throw e w1 => Throw e w1
    | Diverge => Diverge
    end
  else Ret n w.
Proof.
  simp upsertFrom.
  destruct (lt_dec i (length cs)) as [Hlt|Hge];
    destruct (Nat.ltb_spec i (length cs)) as [Hlt'|Hge']; try lia; simpl; [|reflexivity].
  unfold bind. destruct (processBatch env idS _ n w) as [n1 w1|e w1|]; try reflexivity.
  destruct (commit env w1) as [[] w2|e w2|]; reflexivity.
Qed.

Lemma slice_lookup {A} (l : list A) i j (x : A) :
  slice i (i + BATCH_SIZE) l !! j = Some x -> l !! (i + j)%nat = Some x.
Proof.
  unfold slice. intros H. apply lookup_take_Some in H as [H _].
  rewrite lookup_drop in H. exact H.
Qed.

Lemma slice_length {A} (l : list A) i :
  length (slice i (i + BATCH_SIZE) l) = Nat.min BATCH_SIZE (length l - i).
Proof.
  unfold slice. rewrite length_take, length_drop.
  replace (i + BATCH_SIZE - i)%nat with BATCH_SIZE by lia. reflexivity.
Qed.

(** An invariant of the records processed so far, kept by each record and
    by each commit, holds of all of them when the upsert returns; the
    upsert throws only what a commit threw. *)
Section Invariant.

Variable idS : Z.
Variable cs : list CabecalhoNota.
Variable P : nat -> Contagem -> World -> Prop.
Hypothesis Hrecord : forall k c n w n' w',
  cs !! k = Some c -> P k n w -> processRecord env idS c n w = Ret n' w' -> P (S k) n' w'.
Hypothesis Hcommit : forall k n w,
  P k n w -> P k n (setCommitted (working w) (step [] w)).

Lemma processBatch_inv : forall batch k n w,
  (forall j c, batch !! j = Some c -> cs !! (k + j)%nat = Some c) ->
  P k n w ->
  exists n' w', processBatch env idS batch n w = Ret n' w' /\ P (k + length batch) n' w'.
Proof.
  induction batch as [|c rest IH]; intros k n w Hin HP.
  - exists n, w. simpl. rewrite Nat.add_0_r. split; [reflexivity|exact HP].
  - destruct (processRecord_effect env idS c n w) as (n1 & w1 & Hrec & _).
    simpl. unfold bind. rewrite Hrec.
    destruct (IH (S k) n1 w1) as (n' & w' & Hrest & HP').
    + intros j c' Hj. replace (S k + j)%nat with (k + S j)%nat by lia. apply Hin. exact Hj.
    + eapply Hrecord; [|exact HP|exact Hrec].
      specialize (Hin 0%nat c eq_refl). rewrite Nat.add_0_r in Hin. exact Hin.
    + exists n', w'. split; [exact Hrest|].
      replace (k + S (length rest))%nat with (S k + length rest)%nat by lia. exact HP'.
Qed.

Lemma upsertFrom_inv : forall m i n w,
  (length cs - i <= m)%nat ->
  P (Nat.min i (length cs)) n w ->
  match upsertFrom env idS cs i n w with
  | Ret n' w' => P (length cs) n' w'
  | Throw e _ => exists j, fault env OpCommit j = Some e
  | Diverge => False
  end.
Proof.
  induction m as [|m IH]; intros i n w Hm HP; rewrite upsertFrom_loop;
    destruct (Nat.ltb_spec i (length cs)) as [Hlt|Hge]; try lia;
    try (replace (Nat.min i (length cs)) with (length cs) in HP by lia; exact HP).
  replace (Nat.min i (length cs)) with i in HP by lia.
  destruct (processBatch_inv (slice i (i + BATCH_SIZE) cs) i n w) as (n1 & w1 & Hb & HP1).
  - intros j c Hj. apply slice_lookup in Hj. exact Hj.
  - exact HP.
  - rewrite Hb. rewrite slice_length in HP1.
    destruct (commit_cases w1) as [(e & Hf & ->)|(Hf & ->)]; [eauto|].
    apply IH; [unfold BATCH_SIZE; lia|].
    replace (Nat.min (i + BATCH_SIZE) (length cs))
      with (i + Nat.min BATCH_SIZE (length cs - i))%nat by lia.
    apply Hcommit. exact HP1.
Qed.

Lemma upsert_inv n w :
  P 0 n w ->
  match upsertFrom env idS cs 0 n w with
  | Ret n' w' => P (length cs) n' w'
  | Throw e _ => exists j, fault env OpCommit j = Some e
  | Diverge => False
  end.
Proof. intros HP. apply (upsertFrom_inv (length cs)); [lia|exact HP]. Qed.

End Invariant.

End UpsertLoop.

(** ** The orchestration, stage by stage *)

Section Orchestration.

Variable env : Env.

Lemma marcar_cases idS w :
  (exists e, fault env OpExecute (tick w) = Some e
             /\ marcarTodosComoNaoAtuais env idS w = Throw e (step [] w))
  \/ (fault env OpExecute (tick w) = None
      /\ exists deleted, marcarTodosComoNaoAtuais env idS w = Ret deleted (afterMark env idS w)).
Proof.
  unfold marcarTodosComoNaoAtuais, dbCall.
  destruct (fault env OpExecute (tick w)) as [e|]; [left; eauto|right]. split; [reflexivity|].
  eexists. reflexivity.
Qed.

Lemma quietly_returns op (f : World -> unit * World) w :
  (forall w0, committed (f w0).2 = committed w0 /\ trace (f w0).2 = trace w0) ->
  exists w', quietly (dbCall env op f) w = Ret tt w'
             /\ committed w' = committed w /\ trace w' = trace w.
Proof.
  intros Hf. unfold quietly, tryCatch, dbCall, ret.
  destruct (fault env op (tick w)).
  - eexists. split; [reflexivity|]. simpl. rewrite app_nil_r. split; reflexivity.
  - destruct (Hf (step [] w)) as [Hc Ht]. destruct (f (step [] w)) as [[] w'] eqn:E.
    simpl in Hc, Ht. exists w'. split; [reflexivity|]. rewrite Hc, Ht. simpl.
    rewrite app_nil_r. split; reflexivity.
Qed.

Lemma quietly_rollback w :
  exists w', quietly (rollback env) w = Ret tt w' /\ committed w' = committed w /\ trace w' = trace w.
Proof. apply quietly_returns. intros w0. split; reflexivity. Qed.

Lemma quietly_close w :
  exists w', quietly (close env) w = Ret tt w' /\ committed w' = committed w /\ trace w' = trace w.
Proof. apply quietly_returns. intros w0. split; reflexivity. Qed.

Lemma quietly_log w :
  exists w', quietly (salvarLogSincronizacao env) w = Ret tt w'
             /\ committed w' = committed w /\ trace w' = trace w.
Proof. apply quietly_returns. intros w0. split; reflexivity. Qed.

(** The [catch] block always hands back a failure outcome. *)
Lemma onFailure_returns connection idS nome t0 e w :
  exists r w', onFailure env connection idS nome t0 e w = Ret r w'
    /\ success r = false /\ erro r = message e
    /\ idSistema r = idS /\ empresa r = nome
    /\ totalRegistros r = 0%nat /\ registrosInseridos r = 0%nat
    /\ registrosAtualizados r = 0%nat /\ registrosDeletados r = 0%nat
    /\ committed w' = committed w.
Proof.
  unfold onFailure, bind, getNow, ret.
  assert (Hrb : exists w1, (if connection then quietly (rollback env) else fun w => Ret tt w) w
                           = Ret tt w1 /\ committed w1 = committed w).
  { destruct connection.
    - destruct (quietly_rollback w) as (w1 & H & Hc & _). eauto.
    - eauto. }
  destruct Hrb as (w1 & -> & Hc1).
  destruct (quietly_log w1) as (w2 & -> & Hc2 & _).
  eexists _, _. split; [reflexivity|]. simpl. repeat split; congruence.
Qed.

(** The reconciliation either returns a success outcome built from the
    counts of the upsert, or throws; an invariant of the upsert carries
    over to the rows that it commits. *)
Lemma reconcile_inversion idS nome t0 cs w r w2
    (P : nat -> Contagem -> World -> Prop) :
  (forall k c n w n' w',
     cs !! k = Some c -> P k n w -> processRecord env idS c n w = Ret n' w' -> P (S k) n' w') ->
  (forall k n w, P k n w -> P k n (setCommitted (working w) (step [] w))) ->
  P 0%nat (mkContagem 0 0) (afterMark env idS w) ->
  reconcile env idS nome t0 cs w = Ret r w2 ->
  exists n wu,
    P (length cs) n wu
    /\ success r = true /\ erro r = None /\ idSistema r = idS /\ empresa r = nome
    /\ totalRegistros r = length cs
    /\ registrosInseridos r = inseridos n /\ registrosAtualizados r = atualizados n
    /\ committed w2 = working wu /\ trace w2 = trace wu.
Proof.
  intros Hrec Hcom HP0 Hrun. unfold reconcile, bind in Hrun.
  destruct (marcar_cases idS w) as [(e & _ & Hm)|(_ & deleted & Hm)]; rewrite Hm in Hrun;
    [discriminate|].
  pose proof (upsert_inv env idS cs P Hrec Hcom (mkContagem 0 0) (afterMark env idS w) HP0) as Hup.
  unfold upsertCabecalhoNota in Hrun.
  destruct (upsertFrom env idS cs 0 _ _) as [n wu|e wu|]; [|discriminate|contradiction].
  destruct (commit_cases env wu) as [(e & _ & Hc)|(_ & Hc)]; rewrite Hc in Hrun; [discriminate|].
  unfold getNow in Hrun.
  destruct (quietly_log (setCommitted (working wu) (step [] wu))) as (w3 & Hlog & Hc3 & Ht3).
  rewrite Hlog in Hrun. unfold ret in Hrun. inversion Hrun; subst.
  exists n, wu. simpl. repeat split; try assumption; try reflexivity.
  rewrite Ht3. simpl. apply app_nil_r.
Qed.

(** Without a failing bulk statement or commit the reconciliation returns. *)
Lemma reconcile_returns idS nome t0 cs w :
  fault env OpExecute (tick w) = None ->
  (forall j, fault env OpCommit j = None) ->
  exists r w2, reconcile env idS nome t0 cs w = Ret r w2.
Proof.
  intros Hm Hc. unfold reconcile, bind.
  destruct (marcar_cases idS w) as [(e & He & _)|(_ & deleted & ->)]; [congruence|].
  pose proof (upsert_inv env idS cs (fun _ _ _ => True)
                (fun _ _ _ _ _ _ _ _ _ => I) (fun _ _ _ _ => I)
                (mkContagem 0 0) (afterMark env idS w) I) as Hup.
  unfold upsertCabecalhoNota.
  destruct (upsertFrom env idS cs 0 _ _) as [n wu|e wu|]; [| |contradiction].
  - destruct (commit_cases env wu) as [(e & He & _)|(_ & ->)]; [rewrite Hc in He; discriminate|].
    unfold getNow.
    destruct (quietly_log (setCommitted (working wu) (step [] wu))) as (w3 & -> & _).
    eexists _, _. reflexivity.
  - destruct Hup as [j Hj]. rewrite Hc in Hj. discriminate.
Qed.

(** The tenant sync in terms of its stages. *)
Lemma sync_stages fuel idS nome w :
  sincronizarCabecalhoNotaPorEmpresa env fuel idS nome w =
  match fetchAndConnect env fuel idS w with
  | Diverge => Diverge
  | Throw e w1 => onFailure env false idS nome (now env (tick w)) e w1
  | Ret cs w1 =>
      tryFinally
        (tryCatch (reconcile env idS nome (now env (tick w)) cs)
                  (onFailure env true idS nome (now env (tick w))))
        (quietly (close env)) w1
  end.
Proof.
  unfold sincronizarCabecalhoNotaPorEmpresa, bind, getNow, attempt.
  destruct (fetchAndConnect env fuel idS w); reflexivity.
Qed.

(** The reconciliation does not diverge. *)
Lemma reconcile_ends idS nome t0 cs w : reconcile env idS nome t0 cs w <> Diverge.
Proof.
  unfold reconcile, bind.
  destruct (marcar_cases idS w) as [(e & _ & ->)|(_ & deleted & ->)]; [discriminate|].
  pose proof (upsert_inv env idS cs (fun _ _ _ => True)
                (fun _ _ _ _ _ _ _ _ _ => I) (fun _ _ _ _ => I)
                (mkContagem 0 0) (afterMark env idS w) I) as Hup.
  unfold upsertCabecalhoNota.
  destruct (upsertFrom env idS cs 0 _ _) as [n wu|e wu|]; [|discriminate|contradiction].
  destruct (commit_cases env wu) as [(e & _ & ->)|(_ & ->)]; [discriminate|].
  unfold getNow.
  destruct (quietly_log (setCommitted (working wu) (step [] wu))) as (w3 & -> & _).
  discriminate.
Qed.

(** The tenant sync never throws; it returns an outcome whenever the
    retrieval ends. *)
Lemma sync_returns fuel idS nome w :
  fetchAndConnect env fuel idS w <> Diverge ->
  exists r w', sincronizarCabecalhoNotaPorEmpresa env fuel idS nome w = Ret r w'
    /\ idSistema r = idS /\ empresa r = nome
    /\ (success r = false ->
        (exists e w1, (fetchAndConnect env fuel idS w = Throw e w1
                       \/ exists cs w0, fetchAndConnect env fuel idS w = Ret cs w0
                            /\ reconcile env idS nome (now env (tick w)) cs w0 = Throw e w1)
                      /\ erro r = message e)
        /\ totalRegistros r = 0%nat /\ registrosInseridos r = 0%nat
        /\ registrosAtualizados r = 0%nat /\ registrosDeletados r = 0%nat)
    /\ (success r = true ->
        erro r = None
        /\ exists cs w1 w2, fetchAndConnect env fuel idS w = Ret cs w1
             /\ reconcile env idS nome (now env (tick w)) cs w1 = Ret r w2
             /\ committed w' = committed w2 /\ trace w' = trace w2).
Proof.
  intros Hend. rewrite sync_stages.
  destruct (fetchAndConnect env fuel idS w) as [cs w1|e w1|] eqn:Hfetch; [| |congruence].
  - unfold tryFinally, tryCatch.
    pose proof (reconcile_ends idS nome (now env (tick w)) cs w1) as Hre.
    destruct (reconcile env idS nome (now env (tick w)) cs w1) as [r w2|e w2|] eqn:Hrec;
      [| |congruence].
    + destruct (quietly_close w2) as (w3 & -> & Hc & Ht).
      assert (Hr : success r = true /\ erro r = None /\ idSistema r = idS /\ empresa r = nome).
      { destruct (reconcile_inversion idS nome _ cs w1 r w2 (fun _ _ _ => True)
                    (fun _ _ _ _ _ _ _ _ _ => I) (fun _ _ _ _ => I) I Hrec)
          as (n & wu & _ & H1 & H2 & H3 & H4 & _). auto. }
      destruct Hr as (H1 & H2 & H3 & H4).
      exists r, w3. split; [reflexivity|]. split; [exact H3|]. split; [exact H4|]. split.
      * intros Hs. congruence.
      * intros _. split; [exact H2|]. exists cs, w1, w2. auto.
    + destruct (onFailure_returns true idS nome (now env (tick w)) e w2)
        as (r & w3 & -> & Hs & He & Hi & Hn & H0 & H1 & H2 & H3 & _).
      destruct (quietly_close w3) as (w4 & -> & _).
      exists r, w4. split; [reflexivity|]. split; [exact Hi|]. split; [exact Hn|]. split.
      * intros _. split; [|auto]. exists e, w2. split; [|exact He]. right. exists cs, w1. auto.
      * intros Ht. congruence.
  - destruct (onFailure_returns false idS nome (now env (tick w)) e w1)
      as (r & w3 & -> & Hs & He & Hi & Hn & H0 & H1 & H2 & H3 & _).
    exists r, w3. split; [reflexivity|]. split; [exact Hi|]. split; [exact Hn|]. split.
    + intros _. split; [|auto]. exists e, w1. split; [|exact He]. left. reflexivity.
    + intros Ht. congruence.
Qed.

(** With the snapshot retrieved, the connection open and no failure of
    the bulk statement or of a commit, the sync succeeds with the outcome
    of the reconciliation. *)
Lemma sync_succeeds fuel idS nome w cs w1 :
  fetchAndConnect env fuel idS w = Ret cs w1 ->
  fault env OpExecute (tick w1) = None ->
  (forall j, fault env OpCommit j = None) ->
  exists r w' w2,
    sincronizarCabecalhoNotaPorEmpresa env fuel idS nome w = Ret r w'
    /\ success r = true
    /\ reconcile env idS nome (now env (tick w)) cs w1 = Ret r w2
    /\ committed w' = committed w2 /\ trace w' = trace w2.
Proof.
  intros Hfetch Hmark Hcommit.
  destruct (reconcile_returns idS nome (now env (tick w)) cs w1 Hmark Hcommit)
    as (r & w2 & Hrec).
  destruct (sync_returns fuel idS nome w ltac:(rewrite Hfetch; discriminate))
    as (r' & w' & Hsync & _ & _ & Hfail & Hok).
  assert (Hsuccess : success r' = true).
  { destruct (success r') eqn:Hs; [reflexivity|].
    destruct (Hfail eq_refl) as ((e & we & [Hthrow|(cs' & w0 & Hf' & Hthrow)] & _) & _).
    - rewrite Hfetch in Hthrow. discriminate.
    - rewrite Hfetch in Hf'. inversion Hf'; subst. rewrite Hrec in Hthrow. discriminate. }
  destruct (Hok Hsuccess) as (_ & cs' & w1' & w2' & Hf' & Hrec' & Hcom & Htrace).
  rewrite Hfetch in Hf'. inversion Hf'; subst cs' w1'.
  rewrite Hrec in Hrec'. inversion Hrec'; subst r' w2'.
  exists r, w', w2. auto.
Qed.

End Orchestration.

(** ** C8: a failing record is skipped *)

Section FaultIsolation.

Variable env : Env.
Variable idS : Z.

Lemma keysOf_snoc l c : keysOf (l ++ [c]) = (keysOf l ++ keysOf [c])%list.
Proof. unfold keysOf. apply omap_app. Qed.

Lemma RecordEffect_counts c n w n' w' :
  RecordEffect idS c n w n' w' ->
  (inseridos n' + atualizados n' + skipped (trace w')
   = S (inseridos n + atualizados n + skipped (trace w)))%nat.
Proof. intros []; simpl; lia. Qed.

(** Every record is counted once: inserted, updated or skipped. *)
Lemma upsert_counts cs w :
  match upsertCabecalhoNota env idS cs w with
  | Ret n w' =>
      (inseridos n + atualizados n + skipped (trace w') = length cs + skipped (trace w))%nat
  | Throw e _ => exists j, fault env OpCommit j = Some e
  | Diverge => False
  end.
Proof.
  unfold upsertCabecalhoNota.
  apply (upsert_inv env idS cs
           (fun k n w' => (inseridos n + atualizados n + skipped (trace w')
                           = k + skipped (trace w))%nat)).
  - intros k c n w1 n' w' _ HP Hrec.
    destruct (processRecord_effect env idS c n w1) as (n1 & w2 & Hrec' & Heff).
    rewrite Hrec in Hrec'. inversion Hrec'; subst.
    apply RecordEffect_counts in Heff. lia.
  - intros k n w1 HP. simpl. rewrite app_nil_r. exact HP.
  - simpl. lia.
Qed.

(** Without failing statements the skipped records are those without a
    numeric identifier. *)
Lemma upsert_counts_keyed cs w :
  (forall j, fault env OpExecute j = None) ->
  match upsertCabecalhoNota env idS cs w with
  | Ret n w' =>
      (inseridos n + atualizados n = length (keysOf cs))%nat
      /\ (skipped (trace w') + length (keysOf cs) = skipped (trace w) + length cs)%nat
  | Throw e _ => exists j, fault env OpCommit j = Some e
  | Diverge => False
  end.
Proof.
  intros Hnf. unfold upsertCabecalhoNota.
  pose proof (upsert_inv env idS cs
           (fun k n w' => (inseridos n + atualizados n = length (keysOf (take k cs))
                           /\ inseridos n + atualizados n + skipped (trace w')
                              = k + skipped (trace w))%nat)) as Hinv.
  match type of Hinv with ?A -> ?B -> _ => assert (Hrec : A); [|assert (Hcom : B)] end.
  - intros k c n w1 n' w' Hk [HP1 HP2] Hrec.
    rewrite (take_S_r _ _ _ Hk), keysOf_snoc, length_app.
    destruct (processRecord_effect env idS c n w1) as (n1 & w2 & Hrec' & Heff).
    rewrite Hrec in Hrec'. inversion Hrec'; subst n1 w2.
    pose proof (RecordEffect_counts _ _ _ _ _ Heff) as Hcount.
    unfold keysOf at 2. simpl.
    destruct (keyOf (NUNOTA c)) as [key|] eqn:Hkey; simpl.
    + destruct (processRecord_keyed env idS c n w1 key Hnf Hkey) as (n2 & w3 & Hrec'' & Hs & _).
      rewrite Hrec in Hrec''. inversion Hrec''; subst. lia.
    + destruct Heff; try congruence. simpl in *. lia.
  - intros k n w1 HP. simpl. rewrite app_nil_r. exact HP.
  - specialize (Hinv Hrec Hcom (mkContagem 0 0) w ltac:(simpl; lia)).
    destruct (upsertFrom env idS cs 0 _ w) as [n w'|e w'|]; try assumption.
    rewrite firstn_all in Hinv. lia.
Qed.

End FaultIsolation.


(** ** C1: which rows are active after a sync *)

Section SoftDelete.

Variable env : Env.
Variable idS : Z.

Lemma staleMarked_lookup (ts : Z) (s : Store) (key : Z * Z) :
  staleMarked idS ts s !! key
  = (fun r => if stale idS key r then markStale ts r else r) <$> s !! key.
Proof.
  unfold staleMarked. rewrite map_lookup_imap. destruct (s !! key); reflexivity.
Qed.

Lemma staleMarked_none_active (ts : Z) (s : Store) (k : Z) : ~ activeAt (staleMarked idS ts s) idS k.
Proof.
  intros (r & Hr & Hflag). rewrite staleMarked_lookup in Hr.
  destruct (s !! (idS, k)) as [old|]; [|discriminate]. simpl in Hr. inversion Hr; subst r.
  unfold stale in Hflag. simpl in Hflag. rewrite Z.eqb_refl in Hflag. simpl in Hflag.
  destruct (SANKHYA_ATUAL old) eqn:E; simpl in Hflag; congruence.
Qed.

Lemma staleMarked_keeps (ts : Z) (s : Store) (key : Z * Z) :
  is_Some (s !! key) -> is_Some (staleMarked idS ts s !! key).
Proof. intros [r Hr]. rewrite staleMarked_lookup, Hr. eexists. reflexivity. Qed.

Lemma activeAt_insert (s : Store) (k : Z) (r : MirrorRow) (j : Z) :
  activeAt (<[(idS, k) := r]> s) idS j <->
  (j = k /\ SANKHYA_ATUAL r = FlagS) \/ (j <> k /\ activeAt s idS j).
Proof.
  unfold activeAt. destruct (decide (j = k)) as [->|Hne].
  - rewrite lookup_insert_eq. split.
    + intros (r' & Hr & Hf). inversion Hr; subst. left. auto.
    + intros [[_ Hf]|[Hne _]]; [eauto|congruence].
  - rewrite lookup_insert_ne by congruence. split.
    + intros H. right. auto.
    + intros [[Heq _]|[_ H]]; [congruence|exact H].
Qed.

Lemma keysOf_one c j : keyOf (NUNOTA c) = Some j -> keysOf [c] = [j].
Proof. intros H. unfold keysOf. simpl. rewrite H. reflexivity. Qed.

Lemma reconciled_put cs s0 k c n w n' w' key row :
  cs !! k = Some c -> reconciled idS cs s0 k n w ->
  keyOf (NUNOTA c) = Some key -> SANKHYA_ATUAL row = FlagS ->
  working w' = <[(idS, key) := row]> (working w) ->
  (inseridos n' + atualizados n' = S (inseridos n + atualizados n))%nat ->
  reconciled idS cs s0 (S k) n' w'.
Proof.
  intros Hk (HA & HB1 & HB2 & HC) Hkey Hflag Hw Hcount.
  unfold reconciled. rewrite (take_S_r _ _ _ Hk), keysOf_snoc, (keysOf_one c key Hkey), Hw.
  split; [|split; [lia|split]].
  - intros j Hj. apply activeAt_insert in Hj as [[-> _]|[_ Hj]]; apply elem_of_app.
    + right. apply list_elem_of_singleton. reflexivity.
    + left. apply HA, Hj.
  - intros Hall. apply Forall_app. split.
    + eapply Forall_impl; [apply HB2; lia|]. intros c0 (j & Hj & Hact). exists j. split; [exact Hj|].
      apply activeAt_insert. destruct (decide (j = key)) as [->|Hne]; [left|right]; auto.
    + apply Forall_singleton. exists key. split; [exact Hkey|].
      apply activeAt_insert. left. auto.
  - intros key0 Hs. apply lookup_insert_is_Some.
    destruct (decide ((idS, key) = key0)); [left|right]; auto.
Qed.

Lemma reconciled_record cs s0 k c n w n' w' :
  cs !! k = Some c -> reconciled idS cs s0 k n w ->
  processRecord env idS c n w = Ret n' w' -> reconciled idS cs s0 (S k) n' w'.
Proof.
  intros Hk HP Hrec.
  destruct (processRecord_effect env idS c n w) as (n1 & w1 & Hrec' & Heff).
  rewrite Hrec in Hrec'. inversion Hrec'; subst n1 w1. clear Hrec'.
  destruct Heff as [key ts w' Hkey Hnone Hw _ _|key ts old w' Hkey Hsome Hw _ _|w' Hw _ _].
  - eapply (reconciled_put cs s0 k c n w _ w' key _ Hk HP Hkey); [|exact Hw|simpl; lia].
    reflexivity.
  - eapply (reconciled_put cs s0 k c n w _ w' key _ Hk HP Hkey); [|exact Hw|simpl; lia].
    reflexivity.
  - destruct HP as (HA & HB1 & HB2 & HC). unfold reconciled.
    rewrite (take_S_r _ _ _ Hk), keysOf_snoc, Hw. split; [|split; [lia|split]].
    + intros j Hj. apply elem_of_app. left. apply HA, Hj.
    + intros Hcount. lia.
    + exact HC.
Qed.

Lemma reconciled_commit cs s0 k n w :
  reconciled idS cs s0 k n w -> reconciled idS cs s0 k n (setCommitted (working w) (step [] w)).
Proof. intros H. exact H. Qed.

Lemma reconciled_start cs w :
  reconciled idS cs (working w) 0 (mkContagem 0 0) (afterMark env idS w).
Proof.
  unfold reconciled, afterMark. simpl. split; [|split; [lia|split]].
  - intros j Hj. exfalso. eapply staleMarked_none_active, Hj.
  - intros _. apply Forall_nil. exact I.
  - intros key. apply staleMarked_keeps.
Qed.

(** The retrieval and the opening of the connection leave the committed
    rows alone; the session starts from them. *)
Lemma fetch_stores fuel w cs w1 :
  fetchAndConnect env fuel idS w = Ret cs w1 ->
  committed w1 = committed w /\ working w1 = committed w.
Proof.
  unfold fetchAndConnect, bind, obterToken, getOracleConnection, dbCall, ret. intros H.
  destruct (tokenSupplier env (tick w) idS) as [e|tok]; [discriminate|].
  destruct (buscarCabecalhoNotaSankhya env fuel idS tok 0 _) as [cs' w2|e w2|] eqn:Hb;
    try discriminate.
  destruct (buscar_attempts env fuel idS 3 0 tok _ w2 eq_refl ltac:(rewrite Hb; reflexivity))
    as (_ & Hc & _).
  destruct (fault env OpConnect (tick w2)); [discriminate|].
  inversion H; subst. simpl. rewrite Hc. split; reflexivity.
Qed.

End SoftDelete.

(** C1 (amended).  After a successful tenant sync every row flagged active
    for the tenant has its identifier in the snapshot just processed, and
    every row that was active before and whose identifier is not in the
    snapshot is flagged inactive.  A record that fails is skipped without
    failing the sync, so the rows of the snapshot are all active when the
    outcome counts every record as inserted or updated: then the active
    rows of the tenant are exactly those of the snapshot. *)
Theorem soft_delete_after_sync (env : Env) (fuel : nat) (idS : Z) (nome : string)
    (w : World) (r : SyncResult) (w' : World)
    (Hsync : sincronizarCabecalhoNotaPorEmpresa env fuel idS nome w = Ret r w')
    (Hsuccess : success r = true) :
  exists cs w1,
    fetchAndConnect env fuel idS w = Ret cs w1
    /\ totalRegistros r = length cs
    /\ (forall k, activeAt (committed w') idS k -> k ∈ keysOf cs)
    /\ ((registrosInseridos r + registrosAtualizados r = totalRegistros r)%nat ->
        forall k, activeAt (committed w') idS k <-> k ∈ keysOf cs)
    /\ (forall k, activeAt (committed w) idS k -> k ∉ keysOf cs ->
                  inactiveAt (committed w') idS k).
Proof.
  assert (Hend : fetchAndConnect env fuel idS w <> Diverge).
  { intros Hd. rewrite sync_stages, Hd in Hsync. discriminate. }
  destruct (sync_returns env fuel idS nome w Hend) as (r' & w'' & Hsync' & _ & _ & _ & Hok).
  rewrite Hsync in Hsync'. inversion Hsync'; subst r' w''. clear Hsync'.
  destruct (Hok Hsuccess) as (_ & cs & w1 & w2 & Hfetch & Hrec & Hcom & _).
  destruct (fetch_stores env idS fuel w cs w1 Hfetch) as [Hc1 Hw1].
  destruct (reconcile_inversion env idS nome (now env (tick w)) cs w1 r w2
              (reconciled idS cs (working w1))
              (reconciled_record env idS cs (working w1))
              (reconciled_commit idS cs (working w1))
              (reconciled_start env idS cs w1) Hrec)
    as (n & wu & (HA & HB1 & HB2 & HC) & _ & _ & _ & _ & Htot & Hi & Hu & Hcu & _).
  rewrite firstn_all in HA, HB2.
  exists cs, w1. rewrite Hcom, Hcu, Htot, Hi, Hu.
  split; [exact Hfetch|]. split; [reflexivity|]. split; [exact HA|]. split.
  - intros Hall k. split; [apply HA|]. intros Hk.
    specialize (HB2 Hall). unfold keysOf in Hk. apply list_elem_of_omap in Hk as (c & Hc & Hkey).
    rewrite Forall_forall in HB2. destruct (HB2 c Hc) as (j & Hj & Hact).
    rewrite Hkey in Hj. inversion Hj; subst. exact Hact.
  - intros k (row & Hrow & _) Hnot.
    destruct (HC (idS, k)) as [row' Hrow'].
    { rewrite Hw1. eauto. }
    exists row'. split; [exact Hrow'|].
    destruct (SANKHYA_ATUAL row') eqn:Hflag; [|reflexivity].
    exfalso. apply Hnot, HA. exists row'. auto.
Qed.

(** ** C9: two runs against the same snapshot *)

Lemma keyed_length (l : list CabecalhoNota) :
  Forall keyed l -> length (keysOf l) = length l.
Proof.
  induction 1 as [|c l [k Hk] _ IH]; [reflexivity|].
  unfold keysOf in *. simpl. rewrite Hk. simpl. f_equal. exact IH.
Qed.

Section Idempotence.

Variable env : Env.
Variable fuel : nat.
Variable idS : Z.
Variable snap : list CabecalhoNota.
Hypothesis Hsound : storeSound env.
Hypothesis Hretrieves : retrieves env fuel idS snap.
Hypothesis Hkeyed : Forall keyed snap.

Lemma fetch_returns w : exists w1, fetchAndConnect env fuel idS w = Ret snap w1.
Proof.
  destruct (Hretrieves w) as (tok & w1 & w2 & Htok & Hbuscar).
  unfold fetchAndConnect, bind. rewrite Htok, Hbuscar.
  unfold getOracleConnection, dbCall. rewrite (proj1 (Hsound (tick w2))).
  eexists. reflexivity.
Qed.

Lemma keyedRun_record s0 k c n w n' w' :
  snap !! k = Some c -> keyedRun idS snap s0 k n w ->
  processRecord env idS c n w = Ret n' w' -> keyedRun idS snap s0 (S k) n' w'.
Proof.
  intros Hk (Hrec & Hcount & Hins) Hrun.
  assert (Hc : keyed c).
  { rewrite Forall_forall in Hkeyed. apply Hkeyed. eapply list_elem_of_lookup_2, Hk. }
  destruct Hc as [key Hkey].
  destruct (processRecord_keyed env idS c n w key (fun j => proj1 (proj2 (Hsound j))) Hkey)
    as (n1 & w1 & Hrun' & Hs & Hsame & _).
  rewrite Hrun in Hrun'. inversion Hrun'; subst n1 w1.
  split; [eapply reconciled_record; eauto|]. split; [lia|].
  intros Hall. rewrite Hsame; [apply Hins, Hall|].
  destruct Hrec as (_ & _ & _ & HC). apply HC, Hall.
  unfold keysOf. apply list_elem_of_omap. exists c. split; [|exact Hkey].
  eapply list_elem_of_lookup_2, Hk.
Qed.

Lemma activeCount_exact (s : Store) (ks : list Z) :
  NoDup ks -> (forall j, activeAt s idS j <-> j ∈ ks) -> activeCount s idS = length ks.
Proof.
  intros Hnd Hact. unfold activeCount. rewrite <- size_dom.
  assert (Hdom : dom (filter (fun kr : Z * Z * MirrorRow =>
                                kr.1.1 = idS /\ SANKHYA_ATUAL kr.2 = FlagS) s)
                 = list_to_set ((fun j => (idS, j)) <$> ks) :> gset (Z * Z)).
  { apply set_eq. intros [a b]. rewrite elem_of_dom, elem_of_list_to_set, list_elem_of_fmap.
    split.
    - intros [row Hrow]. apply map_lookup_filter_Some in Hrow as [Hrow [Ha Hf]].
      simpl in Ha, Hf. subst a. exists b. split; [reflexivity|]. apply Hact. exists row. auto.
    - intros (j & Heq & Hj). inversion Heq; subst a b. apply Hact in Hj as (row & Hrow & Hf).
      exists row. apply map_lookup_filter_Some. auto. }
  rewrite Hdom, size_list_to_set, length_fmap; [reflexivity|].
  apply NoDup_fmap_2; [|exact Hnd]. intros x y Hxy. inversion Hxy. reflexivity.
Qed.

(** One run in which nothing fails. *)
Lemma sync_keyed nome w :
  exists r w',
    sincronizarCabecalhoNotaPorEmpresa env fuel idS nome w = Ret r w'
    /\ success r = true
    /\ totalRegistros r = length snap
    /\ (registrosInseridos r + registrosAtualizados r = length snap)%nat
    /\ ((forall j, j ∈ keysOf snap -> is_Some (committed w !! (idS, j))) ->
        registrosInseridos r = 0%nat)
    /\ (forall j, activeAt (committed w') idS j <-> j ∈ keysOf snap).
Proof.
  destruct (fetch_returns w) as (w1 & Hfetch).
  destruct (fetch_stores env idS fuel w snap w1 Hfetch) as [_ Hw1].
  destruct (sync_succeeds env fuel idS nome w snap w1 Hfetch
              (proj1 (proj2 (Hsound _))) (fun j => proj2 (proj2 (Hsound j))))
    as (r & w' & w2 & Hsync & Hsuccess & Hrec & Hcom & _).
  destruct (reconcile_inversion env idS nome (now env (tick w)) snap w1 r w2
              (keyedRun idS snap (working w1))) as (n & wu & (Hre & Hcount & Hins) & H).
  - intros k c n w3 n' w4. apply keyedRun_record.
  - intros k n w3 HP. exact HP.
  - split; [apply reconciled_start|]. split; [reflexivity|]. intros _. reflexivity.
  - exact Hrec.
  - destruct H as (_ & _ & _ & _ & Htot & Hi & Hu & Hcu & _).
    destruct Hre as (HA & _ & HB2 & _). rewrite firstn_all in HA, HB2.
    exists r, w'. split; [exact Hsync|]. split; [exact Hsuccess|]. split; [exact Htot|].
    split; [lia|]. split.
    + intros Hall. rewrite Hi. apply Hins. rewrite Hw1. exact Hall.
    + intros j. rewrite Hcom, Hcu. split; [apply HA|]. intros Hj.
      specialize (HB2 Hcount). unfold keysOf in Hj.
      apply list_elem_of_omap in Hj as (c & Hc & Hkey).
      rewrite Forall_forall in HB2. destruct (HB2 c Hc) as (j' & Hj' & Hact).
      rewrite Hkey in Hj'. inversion Hj'; subst. exact Hact.
Qed.

End Idempotence.

(** C9.  Two tenant syncs in a row against the same snapshot of N records
    with distinct numeric identifiers, when no store call fails: the
    second outcome reports no insert and N updates, and after each run the
    tenant has N active rows. *)
Theorem sync_twice_idempotent (env : Env) (fuel : nat) (idS : Z) (nome : string)
    (snap : list CabecalhoNota) (w0 : World)
    (Hsound : storeSound env)
    (Hretrieves : retrieves env fuel idS snap)
    (Hkeyed : Forall keyed snap)
    (Hdistinct : NoDup (keysOf snap)) :
  exists r1 w1 r2 w2,
    sincronizarCabecalhoNotaPorEmpresa env fuel idS nome w0 = Ret r1 w1
    /\ sincronizarCabecalhoNotaPorEmpresa env fuel idS nome w1 = Ret r2 w2
    /\ success r1 = true /\ success r2 = true
    /\ totalRegistros r2 = length snap
    /\ registrosInseridos r2 = 0%nat
    /\ registrosAtualizados r2 = length snap
    /\ activeCount (committed w1) idS = length snap
    /\ activeCount (committed w2) idS = length snap.
Proof.
  destruct (sync_keyed env fuel idS snap Hsound Hretrieves Hkeyed nome w0)
    as (r1 & w1 & Hrun1 & Hs1 & _ & _ & _ & Hact1).
  destruct (sync_keyed env fuel idS snap Hsound Hretrieves Hkeyed nome w1)
    as (r2 & w2 & Hrun2 & Hs2 & Htot2 & Hcount2 & Hins2 & Hact2).
  assert (Hzero : registrosInseridos r2 = 0%nat).
  { apply Hins2. intros j Hj. apply Hact1 in Hj as (row & Hrow & _). eauto. }
  exists r1, w1, r2, w2. repeat split; try assumption; try lia.
  - rewrite <- (keyed_length snap Hkeyed). apply activeCount_exact; assumption.
  - rewrite <- (keyed_length snap Hkeyed). apply activeCount_exact; assumption.
Qed.

(** ** C7: what the public operations hand back *)

Section PublicSurface.

Variable env : Env.
Variable fuel : nat.

Lemma forEmpresas_returns :
  (forall idS w, fetchAndConnect env fuel idS w <> Diverge) ->
  forall empresas resultados w,
  exists rs w',
    forEmpresas env fuel empresas resultados w = Ret (resultados ++ rs)%list w'
    /\ map idSistema rs = map fst empresas
    /\ map empresa rs = map snd empresas.
Proof.
  intros Hend. induction empresas as [|[idS nome] rest IH]; intros resultados w.
  - exists [], w. simpl. rewrite app_nil_r. auto.
  - destruct (sync_returns env fuel idS nome w (Hend idS w)) as (r & w1 & Hsync & Hid & Hnome & _).
    simpl. unfold bind. rewrite Hsync. unfold sleep.
    destruct (IH (resultados ++ [r])%list (emit (EvSleep 2000) w1)) as (rs & w' & Hrest & Hids & Hnomes).
    exists (r :: rs), w'. rewrite Hrest, <- app_assoc. simpl. rewrite Hid, Hnome, Hids, Hnomes. auto.
Qed.

Lemma todas_listed w :
  fault env OpConnect (tick w) = None ->
  fault env OpExecute (S (tick w)) = None ->
  fault env OpClose (S (S (tick w))) = None ->
  sincronizarTodasEmpresas env fuel w
  = forEmpresas env fuel (empresasAtivas env (S (S (tick w)))) []
      (setWorking (committed w) (step [] (step [] (setWorking (committed w) (step [] w))))).
Proof.
  intros H1 H2 H3.
  unfold sincronizarTodasEmpresas, bind, attempt, getOracleConnection, consultarEmpresas,
    close, dbCall, ret.
  rewrite H1. simpl. rewrite H2. simpl. rewrite H3. reflexivity.
Qed.

Lemma todas_unreachable w e :
  fault env OpConnect (tick w) = Some e ->
  sincronizarTodasEmpresas env fuel w = Throw e (step [] w).
Proof.
  intros H. unfold sincronizarTodasEmpresas, bind, attempt, getOracleConnection, dbCall, throw.
  rewrite H. reflexivity.
Qed.

End PublicSurface.


(** ** The properties on the scenarios *)

Section Scenarios.

Import Demo.

Lemma remote_contracts posts faults : contractsActive (remote posts faults).
Proof. intros k. exists true. reflexivity. Qed.

Lemma remote_renewals posts faults : renewalsSucceed (remote posts faults).
Proof. intros k idS. exists "token". reflexivity. Qed.

Lemma pages_full : Forall (fun pg : list RawEntity => pg <> []) pages.
Proof. repeat constructor; discriminate. Qed.

Lemma steady_serves : servesPages steady pages fields 0.
Proof. split; intros; [left|]; reflexivity. Qed.

Lemma expiry_serves : servesPages expiry pages fields 7.
Proof.
  split.
  - intros k url tok p. unfold expiry, remote. simpl.
    destruct (k =? 6)%nat; [right; exists unauthorized; split; reflexivity|left; reflexivity].
  - intros k url tok p Hk. unfold expiry, remote. simpl.
    destruct (Nat.eqb_spec k 6); [lia|reflexivity].
Qed.

Lemma steady_sound : storeSound steady.
Proof. intros j. repeat split. Qed.

Lemma steady_retrieves idS : retrieves steady 9 idS snapshot.
Proof.
  intros w. exists "token", (step [EvToken idS] w).
  destruct (retrieval_serves steady pages fields 0 (remote_contracts _ _) (remote_renewals _ _)
              steady_serves pages_full idS 9 "token" (step [EvToken idS] w))
    as (w2 & Hrun); [discriminate|simpl; lia|].
  exists w2. split; [reflexivity|exact Hrun].
Qed.

Lemma steady_fetch_ends idS w : fetchAndConnect steady 9 idS w <> Diverge.
Proof.
  destruct (fetch_returns steady 9 idS snapshot steady_sound (steady_retrieves idS) w)
    as (w1 & ->). discriminate.
Qed.

Lemma snapshot_keyed : Forall keyed snapshot.
Proof. repeat constructor; eexists; reflexivity. Qed.

Lemma snapshot_distinct : NoDup (keysOf snapshot).
Proof. apply (bool_decide_unpack _). vm_compute. reflexivity. Qed.

End Scenarios.

(** C3 on the scenario: the credential expires on page 2 of 4 and the
    eight notes of pages 0 to 3 are returned. *)
Lemma resumable_pagination_witness :
  contractsActive Demo.expiry /\ renewalsSucceed Demo.expiry
  /\ servesPages Demo.expiry Demo.pages Demo.fields 7
  /\ Demo.pages <> [] /\ Forall (fun pg => pg <> []) Demo.pages
  /\ exists w', buscarCabecalhoNotaSankhya Demo.expiry 11 7 "token" 0 Demo.tokenObtained
                = Ret Demo.snapshot w'.
Proof.
  assert (H1 := remote_contracts (axiosPost Demo.expiry) Demo.noFault).
  assert (H2 := remote_renewals (axiosPost Demo.expiry) Demo.noFault).
  assert (H4 : Demo.pages <> []) by discriminate.
  split; [exact H1|]. split; [exact H2|]. split; [exact expiry_serves|].
  split; [exact H4|]. split; [exact pages_full|].
  apply (proj2 (resumable_pagination Demo.expiry Demo.pages Demo.fields 7 7
                  H1 H2 expiry_serves H4 pages_full) 11%nat "token" Demo.tokenObtained).
  simpl. lia.
Defined.

(** C4 on the scenario: an empty page whose indicator is true ends the
    loop. *)
Lemma pagination_stops_exactly_witness :
  moreFlag Demo.emptyButMore = true
  /\ exists st' w',
       tryCatch (tryPage Demo.hollow (mkLoop [] 0 true "token"))
                (onPageError Demo.hollow 7 (mkLoop [] 0 true "token")) Demo.start = Ret st' w'
       /\ hasMoreData st' = false
       /\ pageLoop Demo.hollow 1 7 (mkLoop [] 0 true "token") Demo.start = Ret st' w'.
Proof.
  split; [reflexivity|].
  destruct (pagination_stops_exactly Demo.hollow 7 (mkLoop [] 0 true "token") Demo.start true
              Demo.emptyButMore eq_refl eq_refl eq_refl)
    as (st' & w' & Hturn & _ & _ & Hempty & _ & Hloop).
  - intros entities H. inversion H. discriminate.
  - exists st', w'. split; [exact Hturn|]. split; [apply Hempty; reflexivity|].
    rewrite (Hloop 0%nat), (Hempty eq_refl). reflexivity.
Defined.

(** C6 on the scenario: every request is refused and the retrieval never
    returns. *)
Lemma auth_retry_is_unbounded_witness :
  contractsActive Demo.refused /\ renewalsSucceed Demo.refused
  /\ (forall fuel tok w, buscarCabecalhoNotaSankhya Demo.refused fuel 7 tok 0 w = Diverge).
Proof.
  assert (H1 := remote_contracts (axiosPost Demo.refused) Demo.noFault).
  assert (H2 := remote_renewals (axiosPost Demo.refused) Demo.noFault).
  split; [exact H1|]. split; [exact H2|].
  apply (proj2 (auth_retry_is_unbounded Demo.refused 7 H1 H2)).
  intros k url tok p. exists Demo.unauthorized. split; reflexivity.
Defined.

(** C6 as stated fails: with every request refused by a 401 and every
    renewal granted, no amount of fuel lets the retrieval return, and the
    renewals made by the turns of the loop on page 0 exceed any bound. *)
Lemma auth_retry_never_ends :
  ~ (exists fuel, buscarCabecalhoNotaSankhya Demo.refused fuel 7 "token" 0 Demo.start <> Diverge)
  /\ ~ (exists bound, forall n st' w',
           Turns Demo.refused 7 n (mkLoop [] 0 true "token") Demo.start st' w' ->
           (renewals (trace w') <= bound)%nat).
Proof.
  assert (H1 := remote_contracts (axiosPost Demo.refused) Demo.noFault).
  assert (H2 := remote_renewals (axiosPost Demo.refused) Demo.noFault).
  assert (H3 : forall k, authFailsAt Demo.refused k).
  { intros k url tok p. exists Demo.unauthorized. split; reflexivity. }
  split.
  - intros [fuel Hfuel]. apply Hfuel. rewrite buscar_unfold.
    rewrite (auth_forever Demo.refused H1 H2 7 H3); reflexivity.
  - intros [bound Hbound].
    destruct (auth_retries Demo.refused H1 H2 7 (S bound) (mkLoop [] 0 true "token") Demo.start
                eq_refl (fun j _ => H3 _)) as (novo & w' & Hturns & _ & Hren).
    specialize (Hbound _ _ _ Hturns). rewrite Hren in Hbound. simpl in Hbound. lia.
Qed.




(** C10 on two records that differ in a zero and an absent sale type. *)
Lemma falsy_fields_stored_as_null_witness :
  sameOrFalsy (JNum 0) JUndefined
  /\ forall n w,
       processRecord Demo.steady 7
         (mkCabecalho (JNum 1) (JNum 1100) (JNum 0) (JNum 5) JUndefined (JNum 10)
                      (JStr "2024-03-15") (JStr "V")) n w
       = processRecord Demo.steady 7 (Demo.plain 1) n w.
Proof.
  assert (H : sameOrFalsy (JNum 0) JUndefined) by (right; split; reflexivity).
  split; [exact H|]. intros n w.
  destruct (falsy_fields_stored_as_null Demo.steady 7) as (_ & _ & _ & _ & Hsame & _).
  apply Hsame; try reflexivity; try exact H; left; reflexivity.
Defined.


(** C1 on the scenario: after the sync the active rows of tenant 7 are the
    eight notes of the snapshot. *)
Lemma soft_delete_after_sync_witness :
  steadyRun = Ret (Demo.outcomeOf steadyRun) (Demo.finalOf steadyRun)
  /\ success (Demo.outcomeOf steadyRun) = true
  /\ forall k, activeAt (committed (Demo.finalOf steadyRun)) 7 k <-> k ∈ keysOf Demo.snapshot.
Proof.
  assert (H1 : steadyRun = Ret (Demo.outcomeOf steadyRun) (Demo.finalOf steadyRun))
    by (vm_compute; reflexivity).
  assert (H2 : success (Demo.outcomeOf steadyRun) = true) by (vm_compute; reflexivity).
  split; [exact H1|]. split; [exact H2|].
  destruct (soft_delete_after_sync Demo.steady 9 7 "ACME" Demo.start _ _ H1 H2)
    as (cs & w1 & Hfetch & _ & _ & Hexact & _).
  destruct (fetch_returns Demo.steady 9 7 Demo.snapshot steady_sound (steady_retrieves 7)
              Demo.start) as (w1' & Hfetch').
  rewrite Hfetch' in Hfetch. inversion Hfetch; subst cs. clear Hfetch.
  apply Hexact. vm_compute. reflexivity.
Defined.

(** C1 as stated fails: the snapshot holds note 1, which the mirror has
    as an active row; the store refuses its UPDATE; the sync succeeds and
    leaves the row of note 1 inactive. *)
Lemma skipped_record_is_not_active :
  exists r w' w1,
    sincronizarCabecalhoNotaPorEmpresa Demo.refusing 5 7 "ACME" Demo.mirrored = Ret r w'
    /\ success r = true
    /\ fetchAndConnect Demo.refusing 5 7 Demo.mirrored
       = Ret [mapEntity Demo.fields (Demo.nota 1)] w1
    /\ keysOf [mapEntity Demo.fields (Demo.nota 1)] = [1]
    /\ activeAt (committed Demo.mirrored) 7 1
    /\ inactiveAt (committed w') 7 1
    /\ ~ activeAt (committed w') 7 1.
Proof.
  eexists _, _, _. split; [vm_compute; reflexivity|]. split; [reflexivity|].
  split; [vm_compute; reflexivity|]. split; [reflexivity|]. split; [|split].
  - eexists. split; [vm_compute; reflexivity|reflexivity].
  - eexists. split; [vm_compute; reflexivity|reflexivity].
  - intros (row & Hrow & Hflag). vm_compute in Hrow. inversion Hrow; subst row.
    discriminate Hflag.
Qed.

(** C9 on the scenario: two runs against the eight notes. *)
Lemma sync_twice_idempotent_witness :
  storeSound Demo.steady /\ retrieves Demo.steady 9 7 Demo.snapshot
  /\ Forall keyed Demo.snapshot /\ NoDup (keysOf Demo.snapshot)
  /\ exists r1 w1 r2 w2,
       sincronizarCabecalhoNotaPorEmpresa Demo.steady 9 7 "ACME" Demo.start = Ret r1 w1
       /\ sincronizarCabecalhoNotaPorEmpresa Demo.steady 9 7 "ACME" w1 = Ret r2 w2
       /\ success r1 = true /\ success r2 = true
       /\ totalRegistros r2 = 8%nat
       /\ registrosInseridos r2 = 0%nat
       /\ registrosAtualizados r2 = 8%nat
       /\ activeCount (committed w1) 7 = 8%nat
       /\ activeCount (committed w2) 7 = 8%nat.
Proof.
  split; [exact steady_sound|]. split; [exact (steady_retrieves 7)|].
  split; [exact snapshot_keyed|]. split; [exact snapshot_distinct|].
  exact (sync_twice_idempotent Demo.steady 9 7 "ACME" Demo.snapshot Demo.start
           steady_sound (steady_retrieves 7) snapshot_keyed snapshot_distinct).
Defined.



(** * Further properties

    Properties of the same code beyond the ones above: what the
    reconciliation keeps whatever its outcome, the counts it reports, the
    edge cases of the retrieval and of the tenant lookup, the statistics
    and their route, and the calendar behind the date conversion. *)

(** ** The stale-marking *)

Section Marking.

Variable env : Env.
Variable idS : Z.

Lemma stale_spec (key : Z * Z) (r : MirrorRow) :
  stale idS key r = true <-> key.1 = idS /\ SANKHYA_ATUAL r = FlagS.
Proof.
  unfold stale. rewrite andb_true_iff, Z.eqb_eq.
  destruct (SANKHYA_ATUAL r); simpl; intuition congruence.
Qed.

Lemma stale_count (s : Store) :
  size (filter (fun kr : Z * Z * MirrorRow => stale idS kr.1 kr.2 = true) s) = activeCount s idS.
Proof.
  unfold activeCount. f_equal. apply map_filter_ext. intros key r _. simpl. apply stale_spec.
Qed.

Lemma marcar_returns w :
  fault env OpExecute (tick w) = None ->
  marcarTodosComoNaoAtuais env idS w = Ret (activeCount (working w) idS) (afterMark env idS w).
Proof.
  intros Hok. unfold marcarTodosComoNaoAtuais, dbCall. rewrite Hok.
  red_world. rewrite stale_count. reflexivity.
Qed.

Lemma none_active_count (s : Store) :
  (forall k, ~ activeAt s idS k) -> activeCount s idS = 0%nat.
Proof.
  intros Hnone. apply (activeCount_exact idS s []); [constructor|].
  intros j. split; [intros H; destruct (Hnone j H)|intros H; inversion H].
Qed.

End Marking.

(** X1.  The bulk stale-marking returns the number of rows of the tenant
    that were active, leaves none of them active, stamps each of them
    with the time of the statement, and changes nothing else: rows of
    other tenants, rows already inactive, the business fields and the
    creation time stay as they were, and no row appears or disappears. *)
Theorem stale_marking_effect (env : Env) (idS : Z) (w : World)
    (Hok : fault env OpExecute (tick w) = None) :
  exists w',
    marcarTodosComoNaoAtuais env idS w = Ret (activeCount (working w) idS) w'
    /\ committed w' = committed w
    /\ activeCount (working w') idS = 0%nat
    /\ (forall key, working w !! key = None -> working w' !! key = None)
    /\ (forall key r, working w !! key = Some r ->
          exists r',
            working w' !! key = Some r'
            /\ (rCODTIPOPER r', rCODTIPVENDA r', rCODPARC r', rCODVEND r', rVLRNOTA r',
                rDTNEG r', rTIPMOV r', DT_CRIACAO r')
               = (rCODTIPOPER r, rCODTIPVENDA r, rCODPARC r, rCODVEND r, rVLRNOTA r,
                  rDTNEG r, rTIPMOV r, DT_CRIACAO r)
            /\ (key.1 <> idS \/ SANKHYA_ATUAL r = FlagN -> r' = r)
            /\ (key.1 = idS -> SANKHYA_ATUAL r = FlagS ->
                SANKHYA_ATUAL r' = FlagN /\ DT_ULT_CARGA r' = now env (S (tick w)))).
Proof.
  exists (afterMark env idS w). split; [apply marcar_returns; exact Hok|].
  split; [reflexivity|]. unfold afterMark. red_world. split; [|split].
  - apply none_active_count. intros k. apply staleMarked_none_active.
  - intros key Hnone. rewrite staleMarked_lookup, Hnone. reflexivity.
  - intros key r Hr. rewrite staleMarked_lookup, Hr. simpl.
    destruct (stale idS key r) eqn:Hst.
    + apply stale_spec in Hst as [Hk Hf]. eexists. split; [reflexivity|].
      split; [reflexivity|]. split; [|intros _ _; split; reflexivity].
      intros [Hne|Hn]; congruence.
    + exists r. split; [reflexivity|]. split; [reflexivity|]. split; [reflexivity|].
      intros Hk Hf. assert (Ht : stale idS key r = true) by (apply stale_spec; auto).
      congruence.
Qed.

(** X1 on a mirror that holds note 1 of tenant 7, active. *)
Lemma stale_marking_effect_witness :
  fault Demo.steady OpExecute (tick (setWorking (committed Demo.mirrored) Demo.mirrored)) = None
  /\ exists w',
       marcarTodosComoNaoAtuais Demo.steady 7 (setWorking (committed Demo.mirrored) Demo.mirrored)
       = Ret 1%nat w'
       /\ activeCount (working w') 7 = 0%nat.
Proof.
  split; [reflexivity|].
  destruct (stale_marking_effect Demo.steady 7
              (setWorking (committed Demo.mirrored) Demo.mirrored) eq_refl)
    as (w' & Hrun & _ & Hzero & _).
  exists w'. split; [|exact Hzero].
  rewrite Hrun. f_equal.
Defined.

(** ** What holds of the mirror whatever the outcome *)

Section AllOutcomes.

Variable env : Env.
Variable idS : Z.

(** A property of the world kept by every record, by every commit that
    succeeds and by a call that only fails, holds of the world in which
    the upsert ends, however it ends. *)
Variable Q : World -> Prop.
Hypothesis Qrecord : forall c n w n' w',
  Q w -> processRecord env idS c n w = Ret n' w' -> Q w'.
Hypothesis Qcommit : forall w,
  fault env OpCommit (tick w) = None -> Q w -> Q (setCommitted (working w) (step [] w)).
Hypothesis Qstep : forall w, Q w -> Q (step [] w).
Hypothesis Qmark : forall w, Q w -> Q (afterMark env idS w).

Lemma processBatch_all : forall batch n w,
  Q w -> exists n' w', processBatch env idS batch n w = Ret n' w' /\ Q w'.
Proof.
  induction batch as [|c rest IH]; intros n w HQ.
  - exists n, w. split; [reflexivity|exact HQ].
  - destruct (processRecord_effect env idS c n w) as (n1 & w1 & Hrec & _).
    simpl. unfold bind. rewrite Hrec. apply IH. eapply Qrecord; [exact HQ|exact Hrec].
Qed.

Lemma upsertFrom_all cs : forall m i n w w',
  (length cs - i <= m)%nat ->
  Q w -> worldOf (upsertFrom env idS cs i n w) = Some w' -> Q w'.
Proof.
  induction m as [|m IH]; intros i n w w' Hm HQ; rewrite upsertFrom_loop;
    destruct (Nat.ltb_spec i (length cs)) as [Hlt|Hge]; try lia;
    try (intros H; inversion H; subst; exact HQ).
  destruct (processBatch_all (slice i (i + BATCH_SIZE) cs) n w HQ) as (n1 & w1 & -> & HQ1).
  destruct (commit_cases env w1) as [(e & Hf & ->)|(Hf & ->)].
  - intros H. inversion H; subst. apply Qstep. exact HQ1.
  - apply IH; [unfold BATCH_SIZE; lia|]. apply Qcommit; assumption.
Qed.

Lemma reconcile_all nome t0 cs w w' :
  Q w -> worldOf (reconcile env idS nome t0 cs w) = Some w' ->
  exists w'', Q w'' /\ committed w' = committed w''.
Proof.
  intros HQ. unfold reconcile, bind.
  destruct (marcar_cases env idS w) as [(e & _ & ->)|(_ & deleted & ->)].
  { intros H. inversion H; subst. eexists. split; [apply Qstep; exact HQ|reflexivity]. }
  unfold upsertCabecalhoNota.
  pose proof (upsertFrom_all cs (length cs) 0 (mkContagem 0 0) (afterMark env idS w)) as Hup.
  destruct (upsertFrom env idS cs 0 _ _) as [n wu|e wu|]; [| |discriminate].
  - specialize (Hup wu ltac:(lia) (Qmark w HQ) eq_refl).
    destruct (commit_cases env wu) as [(e & Hf & ->)|(Hf & ->)].
    + intros H. inversion H; subst. eexists. split; [apply Qstep; exact Hup|reflexivity].
    + unfold getNow.
      destruct (quietly_log env (setCommitted (working wu) (step [] wu))) as (w3 & -> & Hc3 & _).
      unfold ret. intros H. inversion H; subst.
      eexists. split; [apply Qcommit; [exact Hf|exact Hup]|exact Hc3].
  - specialize (Hup wu ltac:(lia) (Qmark w HQ) eq_refl).
    intros H. inversion H; subst. eexists. split; [exact Hup|reflexivity].
Qed.

End AllOutcomes.

Section SyncOutcomes.

Variable env : Env.
Variable idS : Z.

(** The retrieval and the connection leave the committed rows alone when
    they fail, too. *)
Lemma fetch_committed fuel w w1 :
  worldOf (fetchAndConnect env fuel idS w) = Some w1 -> committed w1 = committed w.
Proof.
  unfold fetchAndConnect, bind, obterToken, getOracleConnection, dbCall, ret.
  destruct (tokenSupplier env (tick w) idS) as [e|tok].
  { intros H. inversion H; subst. reflexivity. }
  destruct (buscarCabecalhoNotaSankhya env fuel idS tok 0 _) as [cs' w2|e w2|] eqn:Hb;
    [| |discriminate].
  - destruct (buscar_attempts env fuel idS 3 0 tok _ w2 eq_refl ltac:(rewrite Hb; reflexivity))
      as (_ & Hc & _).
    destruct (fault env OpConnect (tick w2)); intros H; inversion H; subst; simpl; exact Hc.
  - destruct (buscar_attempts env fuel idS 3 0 tok _ w2 eq_refl ltac:(rewrite Hb; reflexivity))
      as (_ & Hc & _).
    intros H. inversion H; subst. exact Hc.
Qed.

(** What every commit that succeeds keeps holds of the committed rows
    after a tenant sync, whatever its outcome. *)
Lemma sync_all (Q : World -> Prop) fuel nome w r w' :
  (forall c n w n' w', Q w -> processRecord env idS c n w = Ret n' w' -> Q w') ->
  (forall w, fault env OpCommit (tick w) = None -> Q w -> Q (setCommitted (working w) (step [] w))) ->
  (forall w, Q w -> Q (step [] w)) ->
  (forall w, Q w -> Q (afterMark env idS w)) ->
  (forall w1, committed w1 = committed w -> working w1 = committed w -> Q w1) ->
  sincronizarCabecalhoNotaPorEmpresa env fuel idS nome w = Ret r w' ->
  committed w' = committed w \/ exists w'', Q w'' /\ committed w' = committed w''.
Proof.
  intros Qrecord Qcommit Qstep Qmark Qstart. rewrite sync_stages.
  destruct (fetchAndConnect env fuel idS w) as [cs w1|e w1|] eqn:Hfetch; [| |discriminate].
  - destruct (fetch_stores env idS fuel w cs w1 Hfetch) as [Hc1 Hw1].
    pose proof (reconcile_all env idS Q Qrecord Qcommit Qstep Qmark nome (now env (tick w)) cs w1)
      as Hrec.
    unfold tryFinally, tryCatch.
    destruct (reconcile env idS nome (now env (tick w)) cs w1) as [r2 w2|e w2|] eqn:Hr.
    + destruct (Hrec w2 (Qstart w1 Hc1 Hw1) eq_refl) as (w'' & HQ & Hc).
      destruct (quietly_close env w2) as (w3 & -> & Hc3 & _).
      intros H. inversion H; subst. right. exists w''. split; [exact HQ|congruence].
    + destruct (Hrec w2 (Qstart w1 Hc1 Hw1) eq_refl) as (w'' & HQ & Hc).
      destruct (onFailure_returns env true idS nome (now env (tick w)) e w2)
        as (r3 & w3 & -> & _ & _ & _ & _ & _ & _ & _ & _ & Hc3).
      destruct (quietly_close env w3) as (w4 & -> & Hc4 & _).
      intros H. inversion H; subst. right. exists w''. split; [exact HQ|congruence].
    + exfalso. eapply reconcile_ends, Hr.
  - destruct (onFailure_returns env false idS nome (now env (tick w)) e w1)
      as (r3 & w3 & -> & _ & _ & _ & _ & _ & _ & _ & _ & Hc3).
    intros H. inversion H; subst. left.
    rewrite Hc3. apply (fetch_committed fuel w). rewrite Hfetch. reflexivity.
Qed.

(** A record changes the row of its own key at most. *)
Lemma processRecord_frame c n w n' w' :
  processRecord env idS c n w = Ret n' w' ->
  committed w' = committed w
  /\ ((working w' = working w /\ n' = n)
      \/ exists k row,
           keyOf (NUNOTA c) = Some k
           /\ working w' = <[(idS, k) := row]> (working w)
           /\ SANKHYA_ATUAL row = FlagS
           /\ carries c row
           /\ match working w !! (idS, k) with
              | Some old => DT_CRIACAO row = DT_CRIACAO old /\ inseridos n' = inseridos n
              | None => inseridos n' = S (inseridos n)
              end).
Proof.
  intros Hrun.
  destruct (processRecord_effect env idS c n w) as (n1 & w1 & Hrec & Heff).
  rewrite Hrun in Hrec. inversion Hrec; subst n1 w1. clear Hrec.
  assert (Hto : forall v, toDb (orNull v) = orNull v).
  { intros v. unfold orNull, truthy. destruct v as [| |z|s|[|]]; simpl; try reflexivity;
      match goal with |- context [negb ?x] => destruct (negb x) end; reflexivity. }
  inversion Heff; subst.
  - split; [assumption|]. right. exists k, (insertedRow (insertBinds c) ts).
    split; [assumption|]. split; [assumption|]. split; [reflexivity|]. split.
    + unfold carries. simpl. rewrite !Hto. repeat split.
    + rewrite H0. reflexivity.
  - split; [assumption|]. right. exists k, (updatedRow (updateBinds c) ts old).
    split; [assumption|]. split; [assumption|]. split; [reflexivity|]. split.
    + unfold carries. simpl. rewrite !Hto. repeat split.
    + rewrite H0. split; reflexivity.
  - split; [assumption|]. left. split; [assumption|reflexivity].
Qed.

End SyncOutcomes.

(** ** The counts of a sync and the rows it leaves *)

Section SyncInversion.

Variable env : Env.
Variable idS : Z.

(** A reconciliation that returns has run its bulk statement on the rows
    of the session and has seen its last commit succeed. *)
Lemma reconcile_ret nome t0 cs w r w2 :
  reconcile env idS nome t0 cs w = Ret r w2 ->
  registrosDeletados r = activeCount (working w) idS
  /\ exists wu, fault env OpCommit (tick wu) = None.
Proof.
  unfold reconcile, bind. intros Hrun.
  destruct (fault env OpExecute (tick w)) as [e|] eqn:Hf.
  { destruct (marcar_cases env idS w) as [(e' & _ & Hm)|(Hf' & _)]; [|congruence].
    rewrite Hm in Hrun. discriminate. }
  rewrite (marcar_returns env idS w Hf) in Hrun.
  destruct (upsertCabecalhoNota env idS cs (afterMark env idS w)) as [n wu|e wu|];
    [|discriminate|discriminate].
  destruct (commit_cases env wu) as [(e & _ & Hc)|(Hok & Hc)]; rewrite Hc in Hrun;
    [discriminate|].
  unfold getNow in Hrun.
  destruct (quietly_log env (setCommitted (working wu) (step [] wu))) as (w3 & Hlog & _).
  rewrite Hlog in Hrun. unfold ret in Hrun. inversion Hrun; subst. simpl.
  split; [reflexivity|]. exists wu. exact Hok.
Qed.

(** The stages of a sync that reports success. *)
Lemma sync_success_inv fuel nome w r w' :
  sincronizarCabecalhoNotaPorEmpresa env fuel idS nome w = Ret r w' ->
  success r = true ->
  exists cs w1 w2,
    fetchAndConnect env fuel idS w = Ret cs w1
    /\ committed w1 = committed w /\ working w1 = committed w
    /\ reconcile env idS nome (now env (tick w)) cs w1 = Ret r w2
    /\ committed w' = committed w2.
Proof.
  intros Hsync Hsuccess.
  assert (Hend : fetchAndConnect env fuel idS w <> Diverge).
  { intros Hd. rewrite sync_stages, Hd in Hsync. discriminate. }
  destruct (sync_returns env fuel idS nome w Hend) as (r0 & w0 & Hrun & _ & _ & _ & Hok).
  rewrite Hsync in Hrun. inversion Hrun; subst r0 w0.
  destruct (Hok Hsuccess) as (_ & cs & w1 & w2 & Hfetch & Hrec & Hc & _).
  destruct (fetch_stores env idS fuel w cs w1 Hfetch) as [Hc1 Hw1].
  exists cs, w1, w2. auto.
Qed.

Lemma staleMarked_size (ts : Z) (s : Store) : size (staleMarked idS ts s) = size s.
Proof.
  rewrite <- (size_dom (D := gset (Z * Z)) (staleMarked idS ts s)).
  rewrite <- (size_dom (D := gset (Z * Z)) s). f_equal.
  apply set_eq. intros key. rewrite !elem_of_dom, staleMarked_lookup.
  destruct (s !! key); simpl; split; intros [x Hx]; eauto; discriminate.
Qed.

End SyncInversion.

(** X2.  The count of deleted records that a successful sync reports is
    the number of rows of the tenant that were active before the run: the
    rows that the same run re-activates are counted, too. *)
Theorem deleted_counts_rows_active_before (env : Env) (fuel : nat) (idS : Z) (nome : string)
    (w : World) (r : SyncResult) (w' : World)
    (Hsync : sincronizarCabecalhoNotaPorEmpresa env fuel idS nome w = Ret r w')
    (Hsuccess : success r = true) :
  registrosDeletados r = activeCount (committed w) idS.
Proof.
  destruct (sync_success_inv env idS fuel nome w r w' Hsync Hsuccess)
    as (cs & w1 & w2 & _ & _ & Hw1 & Hrec & _).
  destruct (reconcile_ret env idS nome _ cs w1 r w2 Hrec) as [Hdel _].
  rewrite Hdel, Hw1. reflexivity.
Qed.

(** X3.  When nothing fails and the remote did not change, a second run
    leaves the same rows active and yet reports as many deleted records
    as the snapshot has records. *)
Theorem resync_reports_deletions (env : Env) (fuel : nat) (idS : Z) (nome : string)
    (snap : list CabecalhoNota) (w0 : World)
    (Hsound : storeSound env)
    (Hretrieves : retrieves env fuel idS snap)
    (Hkeyed : Forall keyed snap)
    (Hdistinct : NoDup (keysOf snap)) :
  exists r1 w1 r2 w2,
    sincronizarCabecalhoNotaPorEmpresa env fuel idS nome w0 = Ret r1 w1
    /\ sincronizarCabecalhoNotaPorEmpresa env fuel idS nome w1 = Ret r2 w2
    /\ success r2 = true
    /\ (forall j, activeAt (committed w2) idS j <-> activeAt (committed w1) idS j)
    /\ registrosDeletados r2 = length snap.
Proof.
  destruct (sync_keyed env fuel idS snap Hsound Hretrieves Hkeyed nome w0)
    as (r1 & w1 & Hrun1 & _ & _ & _ & _ & Hact1).
  destruct (sync_keyed env fuel idS snap Hsound Hretrieves Hkeyed nome w1)
    as (r2 & w2 & Hrun2 & Hs2 & _ & _ & _ & Hact2).
  exists r1, w1, r2, w2. split; [exact Hrun1|]. split; [exact Hrun2|]. split; [exact Hs2|].
  split; [intros j; rewrite Hact1, Hact2; reflexivity|].
  destruct (sync_success_inv env idS fuel nome w1 r2 w2 Hrun2 Hs2)
    as (cs & wa & wb & _ & _ & Hwa & Hrec & _).
  destruct (reconcile_ret env idS nome _ cs wa r2 wb Hrec) as [Hdel _].
  rewrite Hdel, Hwa, (activeCount_exact idS (committed w1) (keysOf snap) Hdistinct Hact1).
  apply keyed_length. exact Hkeyed.
Qed.

(** X4.  A tenant sync never touches the rows of another tenant, whatever
    its outcome. *)
Theorem other_tenants_untouched (env : Env) (fuel : nat) (idS : Z) (nome : string)
    (w : World) (r : SyncResult) (w' : World)
    (Hsync : sincronizarCabecalhoNotaPorEmpresa env fuel idS nome w = Ret r w') :
  forall key : Z * Z, key.1 <> idS -> committed w' !! key = committed w !! key.
Proof.
  intros key Hkey.
  destruct (sync_all env idS
              (fun w1 => committed w1 !! key = committed w !! key
                         /\ working w1 !! key = committed w !! key)
              fuel nome w r w') as [->|(w'' & [HQ _] & ->)];
    try exact Hsync; try reflexivity; try exact HQ.
  - intros c n wa n' wb [Hc Hw] Hrun.
    destruct (processRecord_frame env idS c n wa n' wb Hrun)
      as (Hcom & [[Hsame _]|(k & row & _ & Hput & _)]).
    + rewrite Hcom, Hsame. auto.
    + rewrite Hcom, Hput, lookup_insert_ne; [auto|]. intros <-. apply Hkey. reflexivity.
  - intros wa _ [_ Hw]. simpl. auto.
  - intros wa H. exact H.
  - intros wa [Hc Hw]. unfold afterMark. simpl. split; [exact Hc|].
    rewrite staleMarked_lookup. unfold stale.
    destruct (Z.eqb_spec key.1 idS) as [He|_]; [contradiction|]. simpl.
    rewrite <- Hw. destruct (working wa !! key); reflexivity.
  - intros wa Hc Hw. rewrite Hc, Hw. auto.
Qed.

(** A row of the mirror is still there after a tenant sync, with its
    creation time. *)
Lemma sync_keeps_rows (env : Env) (fuel : nat) (idS : Z) (nome : string)
    (w : World) (r : SyncResult) (w' : World) (key : Z * Z) (row : MirrorRow) :
  sincronizarCabecalhoNotaPorEmpresa env fuel idS nome w = Ret r w' ->
  committed w !! key = Some row ->
  exists row', committed w' !! key = Some row' /\ DT_CRIACAO row' = DT_CRIACAO row.
Proof.
  intros Hsync Hrow.
  pose (R := fun s : Store => exists row', s !! key = Some row' /\ DT_CRIACAO row' = DT_CRIACAO row).
  assert (H0 : R (committed w)) by (exists row; auto).
  destruct (sync_all env idS (fun w1 => R (committed w1) /\ R (working w1))
              fuel nome w r w') as [->|(w'' & [HQ _] & ->)];
    try exact Hsync; try exact H0; try exact HQ.
  - intros c n wa n' wb [Hc Hw] Hrun.
    destruct (processRecord_frame env idS c n wa n' wb Hrun)
      as (Hcom & [[Hsame _]|(k & new & _ & Hput & _ & _ & Hold)]).
    + rewrite Hcom, Hsame. auto.
    + rewrite Hcom. split; [exact Hc|]. destruct Hw as (old & Hold' & Hcr).
      unfold R. rewrite Hput. destruct (decide ((idS, k) = key)) as [<-|Hne].
      * rewrite lookup_insert_eq. rewrite Hold' in Hold. destruct Hold as [Hkeep _].
        exists new. split; [reflexivity|congruence].
      * rewrite lookup_insert_ne by exact Hne. exists old. auto.
  - intros wa _ [_ Hw]. simpl. auto.
  - intros wa H. exact H.
  - intros wa [Hc Hw]. unfold afterMark. simpl. split; [exact Hc|].
    destruct Hw as (old & Hold & Hcr). unfold R. rewrite staleMarked_lookup, Hold. simpl.
    eexists. split; [reflexivity|]. destruct (stale idS key old); simpl; exact Hcr.
  - intros wa Hc Hw. rewrite Hc, Hw. auto.
Qed.


(** X5.  A tenant sync never removes a row and never changes the creation
    time of a row, whatever its outcome: the soft delete is the only
    deletion, and the table never shrinks. *)
Theorem rows_are_never_removed (env : Env) (fuel : nat) (idS : Z) (nome : string)
    (w : World) (r : SyncResult) (w' : World)
    (Hsync : sincronizarCabecalhoNotaPorEmpresa env fuel idS nome w = Ret r w') :
  (forall key row, committed w !! key = Some row ->
     exists row', committed w' !! key = Some row' /\ DT_CRIACAO row' = DT_CRIACAO row)
  /\ (size (committed w) <= size (committed w'))%nat.
Proof.
  assert (Hkeep : forall key row, committed w !! key = Some row ->
            exists row', committed w' !! key = Some row' /\ DT_CRIACAO row' = DT_CRIACAO row).
  { intros key row. apply (sync_keeps_rows env fuel idS nome w r w' key row Hsync). }
  split; [exact Hkeep|].
  rewrite <- (size_dom (D := gset (Z * Z)) (committed w)).
  rewrite <- (size_dom (D := gset (Z * Z)) (committed w')).
  apply subseteq_size. intros key Hkey. apply elem_of_dom in Hkey as [row Hrow].
  destruct (Hkeep key row Hrow) as (row' & Hrow' & _). apply elem_of_dom. eauto.
Qed.

(** X6.  Rows are published by a commit only: when every commit fails the
    sync reports a failure and the committed rows are what they were. *)
Theorem nothing_published_without_commit (env : Env) (fuel : nat) (idS : Z) (nome : string)
    (w : World) (r : SyncResult) (w' : World)
    (Hnc : forall j, fault env OpCommit j <> None)
    (Hsync : sincronizarCabecalhoNotaPorEmpresa env fuel idS nome w = Ret r w') :
  success r = false /\ committed w' = committed w.
Proof.
  split.
  - destruct (success r) eqn:Hs; [exfalso|reflexivity].
    destruct (sync_success_inv env idS fuel nome w r w' Hsync Hs)
      as (cs & w1 & w2 & _ & _ & _ & Hrec & _).
    destruct (reconcile_ret env idS nome _ cs w1 r w2 Hrec) as [_ [wu Hok]].
    exact (Hnc _ Hok).
  - destruct (sync_all env idS (fun w1 => committed w1 = committed w) fuel nome w r w')
      as [H|(w'' & HQ & H)]; [| | | | |exact Hsync|exact H|congruence].
    + intros c n wa n' wb Hc Hrun.
      destruct (processRecord_frame env idS c n wa n' wb Hrun) as (Hcom & _). congruence.
    + intros wa Hok _. destruct (Hnc _ Hok).
    + intros wa H. exact H.
    + intros wa H. exact H.
    + intros wa Hc _. exact Hc.
Qed.

(** X7.  The count of inserted records that a successful sync reports is
    the growth of the mirror table. *)
Theorem inserted_is_table_growth (env : Env) (fuel : nat) (idS : Z) (nome : string)
    (w : World) (r : SyncResult) (w' : World)
    (Hsync : sincronizarCabecalhoNotaPorEmpresa env fuel idS nome w = Ret r w')
    (Hsuccess : success r = true) :
  size (committed w') = (size (committed w) + registrosInseridos r)%nat.
Proof.
  destruct (sync_success_inv env idS fuel nome w r w' Hsync Hsuccess)
    as (cs & w1 & w2 & _ & _ & Hw1 & Hrec & Hc).
  destruct (reconcile_inversion env idS nome (now env (tick w)) cs w1 r w2
              (fun _ n wa => size (working wa) = (size (committed w) + inseridos n)%nat))
    as (n & wu & HP & _ & _ & _ & _ & _ & Hi & _ & Hcu & _); try exact Hrec.
  - intros k c n wa n' wb _ HP Hrun.
    destruct (processRecord_frame env idS c n wa n' wb Hrun)
      as (_ & [[Hsame Hn]|(j & row & _ & Hput & _ & _ & Hold)]).
    + rewrite Hsame, Hn. exact HP.
    + rewrite Hput. destruct (working wa !! (idS, j)) as [old|] eqn:Hrow.
      * destruct Hold as [_ Hn]. rewrite map_size_insert_Some by (rewrite Hrow; eauto). rewrite Hn. exact HP.
      * rewrite map_size_insert_None by exact Hrow. rewrite Hold, HP. lia.
  - intros k n wa HP. exact HP.
  - unfold afterMark. simpl. rewrite staleMarked_size, Hw1. lia.
  - rewrite Hc, Hcu, HP, Hi. reflexivity.
Qed.

(** X8.  After a successful sync every row flagged active for the tenant
    holds the values of a record of the snapshot with the row's
    identifier: the sale type, the seller and the value (null when falsy)
    and the converted date. *)
Theorem active_rows_carry_snapshot (env : Env) (fuel : nat) (idS : Z) (nome : string)
    (w : World) (r : SyncResult) (w' : World)
    (Hsync : sincronizarCabecalhoNotaPorEmpresa env fuel idS nome w = Ret r w')
    (Hsuccess : success r = true) :
  exists cs w1,
    fetchAndConnect env fuel idS w = Ret cs w1
    /\ forall j row,
         committed w' !! (idS, j) = Some row -> SANKHYA_ATUAL row = FlagS ->
         exists c, c ∈ cs /\ keyOf (NUNOTA c) = Some j /\ carries c row.
Proof.
  destruct (sync_success_inv env idS fuel nome w r w' Hsync Hsuccess)
    as (cs & w1 & w2 & Hfetch & _ & Hw1 & Hrec & Hc).
  exists cs, w1. split; [exact Hfetch|].
  destruct (reconcile_inversion env idS nome (now env (tick w)) cs w1 r w2
              (fun k _ wa => forall j row,
                 working wa !! (idS, j) = Some row -> SANKHYA_ATUAL row = FlagS ->
                 exists c, c ∈ take k cs /\ keyOf (NUNOTA c) = Some j /\ carries c row))
    as (n & wu & HP & _ & _ & _ & _ & _ & _ & _ & Hcu & _); try exact Hrec.
  - intros k c n wa n' wb Hk HP Hrun j row Hrow Hflag.
    rewrite (take_S_r _ _ _ Hk).
    destruct (processRecord_frame env idS c n wa n' wb Hrun)
      as (_ & [[Hsame _]|(i & new & Hkey & Hput & _ & Hcar & _)]).
    + rewrite Hsame in Hrow. destruct (HP j row Hrow Hflag) as (c0 & Hin & H).
      exists c0. split; [apply elem_of_app; left; exact Hin|exact H].
    + rewrite Hput in Hrow. destruct (decide (i = j)) as [->|Hne].
      * rewrite lookup_insert_eq in Hrow. inversion Hrow; subst new.
        exists c. split; [apply elem_of_app; right; apply list_elem_of_singleton; reflexivity|].
        auto.
      * rewrite lookup_insert_ne in Hrow by congruence.
        destruct (HP j row Hrow Hflag) as (c0 & Hin & H).
        exists c0. split; [apply elem_of_app; left; exact Hin|exact H].
  - intros k n wa HP. exact HP.
  - intros j row Hrow Hflag. exfalso.
    eapply (staleMarked_none_active idS). exists row. split; [exact Hrow|exact Hflag].
  - intros j row Hrow Hflag. rewrite Hc, Hcu in Hrow.
    rewrite firstn_all in HP. exact (HP j row Hrow Hflag).
Qed.

(** X2 on a mirror in which note 1 is active: it is counted as deleted
    though the run re-activates it. *)
Lemma deleted_counts_rows_active_before_witness :
  Cases.mirroredRun = Ret (Demo.outcomeOf Cases.mirroredRun) (Demo.finalOf Cases.mirroredRun)
  /\ success (Demo.outcomeOf Cases.mirroredRun) = true
  /\ registrosDeletados (Demo.outcomeOf Cases.mirroredRun) = 1%nat
  /\ activeAt (committed (Demo.finalOf Cases.mirroredRun)) 7 1.
Proof.
  assert (H1 : Cases.mirroredRun
               = Ret (Demo.outcomeOf Cases.mirroredRun) (Demo.finalOf Cases.mirroredRun))
    by (vm_compute; reflexivity).
  assert (H2 : success (Demo.outcomeOf Cases.mirroredRun) = true) by (vm_compute; reflexivity).
  split; [exact H1|]. split; [exact H2|]. split.
  - rewrite (deleted_counts_rows_active_before Demo.steady 9 7 "ACME" Demo.mirrored _ _ H1 H2).
    vm_compute. reflexivity.
  - eexists. split; [vm_compute; reflexivity|reflexivity].
Defined.

(** X3 on the scenario: the second run reports 8 deleted records. *)
Lemma resync_reports_deletions_witness :
  storeSound Demo.steady /\ retrieves Demo.steady 9 7 Demo.snapshot
  /\ Forall keyed Demo.snapshot /\ NoDup (keysOf Demo.snapshot)
  /\ exists r1 w1 r2 w2,
       sincronizarCabecalhoNotaPorEmpresa Demo.steady 9 7 "ACME" Demo.start = Ret r1 w1
       /\ sincronizarCabecalhoNotaPorEmpresa Demo.steady 9 7 "ACME" w1 = Ret r2 w2
       /\ success r2 = true
       /\ (forall j, activeAt (committed w2) 7 j <-> activeAt (committed w1) 7 j)
       /\ registrosDeletados r2 = 8%nat.
Proof.
  split; [exact steady_sound|]. split; [exact (steady_retrieves 7)|].
  split; [exact snapshot_keyed|]. split; [exact snapshot_distinct|].
  exact (resync_reports_deletions Demo.steady 9 7 "ACME" Demo.snapshot Demo.start
           steady_sound (steady_retrieves 7) snapshot_keyed snapshot_distinct).
Defined.

(** X4 on a mirror shared by tenants 7 and 8: the sync of tenant 7 leaves
    the row of tenant 8 as it was. *)
Lemma other_tenants_untouched_witness :
  Cases.sharedRun = Ret (Demo.outcomeOf Cases.sharedRun) (Demo.finalOf Cases.sharedRun)
  /\ (8, 1).1 <> 7
  /\ committed (Demo.finalOf Cases.sharedRun) !! (8, 1) = Some Demo.row1.
Proof.
  assert (H1 : Cases.sharedRun
               = Ret (Demo.outcomeOf Cases.sharedRun) (Demo.finalOf Cases.sharedRun))
    by (vm_compute; reflexivity).
  assert (H2 : (8, 1).1 <> 7) by (simpl; lia).
  split; [exact H1|]. split; [exact H2|].
  rewrite (other_tenants_untouched Demo.steady 9 7 "ACME" Cases.shared _ _ H1 (8, 1) H2).
  vm_compute. reflexivity.
Defined.

(** X5 on the mirror that holds note 1, created at time 0. *)
Lemma rows_are_never_removed_witness :
  Cases.mirroredRun = Ret (Demo.outcomeOf Cases.mirroredRun) (Demo.finalOf Cases.mirroredRun)
  /\ committed Demo.mirrored !! (7, 1) = Some Demo.row1
  /\ exists row', committed (Demo.finalOf Cases.mirroredRun) !! (7, 1) = Some row'
                  /\ DT_CRIACAO row' = 0.
Proof.
  assert (H1 : Cases.mirroredRun
               = Ret (Demo.outcomeOf Cases.mirroredRun) (Demo.finalOf Cases.mirroredRun))
    by (vm_compute; reflexivity).
  assert (H2 : committed Demo.mirrored !! (7, 1) = Some Demo.row1) by (vm_compute; reflexivity).
  split; [exact H1|]. split; [exact H2|].
  exact (proj1 (rows_are_never_removed Demo.steady 9 7 "ACME" Demo.mirrored _ _ H1)
           (7, 1) Demo.row1 H2).
Defined.

(** X6 on a store that refuses every commit. *)
Lemma nothing_published_without_commit_witness :
  (forall j, fault Cases.commitless OpCommit j <> None)
  /\ Cases.commitlessRun
     = Ret (Demo.outcomeOf Cases.commitlessRun) (Demo.finalOf Cases.commitlessRun)
  /\ success (Demo.outcomeOf Cases.commitlessRun) = false
  /\ committed (Demo.finalOf Cases.commitlessRun) = committed Demo.mirrored.
Proof.
  assert (H1 : forall j, fault Cases.commitless OpCommit j <> None) by (intros j; discriminate).
  assert (H2 : Cases.commitlessRun
               = Ret (Demo.outcomeOf Cases.commitlessRun) (Demo.finalOf Cases.commitlessRun))
    by (vm_compute; reflexivity).
  split; [exact H1|]. split; [exact H2|].
  exact (nothing_published_without_commit Cases.commitless 9 7 "ACME" Demo.mirrored _ _ H1 H2).
Defined.

(** X7 on the mirror that holds note 1: seven of the eight notes are new. *)
Lemma inserted_is_table_growth_witness :
  Cases.mirroredRun = Ret (Demo.outcomeOf Cases.mirroredRun) (Demo.finalOf Cases.mirroredRun)
  /\ success (Demo.outcomeOf Cases.mirroredRun) = true
  /\ registrosInseridos (Demo.outcomeOf Cases.mirroredRun) = 7%nat
  /\ size (committed (Demo.finalOf Cases.mirroredRun)) = (1 + 7)%nat.
Proof.
  assert (H1 : Cases.mirroredRun
               = Ret (Demo.outcomeOf Cases.mirroredRun) (Demo.finalOf Cases.mirroredRun))
    by (vm_compute; reflexivity).
  assert (H2 : success (Demo.outcomeOf Cases.mirroredRun) = true) by (vm_compute; reflexivity).
  assert (H3 : registrosInseridos (Demo.outcomeOf Cases.mirroredRun) = 7%nat)
    by (vm_compute; reflexivity).
  split; [exact H1|]. split; [exact H2|]. split; [exact H3|].
  rewrite (inserted_is_table_growth Demo.steady 9 7 "ACME" Demo.mirrored _ _ H1 H2), H3.
  reflexivity.
Defined.

(** X8 on the mirror that holds note 1. *)
Lemma active_rows_carry_snapshot_witness :
  Cases.mirroredRun = Ret (Demo.outcomeOf Cases.mirroredRun) (Demo.finalOf Cases.mirroredRun)
  /\ success (Demo.outcomeOf Cases.mirroredRun) = true
  /\ exists cs w1,
       fetchAndConnect Demo.steady 9 7 Demo.mirrored = Ret cs w1
       /\ forall j row,
            committed (Demo.finalOf Cases.mirroredRun) !! (7, j) = Some row ->
            SANKHYA_ATUAL row = FlagS ->
            exists c, c ∈ cs /\ keyOf (NUNOTA c) = Some j /\ carries c row.
Proof.
  assert (H1 : Cases.mirroredRun
               = Ret (Demo.outcomeOf Cases.mirroredRun) (Demo.finalOf Cases.mirroredRun))
    by (vm_compute; reflexivity).
  assert (H2 : success (Demo.outcomeOf Cases.mirroredRun) = true) by (vm_compute; reflexivity).
  split; [exact H1|]. split; [exact H2|].
  exact (active_rows_carry_snapshot Demo.steady 9 7 "ACME" Demo.mirrored _ _ H1 H2).
Defined.

(** ** The two statements of the upsert *)

Section RecordTwice.

Variable env : Env.
Variable idS : Z.
Hypothesis Hexec : forall j, fault env OpExecute j = None.

(** Without a failing statement, a record with a numeric identifier is
    inserted when its row is missing and updated when it is there. *)
Lemma processRecord_sound c n w k :
  keyOf (NUNOTA c) = Some k ->
  exists n' w' ts,
    processRecord env idS c n w = Ret n' w'
    /\ match working w !! (idS, k) with
       | None =>
           working w' = <[(idS, k) := insertedRow (insertBinds c) ts]> (working w)
           /\ n' = mkContagem (S (inseridos n)) (atualizados n)
       | Some old =>
           working w' = <[(idS, k) := updatedRow (updateBinds c) ts old]> (working w)
           /\ n' = mkContagem (inseridos n) (S (atualizados n))
       end.
Proof.
  intros Hk.
  destruct (processRecord_effect env idS c n w) as (n' & w' & Hrun & Heff).
  destruct (processRecord_keyed env idS c n w k Hexec Hk) as (n1 & w1 & Hrun1 & Hcount & _).
  rewrite Hrun in Hrun1. inversion Hrun1; subst n1 w1. clear Hrun1.
  exists n', w'. inversion Heff; subst.
  - exists ts. split; [exact Hrun|]. rewrite Hk in H. inversion H; subst k0.
    rewrite H0. auto.
  - exists ts. split; [exact Hrun|]. rewrite Hk in H. inversion H; subst k0.
    rewrite H0. auto.
  - lia.
Qed.

End RecordTwice.

(** X9.  The two statements do not bind the same values: the INSERT stores
    a falsy operation type, partner or movement type as null, the UPDATE
    stores it as it is.  A record synced twice is inserted and then
    updated, and its row changes in these fields when they are falsy and
    not null, as for an operation type 0; the other business fields and
    the creation time stay the same. *)
Theorem insert_and_update_bind_differently (env : Env) (idS : Z) (c : CabecalhoNota) (k : Z)
    (n : Contagem) (w : World)
    (Hexec : forall j, fault env OpExecute j = None)
    (Hkey : keyOf (NUNOTA c) = Some k)
    (Hnew : working w !! (idS, k) = None) :
  exists n1 w1 n2 w2 r1 r2,
    processRecord env idS c n w = Ret n1 w1
    /\ processRecord env idS c n1 w1 = Ret n2 w2
    /\ n2 = mkContagem (S (inseridos n)) (S (atualizados n))
    /\ working w1 !! (idS, k) = Some r1
    /\ working w2 !! (idS, k) = Some r2
    /\ (rCODTIPOPER r1, rCODPARC r1, rTIPMOV r1)
       = (toDb (orNull (CODTIPOPER c)), toDb (orNull (CODPARC c)), toDb (orNull (TIPMOV c)))
    /\ (rCODTIPOPER r2, rCODPARC r2, rTIPMOV r2)
       = (toDb (CODTIPOPER c), toDb (CODPARC c), toDb (TIPMOV c))
    /\ (rCODTIPVENDA r2, rCODVEND r2, rVLRNOTA r2, rDTNEG r2, DT_CRIACAO r2)
       = (rCODTIPVENDA r1, rCODVEND r1, rVLRNOTA r1, rDTNEG r1, DT_CRIACAO r1)
    /\ (CODTIPOPER c = JNum 0 -> rCODTIPOPER r1 = JNull /\ rCODTIPOPER r2 = JNum 0).
Proof.
  destruct (processRecord_sound env idS Hexec c n w k Hkey) as (n1 & w1 & ts1 & Hrun1 & H1).
  rewrite Hnew in H1. destruct H1 as [Hw1 ->].
  destruct (processRecord_sound env idS Hexec c (mkContagem (S (inseridos n)) (atualizados n))
              w1 k Hkey) as (n2 & w2 & ts2 & Hrun2 & H2).
  rewrite Hw1, lookup_insert_eq in H2. destruct H2 as [Hw2 ->]. rewrite <- Hw1 in Hw2.
  eexists _, w1, _, w2, _, _. split; [exact Hrun1|]. split; [exact Hrun2|].
  split; [reflexivity|]. split; [rewrite Hw1; apply lookup_insert_eq|].
  split; [rewrite Hw2; apply lookup_insert_eq|].
  split; [reflexivity|]. split; [reflexivity|]. split; [reflexivity|].
  intros H0. simpl. rewrite H0. split; reflexivity.
Qed.

(** X9 on a note with operation type 0. *)
Lemma insert_and_update_bind_differently_witness :
  (forall j, fault Demo.steady OpExecute j = None)
  /\ keyOf (NUNOTA Cases.zeroOper) = Some 1
  /\ working Demo.start !! (7, 1) = None
  /\ exists n1 w1 n2 w2 r1 r2,
       processRecord Demo.steady 7 Cases.zeroOper (mkContagem 0 0) Demo.start = Ret n1 w1
       /\ processRecord Demo.steady 7 Cases.zeroOper n1 w1 = Ret n2 w2
       /\ working w1 !! (7, 1) = Some r1
       /\ working w2 !! (7, 1) = Some r2
       /\ rCODTIPOPER r1 = JNull /\ rCODTIPOPER r2 = JNum 0.
Proof.
  assert (H1 : forall j, fault Demo.steady OpExecute j = None) by reflexivity.
  assert (H2 : keyOf (NUNOTA Cases.zeroOper) = Some 1) by reflexivity.
  assert (H3 : working Demo.start !! (7, 1) = None) by reflexivity.
  split; [exact H1|]. split; [exact H2|]. split; [exact H3|].
  destruct (insert_and_update_bind_differently Demo.steady 7 Cases.zeroOper 1 (mkContagem 0 0)
              Demo.start H1 H2 H3)
    as (n1 & w1 & n2 & w2 & r1 & r2 & Ha & Hb & _ & Hc & Hd & _ & _ & _ & He).
  exists n1, w1, n2, w2, r1, r2. repeat (split; [assumption|]). exact (He eq_refl).
Defined.

(** ** The retrieval: retries and the missing contract *)

Section Recovery.

Variable env : Env.
Variable pages : list (list RawEntity).
Variable fieldNames : list string.
Variable T : nat.
Hypothesis Hcontracts : contractsActive env.
Hypothesis Hlate : servesFrom env pages fieldNames T.
Hypothesis Hfull : Forall (fun pg => pg <> []) pages.

(** Once the remote answers, the loop gathers the pages from [p] on. *)
Lemma pageLoop_steady idS : forall fuel p acc tok w,
  (T <= S (tick w))%nat ->
  (p < length pages)%nat ->
  (length pages - p <= fuel)%nat ->
  exists w',
    pageLoop env fuel idS (mkLoop acc p true tok) w
    = Ret (mkLoop (acc ++ map (mapEntity fieldNames) (concat (drop p pages)))
                  (length pages - 1) false tok) w'.
Proof.
  induction fuel as [|fuel IH]; intros p acc tok w HT Hp Hfuel; [lia|].
  rewrite pageLoop_S by reflexivity.
  destruct (Hcontracts (tick w)) as [sb Hsb].
  destruct (lookup_lt_is_Some_2 pages p Hp) as [pg Hpg].
  assert (Hne : pg <> []).
  { eapply (proj1 (Forall_lookup _ _) Hfull); eauto. }
  set (st := mkLoop acc p true tok).
  pose proof (Hlate (S (tick w)) (urlOf sb) tok p HT) as Hok.
  pose proof (tryPage_response env st w sb _ Hsb Hok (pageOf_wellFormed pages fieldNames p))
    as Hturn.
  cbv zeta in Hturn. rewrite pageOf_records, pageOf_more, Hpg in Hturn. simpl default in Hturn.
  rewrite length_map in Hturn.
  assert (Hlen : (length pg =? 0)%nat = false).
  { apply Nat.eqb_neq. destruct pg; simpl; [congruence|lia]. }
  rewrite Hlen in Hturn. simpl orb in Hturn.
  unfold tryCatch. rewrite (drop_S _ _ _ Hpg). simpl concat. rewrite map_app, app_assoc.
  destruct (Nat.ltb_spec (S p) (length pages)) as [Hlt|Hge]; simpl negb in Hturn;
    cbv iota in Hturn; rewrite Hturn.
  - destruct (IH (S p) (acc ++ map (mapEntity fieldNames) pg)%list tok
                 (emit (EvSleep 500) (afterPost sb st w))) as (w' & Hloop).
    + simpl. lia.
    + exact Hlt.
    + lia.
    + exists w'. exact Hloop.
  - eexists. rewrite pageLoop_done by reflexivity.
    rewrite drop_ge by lia. simpl. rewrite app_nil_r.
    replace (length pages - 1)%nat with p by lia. reflexivity.
Qed.

End Recovery.

(** X10.  A retry of the retrieval starts again from page 0 with an empty
    list: when an attempt fails with an error of the retried class and
    the remote answers from then on, the retrieval returns the records of
    all pages, each once, whatever the failed attempt had gathered, after
    one more attempt. *)
Theorem retry_restarts_from_first_page (env : Env) (pages : list (list RawEntity))
    (fieldNames : list string) (idS : Z) (fuel : nat) (tok : string) (retryCount : nat)
    (w : World) (e : JsError) (w1 : World)
    (Hcontracts : contractsActive env)
    (Hsome : pages <> []) (Hfull : Forall (fun pg => pg <> []) pages)
    (Hfails : pageLoop env fuel idS (mkLoop [] 0 true tok) (emit (EvAttempt retryCount) w)
              = Throw e w1)
    (Htransient : isTransient e = true) (Hauth : isAuthError e = false)
    (Hleft : (retryCount < MAX_RETRIES - 1)%nat)
    (Hlate : servesFrom env pages fieldNames (tick w1))
    (Hfuel : (length pages <= fuel)%nat) :
  exists w',
    buscarCabecalhoNotaSankhya env fuel idS tok retryCount w
    = Ret (map (mapEntity fieldNames) (concat pages)) w'
    /\ attempts (trace w') = (attempts (trace w) + 2)%nat.
Proof.
  rewrite buscar_unfold, Hfails, Htransient, Hauth.
  destruct (Nat.ltb_spec retryCount (MAX_RETRIES - 1)) as [_|Hge]; [|lia]. simpl andb. cbv iota.
  rewrite buscar_unfold.
  set (w2 := emit (EvAttempt (retryCount + 1))
               (emit (EvSleep (RETRY_DELAY * (Z.of_nat retryCount + 1))) w1)).
  destruct (pageLoop_steady env pages fieldNames (tick w1) Hcontracts Hlate Hfull idS
              fuel 0%nat [] tok w2) as (w' & Hloop).
  - simpl. lia.
  - destruct pages; [congruence|simpl; lia].
  - lia.
  - pose proof (pageLoop_quiet env idS fuel (mkLoop [] 0 true tok) (emit (EvAttempt retryCount) w))
      as Hq1.
    rewrite Hfails in Hq1. apply quiet_attempts in Hq1.
    pose proof (pageLoop_quiet env idS fuel (mkLoop [] 0 true tok) w2) as Hq2.
    rewrite Hloop in Hq2. apply quiet_attempts in Hq2.
    rewrite Hloop. exists w'. split; [reflexivity|].
    rewrite Hq2. unfold w2. simpl trace. rewrite !attempts_app, Hq1. simpl trace.
    rewrite attempts_app.
    change (attempts [EvAttempt retryCount]) with 1%nat.
    change (attempts [EvSleep (RETRY_DELAY * (Z.of_nat retryCount + 1))]) with 0%nat.
    change (attempts [EvAttempt (retryCount + 1)]) with 1%nat. lia.
Qed.

(** X10 on the scenario: the first attempt gathers pages 0 and 1 and times
    out on page 2; the second returns the eight notes. *)
Lemma retry_restarts_from_first_page_witness :
  contractsActive Cases.flaky
  /\ Demo.pages <> [] /\ Forall (fun pg => pg <> []) Demo.pages
  /\ isTransient Demo.timedOut = true /\ isAuthError Demo.timedOut = false
  /\ (0 < MAX_RETRIES - 1)%nat
  /\ servesFrom Cases.flaky Demo.pages Demo.fields 7
  /\ (length Demo.pages <= 9)%nat
  /\ exists w',
       buscarCabecalhoNotaSankhya Cases.flaky 9 7 "token" 0 Demo.tokenObtained
       = Ret Demo.snapshot w'
       /\ attempts (trace w') = 2%nat.
Proof.
  assert (H1 := remote_contracts (axiosPost Cases.flaky) Demo.noFault).
  assert (H2 : Demo.pages <> []) by discriminate.
  assert (H3 : isTransient Demo.timedOut = true) by reflexivity.
  assert (H4 : isAuthError Demo.timedOut = false) by reflexivity.
  assert (H5 : (0 < MAX_RETRIES - 1)%nat) by (unfold MAX_RETRIES; lia).
  assert (H6 : servesFrom Cases.flaky Demo.pages Demo.fields 7).
  { intros k url tok p Hk. simpl.
    destruct (Nat.eqb_spec k 6) as [->|_]; [lia|reflexivity]. }
  assert (H7 : (length Demo.pages <= 9)%nat) by (simpl; lia).
  assert (H8 : pageLoop Cases.flaky 9 7 (mkLoop [] 0 true "token")
                 (emit (EvAttempt 0) Demo.tokenObtained)
               = Throw Demo.timedOut
                   (Demo.finalOf (pageLoop Cases.flaky 9 7 (mkLoop [] 0 true "token")
                                    (emit (EvAttempt 0) Demo.tokenObtained))))
    by (vm_compute; reflexivity).
  split; [exact H1|]. split; [exact H2|]. split; [exact pages_full|]. split; [exact H3|].
  split; [exact H4|]. split; [exact H5|]. split; [exact H6|]. split; [exact H7|].
  exact (retry_restarts_from_first_page Cases.flaky Demo.pages Demo.fields 7 9 "token" 0
           Demo.tokenObtained Demo.timedOut _ H1 H2 pages_full H8 H3 H4 H5 H6 H7).
Defined.

Section NoContract.

Variable env : Env.

(** Without an active contract an attempt ends before any request, and
    the retrieval gives up whatever the number of the attempt. *)
Lemma no_contract_gives_up fuel idS tok retryCount w :
  contratoAtivo env (tick w) = None ->
  buscarCabecalhoNotaSankhya env (S fuel) idS tok retryCount w
  = Throw (giveUp retryCount (newError "Nenhum contrato ativo encontrado"))
          (step [] (emit (EvAttempt retryCount) w)).
Proof.
  intros Hnone. rewrite buscar_unfold, pageLoop_S by reflexivity.
  unfold tryCatch, tryPage, bind, buscarContratoAtivo. red_world. rewrite Hnone.
  unfold throw, onPageError.
  change (isAuthError (newError "Nenhum contrato ativo encontrado")) with false. cbv iota.
  unfold throw.
  change (isTransient (newError "Nenhum contrato ativo encontrado")) with false.
  rewrite andb_false_r. reflexivity.
Qed.

End NoContract.

(** X11.  Without an active contract the sync gives up at once: after the
    credential and one attempt, with no request sent, no pause and no
    retry, it reports the failure under the message of the retrieval and
    leaves the mirror as it was. *)
Theorem missing_contract_fails_at_once (env : Env) (fuel : nat) (idS : Z) (nome : string)
    (w : World) (tok : string)
    (Hfuel : (0 < fuel)%nat)
    (Htoken : tokenSupplier env (tick w) idS = inr tok)
    (Hnone : contratoAtivo env (S (tick w)) = None) :
  exists r w',
    sincronizarCabecalhoNotaPorEmpresa env fuel idS nome w = Ret r w'
    /\ success r = false
    /\ erro r = Some "Erro ao buscar cabeçalhos de nota após 1 tentativas: Nenhum contrato ativo encontrado"
    /\ trace w' = (trace w ++ [EvToken idS; EvAttempt 0])%list
    /\ committed w' = committed w.
Proof.
  rewrite sync_stages. unfold fetchAndConnect, bind, obterToken. rewrite Htoken.
  destruct fuel as [|fuel]; [lia|].
  rewrite (no_contract_gives_up env fuel idS tok 0 (step [EvToken idS] w) Hnone).
  unfold onFailure, bind, ret, getNow.
  match goal with
  | |- context [quietly (salvarLogSincronizacao env) ?w0] =>
      destruct (quietly_log env w0) as (w3 & -> & Hc & Ht)
  end.
  eexists _, _. split; [reflexivity|]. simpl. split; [reflexivity|]. split; [reflexivity|].
  rewrite Ht, Hc. simpl. rewrite app_nil_r, <- app_assoc. split; reflexivity.
Qed.

(** X11 on a remote without contracts. *)
Lemma missing_contract_fails_at_once_witness :
  (0 < 9)%nat
  /\ tokenSupplier Cases.contractless (tick Demo.mirrored) 7 = inr "token"
  /\ contratoAtivo Cases.contractless (S (tick Demo.mirrored)) = None
  /\ exists r w',
       sincronizarCabecalhoNotaPorEmpresa Cases.contractless 9 7 "ACME" Demo.mirrored = Ret r w'
       /\ success r = false
       /\ trace w' = [EvToken 7; EvAttempt 0]
       /\ committed w' = committed Demo.mirrored.
Proof.
  assert (H1 : (0 < 9)%nat) by lia.
  split; [exact H1|]. split; [reflexivity|]. split; [reflexivity|].
  destruct (missing_contract_fails_at_once Cases.contractless 9 7 "ACME" Demo.mirrored "token"
              H1 eq_refl eq_refl) as (r & w' & Hrun & Hs & _ & Ht & Hc).
  exists r, w'. auto.
Defined.

(** ** The sequence of requests *)

Section RequestSequence.

Variable env : Env.
Variable pages : list (list RawEntity).
Variable fieldNames : list string.
Variable T : nat.
Variable isSandbox : bool.
Hypothesis Hcontract : forall k, contratoAtivo env k = Some isSandbox.
Hypothesis Hlate : servesFrom env pages fieldNames T.
Hypothesis Hfull : Forall (fun pg => pg <> []) pages.

Lemma pageRequests_step url tok p n :
  (p < n)%nat ->
  pageRequests url tok p n
  = ((EvPost url tok p :: (if (S p <? n)%nat then [EvSleep 500] else []))
     ++ pageRequests url tok (S p) n)%list.
Proof.
  intros Hp. unfold pageRequests.
  replace (n - p)%nat with (S (n - S p)) by lia. reflexivity.
Qed.

(** The loop asks for the pages in order, one request each. *)
Lemma pageLoop_requests idS : forall fuel p acc tok w,
  (T <= S (tick w))%nat ->
  (p < length pages)%nat ->
  (length pages - p <= fuel)%nat ->
  exists w',
    pageLoop env fuel idS (mkLoop acc p true tok) w
    = Ret (mkLoop (acc ++ map (mapEntity fieldNames) (concat (drop p pages)))
                  (length pages - 1) false tok) w'
    /\ trace w' = (trace w ++ pageRequests (urlOf isSandbox) tok p (length pages))%list.
Proof.
  induction fuel as [|fuel IH]; intros p acc tok w HT Hp Hfuel; [lia|].
  rewrite pageLoop_S by reflexivity.
  destruct (lookup_lt_is_Some_2 pages p Hp) as [pg Hpg].
  assert (Hne : pg <> []).
  { eapply (proj1 (Forall_lookup _ _) Hfull); eauto. }
  set (st := mkLoop acc p true tok).
  pose proof (Hlate (S (tick w)) (urlOf isSandbox) tok p HT) as Hok.
  pose proof (tryPage_response env st w isSandbox _ (Hcontract _) Hok
                (pageOf_wellFormed pages fieldNames p)) as Hturn.
  cbv zeta in Hturn. rewrite pageOf_records, pageOf_more, Hpg in Hturn. simpl default in Hturn.
  rewrite length_map in Hturn.
  assert (Hlen : (length pg =? 0)%nat = false).
  { apply Nat.eqb_neq. destruct pg; simpl; [congruence|lia]. }
  rewrite Hlen in Hturn. simpl orb in Hturn.
  unfold tryCatch. rewrite (drop_S _ _ _ Hpg). simpl concat. rewrite map_app, app_assoc.
  rewrite (pageRequests_step _ _ _ _ Hp).
  destruct (Nat.ltb_spec (S p) (length pages)) as [Hlt|Hge]; simpl negb in Hturn;
    cbv iota in Hturn; rewrite Hturn.
  - destruct (IH (S p) (acc ++ map (mapEntity fieldNames) pg)%list tok
                 (emit (EvSleep 500) (afterPost isSandbox st w))) as (w' & Hloop & Htrace).
    + simpl. lia.
    + exact Hlt.
    + lia.
    + exists w'. split; [exact Hloop|]. rewrite Htrace. simpl.
      rewrite app_nil_r, <- !app_assoc. reflexivity.
  - eexists. rewrite pageLoop_done by reflexivity. split.
    + rewrite drop_ge by lia. simpl. rewrite app_nil_r.
      replace (length pages - 1)%nat with p by lia. reflexivity.
    + unfold pageRequests. replace (length pages - S p)%nat with 0%nat by lia.
      simpl. rewrite !app_nil_r. reflexivity.
Qed.

End RequestSequence.

(** X23.  Against a remote that answers, the retrieval makes one attempt
    and asks for the pages 0, 1, 2, ... in order, one request each, with
    the credential it was given and the address of the contract's
    environment (sandbox or production), pausing 500 ms after every page
    but the last; it returns the records of all pages in that order. *)
Theorem pages_are_requested_in_order (env : Env) (pages : list (list RawEntity))
    (fieldNames : list string) (isSandbox : bool) (idS : Z) (fuel : nat) (tok : string)
    (w : World)
    (Hcontract : forall k, contratoAtivo env k = Some isSandbox)
    (Hserves : servesFrom env pages fieldNames (S (tick w)))
    (Hsome : pages <> []) (Hfull : Forall (fun pg => pg <> []) pages)
    (Hfuel : (length pages <= fuel)%nat) :
  exists w',
    buscarCabecalhoNotaSankhya env fuel idS tok 0 w
    = Ret (map (mapEntity fieldNames) (concat pages)) w'
    /\ trace w'
       = (trace w ++ EvAttempt 0 :: pageRequests (urlOf isSandbox) tok 0 (length pages))%list.
Proof.
  rewrite buscar_unfold.
  destruct (pageLoop_requests env pages fieldNames (S (tick w)) isSandbox Hcontract Hserves Hfull
              idS fuel 0%nat [] tok (emit (EvAttempt 0) w)) as (w' & Hloop & Htrace).
  - simpl. lia.
  - destruct pages; [congruence|simpl; lia].
  - lia.
  - rewrite Hloop. exists w'. split; [reflexivity|].
    rewrite Htrace. simpl. rewrite <- app_assoc. reflexivity.
Qed.

(** X23 on the steady scenario: four requests, three pauses. *)
Lemma pages_are_requested_in_order_witness :
  (forall k, contratoAtivo Demo.steady k = Some true)
  /\ servesFrom Demo.steady Demo.pages Demo.fields (S (tick Demo.tokenObtained))
  /\ Demo.pages <> [] /\ Forall (fun pg => pg <> []) Demo.pages
  /\ (length Demo.pages <= 9)%nat
  /\ exists w',
       buscarCabecalhoNotaSankhya Demo.steady 9 7 "token" 0 Demo.tokenObtained
       = Ret Demo.snapshot w'
       /\ trace w'
          = [EvToken 7; EvAttempt 0;
             EvPost (urlOf true) "token" 0; EvSleep 500;
             EvPost (urlOf true) "token" 1; EvSleep 500;
             EvPost (urlOf true) "token" 2; EvSleep 500;
             EvPost (urlOf true) "token" 3].
Proof.
  assert (H1 : forall k, contratoAtivo Demo.steady k = Some true) by reflexivity.
  assert (H2 : servesFrom Demo.steady Demo.pages Demo.fields (S (tick Demo.tokenObtained)))
    by (intros k url tok p _; reflexivity).
  assert (H3 : Demo.pages <> []) by discriminate.
  assert (H5 : (length Demo.pages <= 9)%nat) by (simpl; lia).
  split; [exact H1|]. split; [exact H2|]. split; [exact H3|]. split; [exact pages_full|].
  split; [exact H5|].
  destruct (pages_are_requested_in_order Demo.steady Demo.pages Demo.fields true 7 9 "token"
              Demo.tokenObtained H1 H2 H3 pages_full H5) as (w' & Hrun & Htrace).
  exists w'. split; [exact Hrun|]. rewrite Htrace. reflexivity.
Defined.

(** ** Empty answers, early failures and the tenant lookup *)

Section EmptyAnswer.

Variable env : Env.
Hypothesis Hcontracts : contractsActive env.
Hypothesis Hrenew : renewalsSucceed env.
Hypothesis Hblank : answersWithoutEntity env.

(** An answer without entities ends the retrieval with no record. *)
Lemma blank_retrieves fuel idS : (0 < fuel)%nat -> retrieves env fuel idS [].
Proof.
  intros Hfuel w. destruct (Hrenew (tick w) idS) as [tok Htok].
  exists tok, (step [EvToken idS] w). unfold obterToken. rewrite Htok.
  destruct fuel as [|fuel]; [lia|].
  set (w1 := step [EvToken idS] w). set (st := mkLoop [] 0 true tok).
  destruct (Hcontracts (tick (emit (EvAttempt 0) w1))) as [sb Hsb].
  destruct (Hblank (S (tick (emit (EvAttempt 0) w1))) (urlOf sb) tok 0%nat)
    as (response & Hok & Hnone).
  assert (Hwf : wellFormed response).
  { intros entities H. rewrite Hnone in H. discriminate. }
  pose proof (tryPage_response env st (emit (EvAttempt 0) w1) sb response Hsb Hok Hwf) as Hturn.
  assert (Hrec : pageRecords response = []) by (unfold pageRecords; rewrite Hnone; reflexivity).
  rewrite Hrec in Hturn. simpl in Hturn.
  eexists. split; [reflexivity|].
  rewrite buscar_unfold, pageLoop_S by reflexivity. unfold tryCatch.
  fold st. rewrite Hturn, pageLoop_done by reflexivity. reflexivity.
Qed.

End EmptyAnswer.

(** X12.  An answer of the remote without entities, be it an empty result
    or a body of another shape, counts as an empty snapshot: when nothing
    else fails the sync succeeds with no record, and every row of the
    tenant that was active is flagged inactive. *)
Theorem empty_answer_deactivates_tenant (env : Env) (fuel : nat) (idS : Z) (nome : string)
    (w : World)
    (Hfuel : (0 < fuel)%nat)
    (Hsound : storeSound env)
    (Hcontracts : contractsActive env)
    (Hrenew : renewalsSucceed env)
    (Hblank : answersWithoutEntity env) :
  exists r w',
    sincronizarCabecalhoNotaPorEmpresa env fuel idS nome w = Ret r w'
    /\ success r = true
    /\ totalRegistros r = 0%nat
    /\ registrosInseridos r = 0%nat /\ registrosAtualizados r = 0%nat
    /\ registrosDeletados r = activeCount (committed w) idS
    /\ activeCount (committed w') idS = 0%nat
    /\ (forall k, activeAt (committed w) idS k -> inactiveAt (committed w') idS k).
Proof.
  pose proof (blank_retrieves env Hcontracts Hrenew Hblank fuel idS Hfuel) as Hretr.
  destruct (sync_keyed env fuel idS [] Hsound Hretr (Forall_nil_2 _) nome w)
    as (r & w' & Hrun & Hs & Htot & Hsum & _ & Hact).
  assert (Hnone : forall k, ~ activeAt (committed w') idS k).
  { intros k Hk. apply Hact in Hk. inversion Hk. }
  destruct (sync_success_inv env idS fuel nome w r w' Hrun Hs)
    as (cs & w1 & w2 & _ & _ & Hw1 & Hrec & _).
  destruct (reconcile_ret env idS nome _ cs w1 r w2 Hrec) as [Hdel _].
  exists r, w'. split; [exact Hrun|]. split; [exact Hs|]. split; [exact Htot|].
  simpl in Hsum. split; [lia|]. split; [lia|]. split; [rewrite Hdel, Hw1; reflexivity|].
  split; [apply none_active_count; exact Hnone|].
  intros k (row & Hrow & Hflag).
  destruct (sync_keeps_rows env fuel idS nome w r w' (idS, k) row Hrun Hrow) as (row' & Hrow' & _).
  exists row'. split; [exact Hrow'|].
  destruct (SANKHYA_ATUAL row') eqn:Hf; [|reflexivity].
  exfalso. apply (Hnone k). exists row'. auto.
Qed.

(** X12 on a mirror that holds note 1, active, and a remote that answers
    without entities. *)
Lemma empty_answer_deactivates_tenant_witness :
  (0 < 5)%nat /\ storeSound Cases.blank /\ contractsActive Cases.blank
  /\ renewalsSucceed Cases.blank /\ answersWithoutEntity Cases.blank
  /\ activeAt (committed Demo.mirrored) 7 1
  /\ exists r w',
       sincronizarCabecalhoNotaPorEmpresa Cases.blank 5 7 "ACME" Demo.mirrored = Ret r w'
       /\ success r = true
       /\ registrosDeletados r = 1%nat
       /\ inactiveAt (committed w') 7 1.
Proof.
  assert (H1 : (0 < 5)%nat) by lia.
  assert (H2 : storeSound Cases.blank) by (intros j; repeat split).
  assert (H3 := remote_contracts (axiosPost Cases.blank) Demo.noFault).
  assert (H4 := remote_renewals (axiosPost Cases.blank) Demo.noFault).
  assert (H5 : answersWithoutEntity Cases.blank).
  { intros k url tok p. exists None. split; reflexivity. }
  assert (H6 : activeAt (committed Demo.mirrored) 7 1).
  { exists Demo.row1. split; [vm_compute; reflexivity|reflexivity]. }
  split; [exact H1|]. split; [exact H2|]. split; [exact H3|]. split; [exact H4|].
  split; [exact H5|]. split; [exact H6|].
  destruct (empty_answer_deactivates_tenant Cases.blank 5 7 "ACME" Demo.mirrored H1 H2 H3 H4 H5)
    as (r & w' & Hrun & Hs & _ & _ & _ & Hdel & _ & Hall).
  exists r, w'. split; [exact Hrun|]. split; [exact Hs|]. split; [|exact (Hall 1 H6)].
  rewrite Hdel. vm_compute. reflexivity.
Defined.

(** X13.  When the credential, the retrieval or the opening of the store
    connection fails, the sync reports that error and leaves the mirror
    as it was; no statement is run, so nothing is rolled back or
    closed. *)
Theorem early_failure_leaves_mirror (env : Env) (fuel : nat) (idS : Z) (nome : string)
    (w : World) (e : JsError) (w1 : World)
    (Hfetch : fetchAndConnect env fuel idS w = Throw e w1) :
  exists r w',
    sincronizarCabecalhoNotaPorEmpresa env fuel idS nome w = Ret r w'
    /\ success r = false
    /\ erro r = message e
    /\ committed w' = committed w
    /\ tick w' = S (tick w1)
    /\ trace w' = trace w1.
Proof.
  rewrite sync_stages, Hfetch. unfold onFailure, bind, ret, getNow.
  unfold quietly, tryCatch, salvarLogSincronizacao, dbCall, ret.
  pose proof (fetch_committed env idS fuel w w1 ltac:(rewrite Hfetch; reflexivity)) as Hc.
  destruct (fault env OpLog (tick w1)); eexists _, _; (split; [reflexivity|]); simpl;
    rewrite app_nil_r; auto.
Qed.

(** X13 on a store that cannot be reached: the snapshot is retrieved and
    dropped. *)
Lemma early_failure_leaves_mirror_witness :
  fetchAndConnect Demo.unreachable 9 7 Demo.mirrored
  = Throw Demo.storeDown (Demo.finalOf (fetchAndConnect Demo.unreachable 9 7 Demo.mirrored))
  /\ exists r w',
       sincronizarCabecalhoNotaPorEmpresa Demo.unreachable 9 7 "ACME" Demo.mirrored = Ret r w'
       /\ success r = false
       /\ erro r = Some "ORA-12541: TNS:no listener"
       /\ committed w' = committed Demo.mirrored.
Proof.
  assert (H1 : fetchAndConnect Demo.unreachable 9 7 Demo.mirrored
               = Throw Demo.storeDown
                   (Demo.finalOf (fetchAndConnect Demo.unreachable 9 7 Demo.mirrored)))
    by (vm_compute; reflexivity).
  split; [exact H1|].
  destruct (early_failure_leaves_mirror Demo.unreachable 9 7 "ACME" Demo.mirrored _ _ H1)
    as (r & w' & Hrun & Hs & He & Hc & _).
  exists r, w'. auto.
Defined.

(** X14.  The run over all tenants reads the list of tenants first.  A
    failure of that query, or of the closing of the connection after it,
    is thrown to the caller before any tenant is synced; an empty list
    ends the run with no outcome.  In all three cases nothing is asked of
    the remote and the mirror is not touched. *)
Theorem tenant_lookup_edge_cases (env : Env) (fuel : nat) (w : World)
    (Hconnect : fault env OpConnect (tick w) = None) :
  (forall e, fault env OpExecute (S (tick w)) = Some e ->
     exists w', sincronizarTodasEmpresas env fuel w = Throw e w'
                /\ trace w' = trace w /\ committed w' = committed w)
  /\ (forall e, fault env OpExecute (S (tick w)) = None ->
        fault env OpClose (S (S (tick w))) = Some e ->
        exists w', sincronizarTodasEmpresas env fuel w = Throw e w'
                   /\ trace w' = trace w /\ committed w' = committed w)
  /\ (fault env OpExecute (S (tick w)) = None ->
      fault env OpClose (S (S (tick w))) = None ->
      empresasAtivas env (S (S (tick w))) = [] ->
      exists w', sincronizarTodasEmpresas env fuel w = Ret [] w'
                 /\ trace w' = trace w /\ committed w' = committed w).
Proof.
  unfold sincronizarTodasEmpresas, bind, attempt, getOracleConnection, consultarEmpresas,
    quietly, tryCatch, close, dbCall, throw, ret.
  rewrite Hconnect. red_world. split; [|split].
  - intros e He. rewrite He. red_world.
    destruct (fault env OpClose (S (S (tick w)))); eexists; (split; [reflexivity|]); simpl;
      rewrite !app_nil_r; split; reflexivity.
  - intros e Hx He. rewrite Hx. red_world. rewrite He. red_world.
    destruct (fault env OpClose (S (S (S (tick w))))); eexists; (split; [reflexivity|]); simpl;
      rewrite !app_nil_r; split; reflexivity.
  - intros Hx Hcl Hempty. rewrite Hx. red_world. rewrite Hcl. red_world. rewrite Hempty.
    eexists. split; [reflexivity|]. simpl. rewrite !app_nil_r. split; reflexivity.
Qed.

(** X14 on a store whose connections cannot be closed: the tenants are
    read and none is synced. *)
Lemma tenant_lookup_edge_cases_witness :
  fault Cases.unclosable OpConnect (tick Demo.start) = None
  /\ fault Cases.unclosable OpExecute (S (tick Demo.start)) = None
  /\ fault Cases.unclosable OpClose (S (S (tick Demo.start))) = Some Demo.storeDown
  /\ empresasAtivas Cases.unclosable (S (S (tick Demo.start))) = Demo.tenants
  /\ exists w', sincronizarTodasEmpresas Cases.unclosable 9 Demo.start = Throw Demo.storeDown w'
                /\ trace w' = trace Demo.start.
Proof.
  split; [reflexivity|]. split; [reflexivity|]. split; [reflexivity|]. split; [reflexivity|].
  destruct (tenant_lookup_edge_cases Cases.unclosable 9 Demo.start eq_refl) as (_ & H & _).
  destruct (H Demo.storeDown eq_refl eq_refl) as (w' & Hrun & Ht & _).
  exists w'. auto.
Defined.

(** ** The log sink *)

Section LogIndependence.

Variable env : Env.
Variable logFault : nat -> option JsError.

Local Abbreviation env' := (withLogFaults env logFault).

(** The retrieval and the upsert never call the log sink. *)
Lemma log_buscar fuel idS retryCount tok w :
  buscarCabecalhoNotaSankhya env' fuel idS tok retryCount w
  = buscarCabecalhoNotaSankhya env fuel idS tok retryCount w.
Proof. reflexivity. Qed.

Lemma log_upsert idS cs w :
  upsertCabecalhoNota env' idS cs w = upsertCabecalhoNota env idS cs w.
Proof. reflexivity. Qed.

(** The call of the log sink under its [catch] always comes back, and
    leaves the same world whether the sink failed or not. *)
Lemma log_swallowed (e0 : Env) w : quietly (salvarLogSincronizacao e0) w = Ret tt (step [] w).
Proof.
  unfold quietly, tryCatch, salvarLogSincronizacao, dbCall, ret.
  destruct (fault e0 OpLog (tick w)); reflexivity.
Qed.

Lemma log_fetch fuel idS w :
  fetchAndConnect env' fuel idS w = fetchAndConnect env fuel idS w.
Proof. reflexivity. Qed.

Lemma log_reconcile idS nome t0 cs w :
  reconcile env' idS nome t0 cs w = reconcile env idS nome t0 cs w.
Proof.
  unfold reconcile, bind.
  change (marcarTodosComoNaoAtuais env' idS w) with (marcarTodosComoNaoAtuais env idS w).
  destruct (marcarTodosComoNaoAtuais env idS w) as [deleted w1|e w1|]; try reflexivity.
  rewrite log_upsert.
  destruct (upsertCabecalhoNota env idS cs w1) as [n w2|e w2|]; try reflexivity.
  change (commit env' w2) with (commit env w2).
  destruct (commit env w2) as [[] w3|e w3|]; try reflexivity.
  unfold getNow. rewrite !log_swallowed. reflexivity.
Qed.

Lemma log_onFailure connection idS nome t0 e w :
  onFailure env' connection idS nome t0 e w = onFailure env connection idS nome t0 e w.
Proof.
  unfold onFailure, bind.
  change (quietly (rollback env')) with (quietly (rollback env)).
  destruct ((if connection then quietly (rollback env) else ret tt) w) as [[] w1|e1 w1|];
    try reflexivity.
  unfold getNow. rewrite !log_swallowed. reflexivity.
Qed.

Lemma log_sync fuel idS nome w :
  sincronizarCabecalhoNotaPorEmpresa env' fuel idS nome w
  = sincronizarCabecalhoNotaPorEmpresa env fuel idS nome w.
Proof.
  rewrite (sync_stages env'), (sync_stages env), log_fetch.
  change (now env' (tick w)) with (now env (tick w)).
  destruct (fetchAndConnect env fuel idS w) as [cs w1|e w1|]; [|apply log_onFailure|reflexivity].
  unfold tryFinally, tryCatch. rewrite log_reconcile.
  change (quietly (close env')) with (quietly (close env)).
  destruct (reconcile env idS nome (now env (tick w)) cs w1) as [r w2|e w2|]; try reflexivity.
  rewrite log_onFailure. reflexivity.
Qed.

Lemma log_forEmpresas fuel : forall empresas resultados w,
  forEmpresas env' fuel empresas resultados w = forEmpresas env fuel empresas resultados w.
Proof.
  induction empresas as [|empresa rest IH]; intros resultados w; [reflexivity|].
  simpl. unfold bind. rewrite log_sync.
  destruct (sincronizarCabecalhoNotaPorEmpresa env fuel _ _ w) as [r w1|e w1|]; try reflexivity.
  destruct (sleep 2000 w1) as [[] w2|e w2|]; try reflexivity. apply IH.
Qed.

End LogIndependence.

(** X15.  Saving the log record is best effort: whether the log sink
    fails or not, and however it fails, the tenant sync and the run over
    all tenants end in the same outcome, with the same counts and the
    same mirror. *)
Theorem logging_never_changes_the_outcome (env : Env) (logFault : nat -> option JsError)
    (fuel : nat) :
  (forall idS nome w,
     sincronizarCabecalhoNotaPorEmpresa (withLogFaults env logFault) fuel idS nome w
     = sincronizarCabecalhoNotaPorEmpresa env fuel idS nome w)
  /\ (forall w,
        sincronizarTodasEmpresas (withLogFaults env logFault) fuel w
        = sincronizarTodasEmpresas env fuel w).
Proof.
  split; [intros idS nome w; apply log_sync|].
  intros w. unfold sincronizarTodasEmpresas, bind.
  change (attempt (getOracleConnection (withLogFaults env logFault)) w)
    with (attempt (getOracleConnection env) w).
  destruct (attempt (getOracleConnection env) w) as [[e|[]] w1|e w1|]; try reflexivity.
  change (attempt (let* result := consultarEmpresas (withLogFaults env logFault)
                   in close (withLogFaults env logFault);; ret result) w1)
    with (attempt (let* result := consultarEmpresas env in close env;; ret result) w1).
  destruct (attempt _ w1) as [[e|empresas] w2|e w2|]; try reflexivity.
  apply log_forEmpresas.
Qed.

(** ** The page mapping *)

Section EntityMapping.

Lemma getField_setField_same name v o :
  name ∈ interfaceFields -> getField name (setField name v o) = v.
Proof.
  unfold interfaceFields. rewrite !elem_of_cons, elem_of_nil.
  intros [->|[->|[->|[->|[->|[->|[->|[->|[]]]]]]]]]; reflexivity.
Qed.

Lemma getField_setField_other name other v o :
  name <> other -> getField name (setField other v o) = getField name o.
Proof.
  intros Hne. unfold setField.
  repeat match goal with
         | |- context [String.eqb other ?x] =>
             destruct (String.eqb_spec other x) as [->|?];
             [unfold getField;
              repeat match goal with
                     | |- context [String.eqb name ?y] =>
                         destruct (String.eqb_spec name y) as [->|?];
                         [first [congruence | reflexivity]|]
                     end;
              reflexivity|]
         end.
  reflexivity.
Qed.

(** The loop over the field list assigns to a property the cell at the
    position of its name. *)
Lemma mapFields_by_name name : forall fieldNames i rawEntity o,
  name ∈ interfaceFields -> NoDup fieldNames ->
  (forall j, fieldNames !! j = Some name ->
     getField name (mapFields fieldNames i rawEntity o)
     = default (getField name o) (cellOf rawEntity (i + j)))
  /\ (name ∉ fieldNames -> getField name (mapFields fieldNames i rawEntity o) = getField name o).
Proof.
  induction fieldNames as [|f rest IH]; intros i rawEntity o Hname Hnd.
  - split; [intros j Hj; discriminate|reflexivity].
  - apply NoDup_cons in Hnd as [Hf Hrest].
    set (o' := match nth_error rawEntity i with
               | Some (Some v) => setField f v o
               | _ => o
               end).
    destruct (IH (S i) rawEntity o' Hname Hrest) as [IH1 IH2].
    assert (Hother : name <> f -> getField name o' = getField name o).
    { intros Hne. unfold o'. destruct (nth_error rawEntity i) as [[v|]|]; try reflexivity.
      apply getField_setField_other. exact Hne. }
    split.
    + intros [|j] Hj; simpl in Hj.
      * inversion Hj; subst f. simpl mapFields. fold o'. rewrite (IH2 Hf).
        rewrite Nat.add_0_r. unfold o', cellOf.
        destruct (nth_error rawEntity i) as [[v|]|]; try reflexivity.
        apply getField_setField_same. exact Hname.
      * simpl mapFields. fold o'. rewrite (IH1 j Hj).
        replace (S i + j)%nat with (i + S j)%nat by lia.
        rewrite Hother; [reflexivity|]. intros ->. apply Hf.
        eapply list_elem_of_lookup_2, Hj.
    + intros Hnot. simpl mapFields. fold o'.
      rewrite IH2 by (intros H; apply Hnot; right; exact H).
      apply Hother. intros ->. apply Hnot. left.
Qed.

End EntityMapping.

(** X16.  The page mapping pairs the field list of the answer with the
    cells of an entity by position, whatever the order of the fields:
    with distinct field names, a property of the record holds the cell at
    the position of its name, and is undefined when the entity lacks that
    cell or the answer does not list the name. *)
Theorem entity_fields_are_mapped_by_name (fieldNames : list string) (rawEntity : RawEntity)
    (name : string)
    (Hname : name ∈ interfaceFields)
    (Hdistinct : NoDup fieldNames) :
  (forall j, fieldNames !! j = Some name ->
     getField name (mapEntity fieldNames rawEntity) = default JUndefined (cellOf rawEntity j))
  /\ (name ∉ fieldNames -> getField name (mapEntity fieldNames rawEntity) = JUndefined).
Proof.
  destruct (mapFields_by_name name fieldNames 0 rawEntity emptyCabecalho Hname Hdistinct)
    as [H1 H2].
  assert (Hempty : getField name emptyCabecalho = JUndefined).
  { unfold getField. repeat (destruct (String.eqb name _); [reflexivity|]). reflexivity. }
  rewrite Hempty in H1, H2. split; [|exact H2].
  intros j Hj. exact (H1 j Hj).
Qed.

(** X16 on an answer that lists the value before the identifier. *)
Lemma entity_fields_are_mapped_by_name_witness :
  "NUNOTA" ∈ interfaceFields /\ NoDup ["VLRNOTA"; "NUNOTA"]
  /\ ["VLRNOTA"; "NUNOTA"] !! 1%nat = Some "NUNOTA"
  /\ "TIPMOV" ∈ interfaceFields /\ ("TIPMOV" ∉ ["VLRNOTA"; "NUNOTA"])
  /\ NUNOTA (mapEntity ["VLRNOTA"; "NUNOTA"] [Some (JNum 250); Some (JNum 9)]) = JNum 9
  /\ TIPMOV (mapEntity ["VLRNOTA"; "NUNOTA"] [Some (JNum 250); Some (JNum 9)]) = JUndefined.
Proof.
  assert (H1 : "NUNOTA" ∈ interfaceFields) by (unfold interfaceFields; repeat constructor).
  assert (H2 : NoDup ["VLRNOTA"; "NUNOTA"]).
  { apply NoDup_cons. split; [|apply NoDup_singleton].
    intros H. apply list_elem_of_singleton in H. discriminate. }
  assert (H3 : ["VLRNOTA"; "NUNOTA"] !! 1%nat = Some "NUNOTA") by reflexivity.
  assert (H4 : "TIPMOV" ∈ interfaceFields) by (unfold interfaceFields; repeat constructor).
  assert (H5 : "TIPMOV" ∉ ["VLRNOTA"; "NUNOTA"]).
  { intros H. apply elem_of_cons in H as [H|H]; [discriminate|].
    apply list_elem_of_singleton in H. discriminate. }
  split; [exact H1|]. split; [exact H2|]. split; [exact H3|]. split; [exact H4|].
  split; [exact H5|]. split.
  - exact (proj1 (entity_fields_are_mapped_by_name ["VLRNOTA"; "NUNOTA"]
                    [Some (JNum 250); Some (JNum 9)] "NUNOTA" H1 H2) 1%nat H3).
  - exact (proj2 (entity_fields_are_mapped_by_name ["VLRNOTA"; "NUNOTA"]
                    [Some (JNum 250); Some (JNum 9)] "TIPMOV" H4 H2) H5).
Defined.

(** ** The statistics *)

Section StatisticsFacts.

Lemma sistemas_spec (s : Store) (t : Z) : t ∈ sistemas s <-> exists k, is_Some (s !! (t, k)).
Proof.
  unfold sistemas. rewrite elem_of_elements, elem_of_map. split.
  - intros ([a b] & -> & Hin). apply elem_of_dom in Hin. exists b. exact Hin.
  - intros [k Hk]. exists (t, k). split; [reflexivity|]. apply elem_of_dom. exact Hk.
Qed.

Lemma sistemas_NoDup (s : Store) : NoDup (sistemas s).
Proof. unfold sistemas. apply NoDup_elements. Qed.

Lemma agregar_ativos (s : Store) (t : Z) : REGISTROS_ATIVOS (agregar s t) = activeCount s t.
Proof.
  unfold agregar, comFlag, doSistema, activeCount. simpl. rewrite map_filter_filter.
  f_equal. apply map_filter_ext. intros key r _. simpl. tauto.
Qed.

Lemma agregar_total (s : Store) (t : Z) :
  TOTAL_REGISTROS (agregar s t)
  = (REGISTROS_ATIVOS (agregar s t) + REGISTROS_DELETADOS (agregar s t))%nat.
Proof.
  unfold agregar, comFlag. simpl. set (g := doSistema t s).
  rewrite <- (map_filter_union_complement
                (fun kr : Z * Z * MirrorRow => SANKHYA_ATUAL kr.2 = FlagS) g) at 1.
  rewrite map_size_disj_union by apply map_disjoint_filter_complement.
  f_equal. f_equal. apply map_filter_ext. intros key r _. simpl.
  destruct (SANKHYA_ATUAL r); split; congruence.
Qed.

Lemma agregar_positive (s : Store) (t : Z) :
  t ∈ sistemas s -> (0 < TOTAL_REGISTROS (agregar s t))%nat.
Proof.
  intros Ht. apply sistemas_spec in Ht as [k [row Hrow]]. unfold agregar. simpl.
  assert (Hin : doSistema t s !! (t, k) = Some row).
  { apply map_lookup_filter_Some. split; [exact Hrow|reflexivity]. }
  destruct (decide (size (doSistema t s) = 0%nat)) as [H0|H0]; [|lia].
  apply map_size_empty_iff in H0. rewrite H0 in Hin. rewrite lookup_empty in Hin. discriminate.
Qed.

(** The tenants of the answer. *)
Lemma consultar_tenants (filtro : option Z) (s : Store) :
  ID_SISTEMA <$> consultarEstatisticas filtro s
  = match filtro with
    | Some idS => filter (fun t => t = idS) (sistemas s)
    | None => sistemas s
    end.
Proof.
  unfold consultarEstatisticas.
  match goal with |- context [agregar s <$> ?l] => generalize l end.
  intros l. induction l as [|t l IH]; [reflexivity|].
  rewrite !fmap_cons, IH. reflexivity.
Qed.

End StatisticsFacts.

Section StatisticsRun.

Variable env : Env.

Lemma obter_returns idSistema w :
  fault env OpConnect (tick w) = None ->
  fault env OpExecute (S (tick w)) = None ->
  exists w',
    obterEstatisticasSincronizacao env idSistema w
    = Ret (consultarEstatisticas (filtroDe idSistema) (committed w)) w'
    /\ committed w' = committed w /\ trace w' = trace w.
Proof.
  intros Hc Hx.
  unfold obterEstatisticasSincronizacao, bind, attempt, getOracleConnection, tryFinally, dbCall.
  rewrite Hc. red_world. rewrite Hx. red_world.
  match goal with
  | |- context [quietly (close env) ?w0] => destruct (quietly_close env w0) as (w3 & -> & H3 & H4)
  end.
  eexists. split; [reflexivity|]. rewrite H3, H4. simpl. rewrite !app_nil_r. split; reflexivity.
Qed.

(** The statistics either come back or fail with the error of the
    connection or of the query; the mirror is only read. *)
Lemma obter_cases idSistema w :
  (exists rows w', obterEstatisticasSincronizacao env idSistema w = Ret rows w'
                   /\ committed w' = committed w)
  \/ (exists e w', obterEstatisticasSincronizacao env idSistema w = Throw e w'
                   /\ committed w' = committed w
                   /\ (fault env OpConnect (tick w) = Some e
                       \/ fault env OpExecute (S (tick w)) = Some e)).
Proof.
  destruct (fault env OpConnect (tick w)) as [e|] eqn:Hc.
  { right. exists e, (step [] w). split; [|split; [reflexivity|left; reflexivity]].
    unfold obterEstatisticasSincronizacao, bind, attempt, getOracleConnection, dbCall.
    rewrite Hc. reflexivity. }
  destruct (fault env OpExecute (S (tick w))) as [e|] eqn:Hx.
  - right. unfold obterEstatisticasSincronizacao, bind, attempt, getOracleConnection,
      tryFinally, dbCall.
    rewrite Hc. red_world. rewrite Hx.
    match goal with
    | |- context [quietly (close env) ?w0] =>
        destruct (quietly_close env w0) as (w3 & -> & H3 & _)
    end.
    exists e, w3. split; [reflexivity|]. split; [rewrite H3; reflexivity|right; reflexivity].
  - left. destruct (obter_returns idSistema w Hc Hx) as (w' & Hrun & Hcom & _). eauto.
Qed.

End StatisticsRun.

(** X17.  The statistics list each tenant that has rows once, or only the
    tenant asked for; for each the total is the sum of the active and the
    deleted rows, is never 0, and the active rows are the rows flagged
    'S'.  A tenant id that is 0, NaN or absent is no filter: all tenants
    are listed.  The mirror is only read. *)
Theorem statistics_are_consistent (env : Env) (idSistema : option Z) (w : World)
    (Hconnect : fault env OpConnect (tick w) = None)
    (Hquery : fault env OpExecute (S (tick w)) = None) :
  exists rows w',
    obterEstatisticasSincronizacao env idSistema w = Ret rows w'
    /\ committed w' = committed w
    /\ NoDup (ID_SISTEMA <$> rows)
    /\ (forall t, t ∈ (ID_SISTEMA <$> rows) <->
                  (exists k, is_Some (committed w !! (t, k)))
                  /\ (numFalsy idSistema = true \/ idSistema = Some t))
    /\ (forall e, e ∈ rows ->
          (0 < TOTAL_REGISTROS e)%nat
          /\ TOTAL_REGISTROS e = (REGISTROS_ATIVOS e + REGISTROS_DELETADOS e)%nat
          /\ REGISTROS_ATIVOS e = activeCount (committed w) (ID_SISTEMA e)).
Proof.
  destruct (obter_returns env idSistema w Hconnect Hquery) as (w' & Hrun & Hc & _).
  eexists _, w'. split; [exact Hrun|]. split; [exact Hc|].
  set (s := committed w).
  assert (Hsub : forall t, t ∈ (ID_SISTEMA <$> consultarEstatisticas (filtroDe idSistema) s) <->
                           t ∈ sistemas s /\ (numFalsy idSistema = true \/ idSistema = Some t)).
  { intros t. rewrite consultar_tenants. unfold filtroDe.
    destruct (numFalsy idSistema) eqn:Hf.
    - split; [intros H; split; [exact H|left; reflexivity]|intros [H _]; exact H].
    - destruct idSistema as [z|]; [|discriminate]. rewrite list_elem_of_filter. split.
      + intros [-> H]. split; [exact H|right; reflexivity].
      + intros [H [?|Heq]]; [discriminate|]. inversion Heq; subst. split; [reflexivity|exact H]. }
  split; [|split].
  - rewrite consultar_tenants. destruct (filtroDe idSistema); [apply NoDup_filter|];
      apply sistemas_NoDup.
  - intros t. rewrite Hsub, sistemas_spec. reflexivity.
  - intros e He. unfold consultarEstatisticas in He. apply list_elem_of_fmap in He as (t & -> & Ht).
    assert (Hin : t ∈ sistemas s).
    { destruct (filtroDe idSistema); [apply list_elem_of_filter in Ht as [_ Ht]|]; exact Ht. }
    split; [apply agregar_positive; exact Hin|]. split; [apply agregar_total|].
    apply agregar_ativos.
Qed.

(** X17 on a mirror shared by tenants 7 and 8, asked with the id 0. *)
Lemma statistics_are_consistent_witness :
  fault Demo.steady OpConnect (tick Cases.shared) = None
  /\ fault Demo.steady OpExecute (S (tick Cases.shared)) = None
  /\ exists rows w',
       obterEstatisticasSincronizacao Demo.steady (Some 0) Cases.shared = Ret rows w'
       /\ (forall t, t ∈ (ID_SISTEMA <$> rows) <->
                     exists k, is_Some (committed Cases.shared !! (t, k)))
       /\ (forall e, e ∈ rows -> REGISTROS_ATIVOS e = activeCount (committed Cases.shared) (ID_SISTEMA e)).
Proof.
  split; [reflexivity|]. split; [reflexivity|].
  destruct (statistics_are_consistent Demo.steady (Some 0) Cases.shared eq_refl eq_refl)
    as (rows & w' & Hrun & _ & _ & Hten & Hrows).
  exists rows, w'. split; [exact Hrun|]. split.
  - intros t. rewrite Hten. split; [intros [H _]; exact H|intros H; split; [exact H|left; reflexivity]].
  - intros e He. apply Hrows. exact He.
Defined.

(** ** Dates and the calendar *)

Section Calendar.

Ltac euclid := Z.to_euclidean_division_equations; lia.

Lemma doe_bound yoe doy :
  0 <= yoe < 400 -> 0 <= doy <= 365 -> leapDay yoe doy ->
  0 <= yoe * 365 + yoe / 4 - yoe / 100 + doy < 146097.
Proof. unfold leapDay. intros Hy Hd Hl. euclid. Qed.

Lemma yoe_inverse yoe doy :
  0 <= yoe < 400 -> 0 <= doy <= 365 -> leapDay yoe doy ->
  let doe := yoe * 365 + yoe / 4 - yoe / 100 + doy in
  (doe - doe / 1460 + doe / 36524 - doe / 146096) / 365 = yoe.
Proof. intros Hy Hd Hl. unfold leapDay in Hl. cbv zeta. euclid. Qed.

Lemma month_of_doy mp d :
  0 <= mp <= 11 -> 1 <= d <= 31 ->
  (mp = 1 \/ mp = 3 \/ mp = 6 \/ mp = 8 -> d <= 30) -> (mp = 11 -> d <= 29) ->
  let doy := (153 * mp + 2) / 5 + d - 1 in
  (5 * doy + 2) / 153 = mp /\ doy - (153 * ((5 * doy + 2) / 153) + 2) / 5 + 1 = d.
Proof. intros Hm Hd H30 H29. cbv zeta. euclid. Qed.


Lemma civilFromDays_parts era yoe doy :
  0 <= yoe < 400 -> 0 <= doy <= 365 -> leapDay yoe doy ->
  Civil.civilFromDays (era * 146097 + (yoe * 365 + yoe / 4 - yoe / 100 + doy) - 719468)
  = let mp := (5 * doy + 2) / 153 in
    let m := if mp <? 10 then mp + 3 else mp - 9 in
    mkDate (if m <=? 2 then yoe + era * 400 + 1 else yoe + era * 400) m
           (doy - (153 * mp + 2) / 5 + 1).
Proof.
  intros Hy Hd Hl. unfold Civil.civilFromDays. cbv zeta.
  pose proof (doe_bound yoe doy Hy Hd Hl) as Hb.
  pose proof (yoe_inverse yoe doy Hy Hd Hl) as Hinv. cbv zeta in Hinv.
  set (doe := yoe * 365 + yoe / 4 - yoe / 100 + doy) in *.
  replace (era * 146097 + doe - 719468 + 719468) with (doe + era * 146097) by lia.
  replace ((doe + era * 146097) / 146097) with era
    by (apply (Z.div_unique _ _ era doe); lia).
  replace (doe + era * 146097 - era * 146097) with doe by lia.
  rewrite Hinv.
  replace (doe - (365 * yoe + yoe / 4 - yoe / 100)) with doy by (unfold doe; lia).
  reflexivity.
Qed.

(** The length of each month. *)
Lemma daysIn_spec y m :
  1 <= m <= 12 ->
  (m = 2 /\ ((daysIn y m = 29 /\ y mod 4 = 0 /\ (y mod 100 <> 0 \/ y mod 400 = 0))
             \/ (daysIn y m = 28 /\ (y mod 4 <> 0 \/ (y mod 100 = 0 /\ y mod 400 <> 0)))))
  \/ ((m = 4 \/ m = 6 \/ m = 9 \/ m = 11) /\ daysIn y m = 30)
  \/ ((m = 1 \/ m = 3 \/ m = 5 \/ m = 7 \/ m = 8 \/ m = 10 \/ m = 12) /\ daysIn y m = 31).
Proof.
  intros Hm. unfold daysIn, isLeap.
  destruct (Z.eqb_spec m 2) as [->|H2].
  - left. split; [reflexivity|].
    destruct (Z.eqb_spec (y mod 4) 0), (Z.eqb_spec (y mod 100) 0), (Z.eqb_spec (y mod 400) 0);
      simpl; first [left; split; [reflexivity|euclid] | right; split; [reflexivity|euclid]].
  - right.
    destruct (Z.eqb_spec m 4), (Z.eqb_spec m 6), (Z.eqb_spec m 9), (Z.eqb_spec m 11); simpl;
      first [left; split; [lia|reflexivity] | right; split; [lia|reflexivity]].
Qed.

(** A civil date that exists is read back from its day number. *)
Lemma civil_roundtrip y m d :
  1 <= m <= 12 -> 1 <= d <= daysIn y m ->
  Civil.civilFromDays (Civil.daysFromCivil y m d) = mkDate y m d.
Proof.
  intros Hm Hd. pose proof (daysIn_spec y m Hm) as Hlen.
  unfold Civil.daysFromCivil. cbv zeta.
  set (y' := if m <=? 2 then y - 1 else y).
  assert (Hy' : (m <= 2 /\ y' = y - 1) \/ (2 < m /\ y' = y)).
  { unfold y'. destruct (Z.leb_spec m 2); [left|right]; lia. }
  clearbody y'.
  set (yoe := y' - y' / 400 * 400). set (mp := (m + 9) mod 12).
  assert (Hyoe : 0 <= yoe < 400) by (unfold yoe; euclid).
  assert (Hmp : (m <= 2 /\ mp = m + 9) \/ (2 < m /\ mp = m - 3)) by (unfold mp; euclid).
  set (doy := (153 * mp + 2) / 5 + d - 1).
  assert (Hdoy : 0 <= doy <= 365) by (unfold doy; euclid).
  assert (Hleap : leapDay yoe doy).
  { unfold leapDay, doy, yoe. intros H365. euclid. }
  rewrite (civilFromDays_parts (y' / 400) yoe doy Hyoe Hdoy Hleap). cbv zeta.
  destruct (month_of_doy mp d) as [Hm' Hd']; try lia.
  fold doy in Hm', Hd'. rewrite Hd'. rewrite Hm'.
  assert (Hmonth : (if mp <? 10 then mp + 3 else mp - 9) = m).
  { destruct (Z.ltb_spec mp 10); lia. }
  rewrite Hmonth. f_equal.
  destruct (Z.leb_spec m 2); unfold yoe; lia.
Qed.

(** The day after the last day of a month is the first of the next. *)
Lemma daysFromCivil_next y m j :
  1 <= m <= 11 ->
  Civil.daysFromCivil y m (daysIn y m + j) = Civil.daysFromCivil y (m + 1) j.
Proof.
  intros Hm. pose proof (daysIn_spec y m ltac:(lia)) as Hlen.
  unfold Civil.daysFromCivil. cbv zeta.
  destruct (Z.leb_spec m 2), (Z.leb_spec (m + 1) 2); euclid.
Qed.

Lemma newDate_calendar y m d :
  100 <= y -> 1 <= m <= 12 -> 1 <= d <= 31 ->
  newDate y (m - 1) d = calendarDate y m d.
Proof.
  intros Hy Hm Hd. unfold newDate.
  replace ((0 <=? y) && (y <=? 99)) with false by lia. cbv zeta.
  replace (y + (m - 1) / 12) with y by euclid.
  replace ((m - 1) mod 12 + 1) with m by euclid.
  replace (Civil.daysFromCivil y m 1 + d - 1) with (Civil.daysFromCivil y m d)
    by (unfold Civil.daysFromCivil; cbv zeta; lia).
  unfold calendarDate. destruct (Z.leb_spec d (daysIn y m)) as [Hle|Hgt].
  - apply civil_roundtrip; lia.
  - pose proof (daysIn_spec y m Hm) as Hlen.
    pose proof (daysIn_spec y (m + 1)) as Hnext.
    assert (Hm11 : m <= 11) by lia.
    replace d with (daysIn y m + (d - daysIn y m)) at 1 by lia.
    rewrite daysFromCivil_next by lia.
    apply civil_roundtrip; lia.
Qed.

End Calendar.

(** X20.  A date text whose year has three or four digits, whose month is
    in 1..12 and whose day is in 1..31 is converted to the calendar date
    it names whenever the day exists in that month.  A day that does not
    exist (30 February, 31 April) is not rejected: the date rolls over
    into the following month. *)
Theorem date_text_names_its_day (v : JsVal) (y m d : Z)
    (Htruthy : truthy v = true)
    (Hparts : dateComponents (jsString v) = Some (Some y, Some m, Some d))
    (Hy : 100 <= y <= 9999) (Hm : 1 <= m <= 12) (Hd : 1 <= d <= 31) :
  converterDataParaOracle v = Some (calendarDate y m d)
  /\ (d <= daysIn y m -> converterDataParaOracle v = Some (mkDate y m d))
  /\ (daysIn y m < d ->
      m < 12 /\ converterDataParaOracle v = Some (mkDate y (m + 1) (d - daysIn y m))).
Proof.
  assert (Hconv : converterDataParaOracle v = Some (calendarDate y m d)).
  { rewrite converter_components, Htruthy, Hparts.
    apply dateOfParts_Some. exists y, m, d.
    repeat split; try lia. symmetry. apply newDate_calendar; lia. }
  split; [exact Hconv|]. unfold calendarDate in Hconv. split.
  - intros Hle. destruct (Z.leb_spec d (daysIn y m)); [exact Hconv|lia].
  - intros Hgt. destruct (Z.leb_spec d (daysIn y m)); [lia|]. split; [|exact Hconv].
    unfold daysIn in Hgt.
    destruct (Z.eqb_spec m 2); [lia|].
    destruct (Z.eqb_spec m 4); [lia|]. destruct (Z.eqb_spec m 6); [lia|].
    destruct (Z.eqb_spec m 9); [lia|]. destruct (Z.eqb_spec m 11); [lia|].
    simpl in Hgt. lia.
Qed.

(** X20 on the 30th of February of 2024, which becomes the 1st of March. *)
Lemma date_text_names_its_day_witness :
  truthy (JStr "30/02/2024") = true
  /\ dateComponents (jsString (JStr "30/02/2024")) = Some (Some 2024, Some 2, Some 30)
  /\ 100 <= 2024 <= 9999 /\ 1 <= 2 <= 12 /\ 1 <= 30 <= 31
  /\ daysIn 2024 2 < 30
  /\ converterDataParaOracle (JStr "30/02/2024") = Some (mkDate 2024 3 1).
Proof.
  assert (H1 : truthy (JStr "30/02/2024") = true) by reflexivity.
  assert (H2 : dateComponents (jsString (JStr "30/02/2024")) = Some (Some 2024, Some 2, Some 30))
    by (vm_compute; reflexivity).
  assert (H3 : 100 <= 2024 <= 9999) by lia.
  assert (H4 : 1 <= 2 <= 12) by lia.
  assert (H5 : 1 <= 30 <= 31) by lia.
  assert (H6 : daysIn 2024 2 < 30) by (vm_compute; reflexivity).
  split; [exact H1|]. split; [exact H2|]. split; [exact H3|]. split; [exact H4|].
  split; [exact H5|]. split; [exact H6|].
  destruct (date_text_names_its_day (JStr "30/02/2024") 2024 2 30 H1 H2 H3 H4 H5)
    as (_ & _ & Hroll).
  exact (proj2 (Hroll H6)).
Defined.

(** ** The statistics after a sync, and their route *)

Section StatisticsAfterSync.

Lemma filter_absent (l : list Z) (x : Z) : x ∉ l -> filter (fun t => t = x) l = [].
Proof.
  induction l as [|a l IH]; intros Hx; [reflexivity|].
  rewrite filter_cons_False by (intros ->; apply Hx; left).
  apply IH. intros H. apply Hx. right. exact H.
Qed.

Lemma filter_present (l : list Z) (x : Z) :
  NoDup l -> x ∈ l -> filter (fun t => t = x) l = [x].
Proof.
  induction l as [|a l IH]; intros Hnd Hx; [inversion Hx|].
  apply NoDup_cons in Hnd as [Ha Hnd].
  destruct (decide (a = x)) as [->|Hne].
  - rewrite filter_cons_True by reflexivity. rewrite (filter_absent l x Ha). reflexivity.
  - rewrite filter_cons_False by exact Hne. apply IH; [exact Hnd|].
    apply elem_of_cons in Hx as [Hx|Hx]; [congruence|exact Hx].
Qed.

(** The answer for one tenant that has rows is its row. *)
Lemma consultar_one (s : Store) (idS k : Z) :
  idS <> 0 -> is_Some (s !! (idS, k)) ->
  consultarEstatisticas (filtroDe (Some idS)) s = [agregar s idS].
Proof.
  intros Hid Hrow. unfold filtroDe, numFalsy.
  destruct (Z.eqb_spec idS 0) as [H0|_]; [contradiction|].
  unfold consultarEstatisticas.
  rewrite (filter_present (sistemas s) idS (sistemas_NoDup s)); [reflexivity|].
  apply sistemas_spec. exists k. exact Hrow.
Qed.

Lemma messageOr_nonempty fallback e : fallback <> "" -> messageOr fallback e <> "".
Proof.
  intros Hf. unfold messageOr. destruct (message e) as [m|]; [|exact Hf].
  destruct (String.eqb_spec m ""); assumption.
Qed.

End StatisticsAfterSync.

(** How [parseInt] reads some texts. *)
Example parseInt_readings :
  Num.parseInt "42" = Some 42 /\ Num.parseInt "  42abc" = Some 42
  /\ Num.parseInt "-7" = Some (-7) /\ Num.parseInt "+7" = Some 7
  /\ Num.parseInt "0x1F" = Some 31 /\ Num.parseInt "0x" = None
  /\ Num.parseInt "007" = Some 7 /\ Num.parseInt "7.9" = Some 7
  /\ Num.parseInt "abc" = None /\ Num.parseInt "" = None /\ Num.parseInt "-" = None.
Proof. repeat split; reflexivity. Qed.

(** X18.  The statistics read back what a sync wrote: after a sync of a
    snapshot of distinct keyed records in which nothing fails, the
    statistics asked for the tenant are one row, whose number of active
    records is the number of records of the snapshot, that is the sum of
    the inserted and updated counts of the sync. *)
Theorem statistics_after_sync (env : Env) (fuel : nat) (idS : Z) (nome : string)
    (snap : list CabecalhoNota) (w0 : World)
    (Hsound : storeSound env)
    (Hretrieves : retrieves env fuel idS snap)
    (Hkeyed : Forall keyed snap)
    (Hdistinct : NoDup (keysOf snap))
    (Hid : idS <> 0)
    (Hsome : snap <> []) :
  exists r w1 e w2,
    sincronizarCabecalhoNotaPorEmpresa env fuel idS nome w0 = Ret r w1
    /\ obterEstatisticasSincronizacao env (Some idS) w1 = Ret [e] w2
    /\ ID_SISTEMA e = idS
    /\ REGISTROS_ATIVOS e = length snap
    /\ REGISTROS_ATIVOS e = (registrosInseridos r + registrosAtualizados r)%nat
    /\ TOTAL_REGISTROS e = (length snap + REGISTROS_DELETADOS e)%nat
    /\ committed w2 = committed w1.
Proof.
  destruct (sync_keyed env fuel idS snap Hsound Hretrieves Hkeyed nome w0)
    as (r & w1 & Hrun & _ & _ & Hsum & _ & Hact).
  pose proof (activeCount_exact idS (committed w1) (keysOf snap) Hdistinct Hact) as Hcount.
  rewrite (keyed_length snap Hkeyed) in Hcount.
  destruct (obter_returns env (Some idS) w1 (proj1 (Hsound _)) (proj1 (proj2 (Hsound _))))
    as (w2 & Hstats & Hc & _).
  assert (Hrow : exists k, is_Some (committed w1 !! (idS, k))).
  { destruct snap as [|c rest]; [congruence|].
    apply Forall_cons in Hkeyed as [[j Hj] _].
    assert (Hin : j ∈ keysOf (c :: rest)).
    { unfold keysOf. apply list_elem_of_omap. exists c. split; [left|exact Hj]. }
    apply Hact in Hin as (row & Hrow & _). exists j. eauto. }
  destruct Hrow as [k Hrow].
  rewrite (consultar_one (committed w1) idS k Hid Hrow) in Hstats.
  exists r, w1, (agregar (committed w1) idS), w2.
  split; [exact Hrun|]. split; [exact Hstats|]. split; [reflexivity|].
  rewrite agregar_total, agregar_ativos, Hcount. repeat split; try lia. exact Hc.
Qed.

(** X18 on the scenario: eight active records for tenant 7. *)
Lemma statistics_after_sync_witness :
  storeSound Demo.steady /\ retrieves Demo.steady 9 7 Demo.snapshot
  /\ Forall keyed Demo.snapshot /\ NoDup (keysOf Demo.snapshot)
  /\ 7 <> 0 /\ Demo.snapshot <> []
  /\ exists r w1 e w2,
       sincronizarCabecalhoNotaPorEmpresa Demo.steady 9 7 "ACME" Demo.mirrored = Ret r w1
       /\ obterEstatisticasSincronizacao Demo.steady (Some 7) w1 = Ret [e] w2
       /\ REGISTROS_ATIVOS e = 8%nat.
Proof.
  assert (H5 : 7 <> 0) by lia.
  assert (H6 : Demo.snapshot <> []) by discriminate.
  split; [exact steady_sound|]. split; [exact (steady_retrieves 7)|].
  split; [exact snapshot_keyed|]. split; [exact snapshot_distinct|].
  split; [exact H5|]. split; [exact H6|].
  destruct (statistics_after_sync Demo.steady 9 7 "ACME" Demo.snapshot Demo.mirrored
              steady_sound (steady_retrieves 7) snapshot_keyed snapshot_distinct H5 H6)
    as (r & w1 & e & w2 & Hrun & Hstats & _ & Hact & _).
  exists r, w1, e, w2. split; [exact Hrun|]. split; [exact Hstats|exact Hact].
Defined.



(** ** Batches and commits; trimming *)

Section PartialCommit.

Variable env : Env.
Variable idS : Z.

(** A record takes time and leaves the committed rows alone. *)
Lemma processRecord_tick c n w n' w' :
  processRecord env idS c n w = Ret n' w' ->
  (tick w < tick w')%nat /\ committed w' = committed w.
Proof.
  unfold processRecord, tryCatch, bind, selectCount, updateRow, insertRow, dbCall, log, ret.
  destruct (fault env OpExecute (tick w)) as [e|].
  { intros H. inversion H; subst. simpl. split; [lia|reflexivity]. }
  red_world.
  destruct (match keyOf (NUNOTA c) with
            | Some k => match working w !! (idS, k) with Some _ => 1%nat | None => 0%nat end
            | None => 0%nat
            end) as [|count]; red_world;
    destruct (fault env OpExecute (S (tick w))) as [e|];
    try (intros H; inversion H; subst; simpl; split; [lia|reflexivity]).
  - destruct (keyOf (NUNOTA c)) as [k|]; [destruct (working w !! (idS, k))|];
      intros H; inversion H; subst; simpl; split; first [lia|reflexivity].
  - destruct (keyOf (NUNOTA c)) as [k|];
      intros H; inversion H; subst; simpl; split; first [lia|reflexivity].
Qed.

(** After a commit that succeeded, a batch whose commit fails leaves the
    committed rows as that commit made them. *)
Lemma upsert_fails_after cs s i n w :
  (i < length cs)%nat ->
  committed w = s ->
  (forall j, (tick w <= j)%nat -> fault env OpCommit j <> None) ->
  exists e w', upsertFrom env idS cs i n w = Throw e w' /\ committed w' = s.
Proof.
  intros Hlt Hc Hfail. rewrite upsertFrom_loop.
  destruct (Nat.ltb_spec i (length cs)) as [_|Hge]; [|lia].
  destruct (processBatch_all env idS (fun w0 => committed w0 = s /\ (tick w <= tick w0)%nat))
    with (batch := slice i (i + BATCH_SIZE) cs) (n := n) (w := w)
    as (n1 & w1 & -> & Hc1 & Ht1).
  - intros c n0 wa n2 wb [Hca Hta] Hrun.
    destruct (processRecord_tick c n0 wa n2 wb Hrun) as [Ht Hk]. split; [congruence|lia].
  - split; [exact Hc|lia].
  - destruct (commit_cases env w1) as [(e & _ & ->)|(Hok & _)].
    + exists e, (step [] w1). split; [reflexivity|exact Hc1].
    + destruct (Hfail _ Ht1 Hok).
Qed.

End PartialCommit.

(** X21.  The upsert commits batch by batch, and a commit is not undone by
    the rollback of a later failure: with more than one batch, when the
    commit of the first batch succeeds and the later commits fail, the
    sync reports a failure with zero counts, and yet the mirror holds the
    stale-marking and the first batch of records as that commit published
    them. *)
Theorem failure_after_a_batch_is_not_undone (env : Env) (fuel : nat) (idS : Z) (nome : string)
    (w : World) (cs : list CabecalhoNota) (w1 : World) (n1 : Contagem) (wb : World)
    (Hfetch : fetchAndConnect env fuel idS w = Ret cs w1)
    (Hlong : (BATCH_SIZE < length cs)%nat)
    (Hmark : fault env OpExecute (tick w1) = None)
    (Hbatch : processBatch env idS (take BATCH_SIZE cs) (mkContagem 0 0) (afterMark env idS w1)
              = Ret n1 wb)
    (Hfirst : fault env OpCommit (tick wb) = None)
    (Hlater : forall j, (tick wb < j)%nat -> fault env OpCommit j <> None) :
  exists r w',
    sincronizarCabecalhoNotaPorEmpresa env fuel idS nome w = Ret r w'
    /\ success r = false
    /\ (registrosInseridos r, registrosAtualizados r, registrosDeletados r) = (0, 0, 0)%nat
    /\ committed w' = working wb
    /\ (forall k, activeAt (committed w') idS k -> k ∈ keysOf (take BATCH_SIZE cs)).
Proof.
  assert (Hthrow : exists e w2, reconcile env idS nome (now env (tick w)) cs w1 = Throw e w2
                                /\ committed w2 = working wb).
  { unfold reconcile, bind. rewrite (marcar_returns env idS w1 Hmark).
    unfold upsertCabecalhoNota. rewrite upsertFrom_loop.
    destruct (Nat.ltb_spec 0 (length cs)) as [_|Hge]; [|lia].
    assert (Hslice : slice 0 (0 + BATCH_SIZE) cs = take BATCH_SIZE cs).
    { unfold slice. rewrite drop_0. f_equal. }
    rewrite Hslice, Hbatch.
    destruct (commit_cases env wb) as [(e & He & _)|(_ & ->)]; [congruence|].
    destruct (upsert_fails_after env idS cs (working wb) (0 + BATCH_SIZE) n1
                (setCommitted (working wb) (step [] wb))) as (e & w2 & -> & Hc2).
    - simpl. exact Hlong.
    - reflexivity.
    - intros j Hj. apply Hlater. simpl in Hj. lia.
    - exists e, w2. split; [reflexivity|exact Hc2]. }
  destruct Hthrow as (e & w2 & Hrec & Hc2).
  rewrite sync_stages, Hfetch. unfold tryFinally, tryCatch. rewrite Hrec.
  destruct (onFailure_returns env true idS nome (now env (tick w)) e w2)
    as (r & w3 & -> & Hs & _ & _ & _ & _ & Hi & Hu & Hd & Hc3).
  destruct (quietly_close env w3) as (w4 & -> & Hc4 & _).
  exists r, w4. split; [reflexivity|]. split; [exact Hs|].
  split; [rewrite Hi, Hu, Hd; reflexivity|].
  assert (Hfinal : committed w4 = working wb) by congruence.
  split; [exact Hfinal|]. rewrite Hfinal.
  destruct (processBatch_inv env idS (take BATCH_SIZE cs)
              (reconciled idS (take BATCH_SIZE cs) (working w1))
              (reconciled_record env idS (take BATCH_SIZE cs) (working w1))
              (take BATCH_SIZE cs) 0 (mkContagem 0 0) (afterMark env idS w1))
    as (n' & w' & Hrun & Hinv).
  - intros j c Hj. exact Hj.
  - apply reconciled_start.
  - rewrite Hbatch in Hrun. inversion Hrun; subst n' w'.
    destruct Hinv as (Hact & _). simpl in Hact. rewrite firstn_all in Hact. exact Hact.
Qed.

(** X21 on 101 notes over a mirror that holds note 1: the commit of the
    second batch fails, the sync reports a failure, and the first 100
    notes are in the mirror. *)
Lemma failure_after_a_batch_is_not_undone_witness :
  fetchAndConnect Cases.secondCommitFails 5 7 Demo.mirrored
  = Ret Cases.snapshot101 Cases.connected
  /\ (BATCH_SIZE < length Cases.snapshot101)%nat
  /\ fault Cases.secondCommitFails OpExecute (tick Cases.connected) = None
  /\ Cases.firstBatch = Ret (Cases.countsOf Cases.firstBatch) (Demo.finalOf Cases.firstBatch)
  /\ tick (Demo.finalOf Cases.firstBatch) = 205%nat
  /\ exists r w',
       sincronizarCabecalhoNotaPorEmpresa Cases.secondCommitFails 5 7 "ACME" Demo.mirrored
       = Ret r w'
       /\ success r = false
       /\ size (committed Demo.mirrored) = 1%nat
       /\ size (committed w') = 100%nat.
Proof.
  assert (H1 : fetchAndConnect Cases.secondCommitFails 5 7 Demo.mirrored
               = Ret Cases.snapshot101 Cases.connected) by (vm_compute; reflexivity).
  assert (H2 : (BATCH_SIZE < length Cases.snapshot101)%nat) by (vm_compute; lia).
  assert (H3 : fault Cases.secondCommitFails OpExecute (tick Cases.connected) = None)
    by reflexivity.
  assert (H4 : Cases.firstBatch
               = Ret (Cases.countsOf Cases.firstBatch) (Demo.finalOf Cases.firstBatch))
    by (vm_compute; reflexivity).
  assert (H5 : tick (Demo.finalOf Cases.firstBatch) = 205%nat) by (vm_compute; reflexivity).
  split; [exact H1|]. split; [exact H2|]. split; [exact H3|]. split; [exact H4|].
  split; [exact H5|].
  destruct (failure_after_a_batch_is_not_undone Cases.secondCommitFails 5 7 "ACME"
              Demo.mirrored Cases.snapshot101 Cases.connected _ _ H1 H2 H3 H4)
    as (r & w' & Hrun & Hs & _ & Hc & _).
  - rewrite H5. reflexivity.
  - intros j Hj. rewrite H5 in Hj. simpl.
    destruct (Nat.leb_spec j 205); [lia|discriminate].
  - exists r, w'. split; [exact Hrun|]. split; [exact Hs|]. split; [reflexivity|].
    rewrite Hc. vm_compute. reflexivity.
Defined.

Section Trimming.

Lemma trimStart_head s :
  Str.trimStart s = EmptyString
  \/ exists c r, Str.trimStart s = String c r /\ Str.isSpace c = false.
Proof.
  induction s as [|c r IH]; [left; reflexivity|]. simpl.
  destruct (Str.isSpace c) eqn:Hc; [exact IH|]. right. exists c, r. auto.
Qed.

Lemma trimEnd_idempotent s : Str.trimEnd (Str.trimEnd s) = Str.trimEnd s.
Proof.
  induction s as [|c r IH]; [reflexivity|]. simpl.
  destruct (Str.trimEnd r) as [|c' r'] eqn:Hr.
  - destruct (Str.isSpace c) eqn:Hc; [reflexivity|]. simpl. rewrite Hc. reflexivity.
  - simpl. simpl in IH. rewrite IH. reflexivity.
Qed.

(** Trimming what is trimmed changes nothing. *)
Lemma trim_idempotent s : Str.trim (Str.trim s) = Str.trim s.
Proof.
  unfold Str.trim. destruct (trimStart_head s) as [->|(c & r & -> & Hc)]; [reflexivity|].
  rewrite (trimEnd_keep c r Hc). simpl Str.trimStart. rewrite Hc.
  rewrite <- (trimEnd_keep c r Hc). apply trimEnd_idempotent.
Qed.

End Trimming.


